(** * Collision-aware grid layout engine of the trading terminal

    A shallow embedding of the widget workspace store
    ([client/src/services/workspaceStore.ts]), of the legacy zustand
    workspace store and of the [GridLayout] component (drag, drop and
    resize handlers), and of the market data store, followed by the
    properties of the layout engine and of the stores.

    Modelling conventions.
    - A JavaScript [number] that holds a grid quantity is an integer or one
      of the three non-finite values: [ext Z].  The program's numbers are
      doubles, which hold the integers below [2^53] in magnitude and add
      and compare them exactly while the results stay there; beyond, the
      integers of the model are not the program's.  The no-overlap and
      the bounds invariants carry that bound ([exact_run],
      [reachable_action]).  [String(n)] is modelled by the decimal
      numeral, which is what the program prints below [10^21].
    - Pixel quantities are exact rationals or non-finite: [ext Q]; the
      rounding of doubles, overflow and the sign of zero are not
      represented.  The one place where rounding shows in a grid number
      is the quotient of a pointer offset by the cell pitch: at an offset
      on the border of two cells the program's rounded quotient can fall
      in the cell before the one of the exact quotient (width 1562,
      padding 12, [clientX] 398: column 2 for 3).  Properties of
      [calculateGridPosition] and of the resize preview are stated so
      that they hold whichever of two neighbouring cells a border
      position yields.
    - [GridLayout.ts] imports [workspaceStore] and [moveWidget] only; the
      call of [updateLayout] that ends [moveWidgetToPosition] and
      [resizeWidget] throws a ReferenceError.  The two methods are
      modelled up to that call: the layout object is written, the store
      is not reached.
    - Layout items are JavaScript objects that the code mutates in place and
      shares between the three breakpoint arrays, so the vanilla store is
      modelled over a heap of objects and arrays of references.  The zustand
      store only ever rebuilds its arrays and is modelled over values.
    - [Date.now()], the geometry the DOM reports for the grid container and
      the pointer events are inputs.  The grid is mounted and subscribed to
      the store from the start; a store update notifies it at once.
    - Of the placeholder element only the inline style is kept, as the
      strings the handlers write and read back; the browser's validation of
      style values is not represented.
    - A session of the zustand store is its state together with the
      module's [widgetCounter]; persistence to local storage is not
      represented.
    - The dictionaries of the market data store are plain objects: the own
      properties in order of creation, and the names inherited from
      [Object.prototype]; its [Set] is a list without repetition, in order
      of insertion. *)

From Stdlib Require Import ZArith QArith Qround String Ascii List Lia Bool.
From Stdlib Require Import DecimalString Lqa.
From Stdlib Require DecimalPos.
From stdpp Require Import base decidable option list strings.
Import ListNotations.

Close Scope Q_scope.
Open Scope string_scope.
Open Scope list_scope.
Open Scope Z_scope.

(* ===================================================================== *)
(** ** JavaScript numbers *)
(* ===================================================================== *)

Module JS.

Inductive ext (A : Type) : Type :=
  | Fin (a : A)
  | NaN
  | PInf
  | NInf.
Arguments Fin {A} a.
Arguments NaN {A}.
Arguments PInf {A}.
Arguments NInf {A}.

(** Grid quantities and pixel quantities. *)
Abbreviation number := (ext Z).
Abbreviation pixels := (ext Q).

#[global] Instance number_eq_dec : EqDecision number.
Proof. solve_decision. Defined.

Definition is_finite {A} (n : ext A) : bool :=
  match n with Fin _ => true | _ => false end.

(** [a < b] *)
Definition nlt (a b : number) : bool :=
  match a, b with
  | Fin a, Fin b => a <? b
  | NaN, _ | _, NaN => false
  | NInf, NInf => false
  | NInf, _ => true
  | _, PInf => match a with PInf => false | _ => true end
  | _, _ => false
  end.

(** [a <= b] *)
Definition nle (a b : number) : bool :=
  match a, b with
  | Fin a, Fin b => a <=? b
  | NaN, _ | _, NaN => false
  | NInf, _ => true
  | _, PInf => true
  | _, _ => false
  end.

(** [a > b] and [a >= b] *)
Definition ngt (a b : number) : bool := nlt b a.
Definition nge (a b : number) : bool := nle b a.

(** [a + b] *)
Definition nadd (a b : number) : number :=
  match a, b with
  | Fin a, Fin b => Fin (a + b)
  | NaN, _ | _, NaN => NaN
  | PInf, NInf | NInf, PInf => NaN
  | PInf, _ | _, PInf => PInf
  | NInf, _ | _, NInf => NInf
  end.

Definition nopp (a : number) : number :=
  match a with
  | Fin a => Fin (- a)
  | NaN => NaN
  | PInf => NInf
  | NInf => PInf
  end.

(** [a - b] *)
Definition nsub (a b : number) : number := nadd a (nopp b).

(** [Math.max(a, b)] and [Math.min(a, b)]: NaN if either argument is. *)
Definition nmax (a b : number) : number :=
  match a, b with
  | NaN, _ | _, NaN => NaN
  | _, _ => if nlt a b then b else a
  end.

Definition nmin (a b : number) : number :=
  match a, b with
  | NaN, _ | _, NaN => NaN
  | _, _ => if nlt b a then b else a
  end.

(** [Math.max(...xs)]; [Math.max()] is [-Infinity]. *)
Definition max_of (xs : list number) : number := fold_left nmax xs NInf.

(** *** Pixel arithmetic *)

Definition qltb (a b : Q) : bool := negb (Qle_bool b a).

Definition padd (a b : pixels) : pixels :=
  match a, b with
  | Fin a, Fin b => Fin (Qred (a + b))
  | NaN, _ | _, NaN => NaN
  | PInf, NInf | NInf, PInf => NaN
  | PInf, _ | _, PInf => PInf
  | NInf, _ | _, NInf => NInf
  end.

Definition popp (a : pixels) : pixels :=
  match a with
  | Fin a => Fin (Qopp a)
  | NaN => NaN
  | PInf => NInf
  | NInf => PInf
  end.

Definition psub (a b : pixels) : pixels := padd a (popp b).

(** [a / d] for a finite divisor [d].  A zero divisor stands for [+0]: the
    divisors of the program are sums with a positive constant. *)
Definition pdiv (a : pixels) (d : Q) : pixels :=
  match a with
  | Fin a =>
      if Qeq_bool d 0 then
        (if qltb 0 a then PInf else if qltb a 0 then NInf else NaN)
      else Fin (Qred (a / d))
  | NaN => NaN
  | PInf => if qltb d 0 then NInf else PInf
  | NInf => if qltb d 0 then PInf else NInf
  end.

(** [Math.floor] and [Math.round] (halves round up). *)
Definition floor (a : pixels) : number :=
  match a with
  | Fin q => Fin (Qfloor q)
  | NaN => NaN
  | PInf => PInf
  | NInf => NInf
  end.

Definition round (a : pixels) : number :=
  match a with
  | Fin q => Fin (Qfloor (q + (1 # 2)))
  | NaN => NaN
  | PInf => PInf
  | NInf => NInf
  end.

(** *** Strings *)

Definition string_of_Z (z : Z) : string :=
  NilZero.string_of_int (Z.to_int z).

(** [String(n)], as a template literal prints a number. *)
Definition to_string (n : number) : string :=
  match n with
  | Fin z => string_of_Z z
  | NaN => "NaN"
  | PInf => "Infinity"
  | NInf => "-Infinity"
  end.

Definition is_digit (c : ascii) : bool :=
  let n := nat_of_ascii c in (48 <=? n)%nat && (n <=? 57)%nat.

Definition is_space (c : ascii) : bool :=
  let n := nat_of_ascii c in ((9 <=? n)%nat && (n <=? 13)%nat) || (n =? 32)%nat.

Fixpoint skip_spaces (s : string) : string :=
  match s with
  | String c s' => if is_space c then skip_spaces s' else s
  | EmptyString => s
  end.

(** The value of the longest prefix of decimal digits, if there is one. *)
Fixpoint digits_value (s : string) (acc : option Z) : option Z :=
  match s with
  | String c s' =>
      if is_digit c
      then digits_value s' (Some (10 * default 0 acc + (Z.of_nat (nat_of_ascii c) - 48)))
      else acc
  | EmptyString => acc
  end.

(** [parseInt(s)] in radix 10: leading white space, an optional sign, then
    the longest run of digits; NaN when there is none. *)
Definition parseInt (s : string) : number :=
  let s := skip_spaces s in
  let '(neg, body) :=
    match s with
    | String "-" s' => (true, s')
    | String "+" s' => (false, s')
    | _ => (false, s)
    end in
  match digits_value body None with
  | Some v => Fin (if neg then - v else v)
  | None => NaN
  end.

(** [s.replace(pat, rep)] with a string pattern: the first occurrence. *)
Fixpoint replace (pat rep s : string) : string :=
  if String.prefix pat s
  then String.append rep (substring (String.length pat) (String.length s - String.length pat)%nat s)
  else match s with
       | String c s' => String c (replace pat rep s')
       | EmptyString => EmptyString
       end.

(** Truthiness of a string that may be [null] or [undefined]. *)
Definition truthy (o : option string) : bool :=
  match o with
  | Some s => negb (String.eqb s "")
  | None => false
  end.

(** *** Counted loops *)

(** What a loop body, or a loop, does: return from the enclosing function,
    fall through, or run for longer than the model was given fuel for. *)
Inductive loop_result (A : Type) : Type :=
  | Returned (a : A)
  | Completed
  | OutOfFuel.
Arguments Returned {A} a.
Arguments Completed {A}.
Arguments OutOfFuel {A}.

Fixpoint iterate {A} (n : nat) (i : Z) (body : Z -> loop_result A)
    (exhausted : loop_result A) : loop_result A :=
  match n with
  | O => exhausted
  | S n' =>
      match body i with
      | Completed => iterate n' (i + 1) body exhausted
      | r => r
      end
  end.

(** [for (let i = 0; i <= bound; i++) body]: a finite bound gives
    [bound + 1] iterations, NaN and [-Infinity] give none, and under
    [+Infinity] the loop only ends when the body returns. *)
Definition for_upto {A} (fuel : nat) (bound : number)
    (body : Z -> loop_result A) : loop_result A :=
  match bound with
  | Fin b => iterate (Z.to_nat (b + 1)) 0 body Completed
  | PInf => iterate fuel 0 body OutOfFuel
  | NaN | NInf => Completed
  end.

End JS.
Import JS.

(* ===================================================================== *)
(** ** Widget and layout types ([types/widget]) *)
(* ===================================================================== *)

Inductive WidgetType : Type :=
  | orderbook
  | chart
  | trade_history
  | market_selector
  | quote
  | watchlist.

#[global] Instance WidgetType_eq_dec : EqDecision WidgetType.
Proof. solve_decision. Defined.

(** The string a [WidgetType] is at run time. *)
Definition type_name (t : WidgetType) : string :=
  match t with
  | orderbook => "orderbook"
  | chart => "chart"
  | trade_history => "trade-history"
  | market_selector => "market-selector"
  | quote => "quote"
  | watchlist => "watchlist"
  end.

Module WidgetConfig.
Record t : Type := mk {
  depth : option number;
  timeframe : option string;
  chartType : option string;
  tickers : option (list string)
}.
(** The default argument [{}]. *)
Definition empty : t := mk None None None None.
#[global] Instance WidgetConfig_eq_dec : EqDecision t.
Proof. solve_decision. Defined.
End WidgetConfig.

Module WidgetInstance.
Record t : Type := mk {
  id : string;
  type : WidgetType;
  ticker : option string;
  title : string;
  config : WidgetConfig.t
}.
#[global] Instance WidgetInstance_eq_dec : EqDecision t.
Proof. solve_decision. Defined.
End WidgetInstance.

Module LayoutItem.
Record t : Type := mk {
  i : string;
  x : number;
  y : number;
  w : number;
  h : number;
  minW : option number;
  minH : option number;
  maxW : option number;
  maxH : option number;
  static : option bool
}.
#[global] Instance LayoutItem_eq_dec : EqDecision t.
Proof. solve_decision. Defined.

(** [{ ...l, x: x', y: y' }] and the in-place [l.x = x'; l.y = y']. *)
Definition set_xy (l : t) (x' y' : number) : t :=
  mk (i l) x' y' (w l) (h l) (minW l) (minH l) (maxW l) (maxH l) (static l).
(** [{ ...l, w: w', h: h' }] and the in-place [l.w = w'; l.h = h']. *)
Definition set_wh (l : t) (w' h' : number) : t :=
  mk (i l) (x l) (y l) w' h' (minW l) (minH l) (maxW l) (maxH l) (static l).
Definition set_x (l : t) (x' : number) : t := set_xy l x' (y l).
Definition set_w (l : t) (w' : number) : t := set_wh l w' (h l).
End LayoutItem.

Module Position.
Record t : Type := mk { x : number; y : number }.
#[global] Instance Position_eq_dec : EqDecision t.
Proof. solve_decision. Defined.
End Position.

(** [WorkspaceLayouts]: one array per breakpoint.  The element type is a
    layout item where arrays are only ever rebuilt, and a reference to one
    where the items are mutated in place. *)
Module WorkspaceLayouts.
Record t (A : Type) : Type := mk { lg : list A; md : list A; sm : list A }.
Arguments mk {A} lg md sm.
Arguments lg {A} _.
Arguments md {A} _.
Arguments sm {A} _.
Definition empty {A} : t A := mk [] [] [].
End WorkspaceLayouts.

Inductive Breakpoint : Type := bp_lg | bp_md | bp_sm.

#[global] Instance Breakpoint_eq_dec : EqDecision Breakpoint.
Proof. solve_decision. Defined.

(** [layouts[breakpoint]] and [{ ...layouts, [breakpoint]: layout }]. *)
Definition get_layout {A} (ls : WorkspaceLayouts.t A) (bp : Breakpoint) : list A :=
  match bp with
  | bp_lg => WorkspaceLayouts.lg ls
  | bp_md => WorkspaceLayouts.md ls
  | bp_sm => WorkspaceLayouts.sm ls
  end.

Definition set_layout {A} (ls : WorkspaceLayouts.t A) (bp : Breakpoint) (l : list A)
    : WorkspaceLayouts.t A :=
  match bp with
  | bp_lg => WorkspaceLayouts.mk l (WorkspaceLayouts.md ls) (WorkspaceLayouts.sm ls)
  | bp_md => WorkspaceLayouts.mk (WorkspaceLayouts.lg ls) l (WorkspaceLayouts.sm ls)
  | bp_sm => WorkspaceLayouts.mk (WorkspaceLayouts.lg ls) (WorkspaceLayouts.md ls) l
  end.

Module WidgetSize.
Record t : Type := mk { w : Z; h : Z; minW : Z; minH : Z }.
End WidgetSize.

Definition DEFAULT_WIDGET_SIZES (t : WidgetType) : WidgetSize.t :=
  match t with
  | orderbook => WidgetSize.mk 3 5 2 3
  | chart => WidgetSize.mk 5 4 3 3
  | trade_history => WidgetSize.mk 3 4 2 3
  | market_selector => WidgetSize.mk 3 6 2 3
  | quote => WidgetSize.mk 3 4 2 3
  | watchlist => WidgetSize.mk 3 5 2 3
  end.

(** The overlap test of two rectangles, as [hasCollision] writes it. *)
Definition overlaps (item layoutItem : LayoutItem.t) : bool :=
  let horizontalOverlap :=
    nlt (LayoutItem.x item) (nadd (LayoutItem.x layoutItem) (LayoutItem.w layoutItem))
    && ngt (nadd (LayoutItem.x item) (LayoutItem.w item)) (LayoutItem.x layoutItem) in
  let verticalOverlap :=
    nlt (LayoutItem.y item) (nadd (LayoutItem.y layoutItem) (LayoutItem.h layoutItem))
    && ngt (nadd (LayoutItem.y item) (LayoutItem.h item)) (LayoutItem.y layoutItem) in
  horizontalOverlap && verticalOverlap.

(** The layout item that both [addWidget]s build for a new widget. *)
Definition new_layout_item (id : string) (position : Position.t) (size : WidgetSize.t)
    : LayoutItem.t :=
  LayoutItem.mk id (Position.x position) (Position.y position)
    (Fin (WidgetSize.w size)) (Fin (WidgetSize.h size))
    (Some (Fin (WidgetSize.minW size))) (Some (Fin (WidgetSize.minH size)))
    None None None.

(* ===================================================================== *)
(** ** The legacy zustand workspace store *)
(* ===================================================================== *)

Module Zustand.

Record WorkspaceState : Type := mkState {
  widgets : list WidgetInstance.t;
  layouts : WorkspaceLayouts.t LayoutItem.t;
  activeTicker : option string;
  commandPaletteOpen : bool
}.

Definition initial : WorkspaceState :=
  mkState [] WorkspaceLayouts.empty None false.

(** [`${type}-${++widgetCounter}-${Date.now()}`]; the caller keeps the
    incremented counter. *)
Definition generateWidgetId (widgetCounter now : Z) (type : WidgetType) : string * Z :=
  let c := widgetCounter + 1 in
  (String.append (type_name type)
     (String.append "-" (String.append (string_of_Z c)
        (String.append "-" (string_of_Z now)))), c).

Definition generateWidgetTitle (type : WidgetType) (ticker : option string) : string :=
  let label :=
    match type with
    | orderbook => "Order Book"
    | chart => "Chart"
    | trade_history => "Trade History"
    | market_selector => "Markets"
    | quote => "Quote"
    | watchlist => "Watchlist"
    end in
  if truthy ticker
  then String.append label (String.append ": " (default "" ticker))
  else label.

Section Placement.
(** Fuel for the row scan when the bottom edge is [+Infinity]. *)
Variable fuel : nat.

Definition findNextPosition (layouts : list LayoutItem.t) (newWidth : number)
    : option Position.t :=
  if (length layouts =? 0)%nat then Some (Position.mk (Fin 0) (Fin 0))
  else
    let maxY := max_of (map (fun l => nadd (LayoutItem.y l) (LayoutItem.h l)) layouts) in
    let rows :=
      for_upto fuel maxY (fun y =>
        let itemsInRow :=
          List.filter
            (fun l => nle (LayoutItem.y l) (Fin y)
                      && ngt (nadd (LayoutItem.y l) (LayoutItem.h l)) (Fin y))
            layouts in
        let occupiedRanges :=
          map (fun l => (LayoutItem.x l, nadd (LayoutItem.x l) (LayoutItem.w l)))
              itemsInRow in
        for_upto fuel (nsub (Fin 12) newWidth) (fun x =>
          let fits :=
            negb (existsb (fun range =>
                    nlt (Fin x) (snd range) && ngt (nadd (Fin x) newWidth) (fst range))
                  occupiedRanges) in
          if fits then Returned (Position.mk (Fin x) (Fin y)) else Completed)) in
    match rows with
    | Returned p => Some p
    | Completed => Some (Position.mk (Fin 0) maxY)
    | OutOfFuel => None
    end.

(** [addWidget]: the new state, the new counter and the returned id;
    [None] when the placement does not return. *)
Definition addWidget (widgetCounter now : Z) (type : WidgetType)
    (ticker : option string) (config : WidgetConfig.t) (state : WorkspaceState)
    : option (string * Z * WorkspaceState) :=
  let '(id, counter') := generateWidgetId widgetCounter now type in
  let title := generateWidgetTitle type ticker in
  let size := DEFAULT_WIDGET_SIZES type in
  let widget := WidgetInstance.mk id type ticker title config in
  match findNextPosition (WorkspaceLayouts.lg (layouts state)) (Fin (WidgetSize.w size)) with
  | None => None
  | Some position =>
      let layoutItem := new_layout_item id position size in
      Some (id, counter',
            mkState
              (widgets state ++ [widget])
              (WorkspaceLayouts.mk
                 (WorkspaceLayouts.lg (layouts state) ++ [layoutItem])
                 (WorkspaceLayouts.md (layouts state)
                    ++ [LayoutItem.set_w layoutItem (nmin (Fin (WidgetSize.w size)) (Fin 6))])
                 (WorkspaceLayouts.sm (layouts state)
                    ++ [LayoutItem.set_x (LayoutItem.set_w layoutItem (Fin 6)) (Fin 0)]))
              (activeTicker state)
              (commandPaletteOpen state))
  end.
End Placement.

Definition removeWidget (id : string) (state : WorkspaceState) : WorkspaceState :=
  mkState
    (List.filter (fun w => negb (String.eqb (WidgetInstance.id w) id)) (widgets state))
    (WorkspaceLayouts.mk
       (List.filter (fun l => negb (String.eqb (LayoutItem.i l) id))
                    (WorkspaceLayouts.lg (layouts state)))
       (List.filter (fun l => negb (String.eqb (LayoutItem.i l) id))
                    (WorkspaceLayouts.md (layouts state)))
       (List.filter (fun l => negb (String.eqb (LayoutItem.i l) id))
                    (WorkspaceLayouts.sm (layouts state))))
    (activeTicker state)
    (commandPaletteOpen state).

(** [{ ...w.config, ...config }]: the fields the update has win. *)
Definition merge_config (old new : WidgetConfig.t) : WidgetConfig.t :=
  let pick {A} (n o : option A) := match n with Some _ => n | None => o end in
  WidgetConfig.mk
    (pick (WidgetConfig.depth new) (WidgetConfig.depth old))
    (pick (WidgetConfig.timeframe new) (WidgetConfig.timeframe old))
    (pick (WidgetConfig.chartType new) (WidgetConfig.chartType old))
    (pick (WidgetConfig.tickers new) (WidgetConfig.tickers old)).

Definition updateWidgetConfig (id : string) (config : WidgetConfig.t)
    (state : WorkspaceState) : WorkspaceState :=
  mkState
    (map (fun w =>
            if String.eqb (WidgetInstance.id w) id
            then WidgetInstance.mk (WidgetInstance.id w) (WidgetInstance.type w)
                   (WidgetInstance.ticker w) (WidgetInstance.title w)
                   (merge_config (WidgetInstance.config w) config)
            else w)
         (widgets state))
    (layouts state) (activeTicker state) (commandPaletteOpen state).

Definition updateWidgetTicker (id : string) (ticker : string)
    (state : WorkspaceState) : WorkspaceState :=
  mkState
    (map (fun w =>
            if String.eqb (WidgetInstance.id w) id
            then WidgetInstance.mk (WidgetInstance.id w) (WidgetInstance.type w)
                   (Some ticker)
                   (generateWidgetTitle (WidgetInstance.type w) (Some ticker))
                   (WidgetInstance.config w)
            else w)
         (widgets state))
    (layouts state) (activeTicker state) (commandPaletteOpen state).

Definition updateLayouts (ls : WorkspaceLayouts.t LayoutItem.t)
    (state : WorkspaceState) : WorkspaceState :=
  mkState (widgets state) ls (activeTicker state) (commandPaletteOpen state).

Definition setActiveTicker (ticker : option string) (state : WorkspaceState)
    : WorkspaceState :=
  mkState (widgets state) (layouts state) ticker (commandPaletteOpen state).

Definition setCommandPaletteOpen (open : bool) (state : WorkspaceState)
    : WorkspaceState :=
  mkState (widgets state) (layouts state) (activeTicker state) open.

Definition toggleCommandPalette (state : WorkspaceState) : WorkspaceState :=
  mkState (widgets state) (layouts state) (activeTicker state)
    (negb (commandPaletteOpen state)).

Definition resetWorkspace (state : WorkspaceState) : WorkspaceState :=
  mkState [] WorkspaceLayouts.empty None (commandPaletteOpen state).

Inductive Preset : Type :=
  | trading
  | research
  | minimal.

Definition presetWidgets (preset : Preset) : list WidgetType :=
  match preset with
  | trading => [market_selector; orderbook; chart; trade_history]
  | research => [market_selector; quote; chart]
  | minimal => [market_selector; orderbook]
  end.

(** The module's [widgetCounter] together with the store's state. *)
Abbreviation Session := (Z * WorkspaceState)%type.

(** [types.forEach(type => addWidget(type))]: [now k] is what [Date.now()]
    gives in the [k]-th of these registrations. *)
Fixpoint addEach (fuel : nat) (types : list WidgetType) (now : nat -> Z) (k : nat)
    (cs : Session) : option Session :=
  match types with
  | [] => Some cs
  | type :: rest =>
      match addWidget fuel (fst cs) (now k) type None WidgetConfig.empty (snd cs) with
      | Some (_, counter', state') => addEach fuel rest now (S k) (counter', state')
      | None => None
      end
  end.

Definition loadPreset (fuel : nat) (preset : Preset) (now : nat -> Z) (cs : Session)
    : option Session :=
  addEach fuel (presetWidgets preset) now 0 (fst cs, resetWorkspace (snd cs)).

(** The actions of the store, as the application calls them. *)
Inductive Action : Type :=
  | AddWidget (now : Z) (type : WidgetType) (ticker : option string)
      (config : WidgetConfig.t)
  | RemoveWidget (id : string)
  | UpdateWidgetConfig (id : string) (config : WidgetConfig.t)
  | UpdateWidgetTicker (id : string) (ticker : string)
  | UpdateLayouts (ls : WorkspaceLayouts.t LayoutItem.t)
  | SetActiveTicker (ticker : option string)
  | SetCommandPaletteOpen (open : bool)
  | ToggleCommandPalette
  | ResetWorkspace
  | LoadPreset (preset : Preset) (now : nat -> Z).

Definition step (fuel : nat) (cs : Session) (a : Action) : option Session :=
  let '(counter, state) := cs in
  match a with
  | AddWidget now type ticker config =>
      match addWidget fuel counter now type ticker config state with
      | Some (_, counter', state') => Some (counter', state')
      | None => None
      end
  | RemoveWidget id => Some (counter, removeWidget id state)
  | UpdateWidgetConfig id config => Some (counter, updateWidgetConfig id config state)
  | UpdateWidgetTicker id ticker => Some (counter, updateWidgetTicker id ticker state)
  | UpdateLayouts ls => Some (counter, updateLayouts ls state)
  | SetActiveTicker ticker => Some (counter, setActiveTicker ticker state)
  | SetCommandPaletteOpen open => Some (counter, setCommandPaletteOpen open state)
  | ToggleCommandPalette => Some (counter, toggleCommandPalette state)
  | ResetWorkspace => Some (counter, resetWorkspace state)
  | LoadPreset preset now => loadPreset fuel preset now cs
  end.

Fixpoint run (fuel : nat) (cs : Session) (actions : list Action) : option Session :=
  match actions with
  | [] => Some cs
  | a :: rest =>
      match step fuel cs a with
      | Some cs' => run fuel cs' rest
      | None => None
      end
  end.

End Zustand.

(* ===================================================================== *)
(** ** The vanilla workspace store and the GridLayout component *)
(* ===================================================================== *)

(** Layout items live in a heap of objects; the arrays of the store and of
    the component hold references into it. *)
Abbreviation loc := nat.
Abbreviation Heap := (list LayoutItem.t).

(** The objects an array of references holds. *)
Definition items (heap : Heap) (refs : list loc) : list LayoutItem.t :=
  omap (fun p => heap !! p) refs.

(** [layout.find(l => l.i === widgetId)]: the first reference whose object
    has that id, with the object. *)
Fixpoint find_ref (heap : Heap) (refs : list loc) (widgetId : string)
    : option (loc * LayoutItem.t) :=
  match refs with
  | [] => None
  | p :: refs' =>
      match heap !! p with
      | Some l =>
          if String.eqb (LayoutItem.i l) widgetId then Some (p, l)
          else find_ref heap refs' widgetId
      | None => find_ref heap refs' widgetId
      end
  end.

(** [layout.filter(l => l.i !== widgetId)] on an array of references. *)
Definition filter_refs (heap : Heap) (widgetId : string) (refs : list loc) : list loc :=
  List.filter (fun p => match heap !! p with
                        | Some l => negb (String.eqb (LayoutItem.i l) widgetId)
                        | None => true
                        end) refs.

(** *** What [JSON.stringify] distinguishes *)

(** Non-finite numbers print as [null]; absent members are left out. *)
Definition json_number (n : number) : option Z :=
  match n with Fin z => Some z | _ => None end.

Definition json_item (l : LayoutItem.t) :=
  (LayoutItem.i l,
   (json_number (LayoutItem.x l), json_number (LayoutItem.y l)),
   (json_number (LayoutItem.w l), json_number (LayoutItem.h l)),
   (json_number <$> LayoutItem.minW l, json_number <$> LayoutItem.minH l),
   (json_number <$> LayoutItem.maxW l, json_number <$> LayoutItem.maxH l),
   LayoutItem.static l).

Definition json_widget (w : WidgetInstance.t) :=
  (WidgetInstance.id w, WidgetInstance.type w, WidgetInstance.ticker w,
   WidgetInstance.title w,
   (json_number <$> WidgetConfig.depth (WidgetInstance.config w),
    WidgetConfig.timeframe (WidgetInstance.config w),
    WidgetConfig.chartType (WidgetInstance.config w),
    WidgetConfig.tickers (WidgetInstance.config w))).

Definition json_layouts (heap : Heap) (ls : WorkspaceLayouts.t loc) :=
  (json_item <$> items heap (WorkspaceLayouts.lg ls),
   json_item <$> items heap (WorkspaceLayouts.md ls),
   json_item <$> items heap (WorkspaceLayouts.sm ls)).

(** *** Store state *)

Module Store.
Record WorkspaceState : Type := mk {
  widgets : list WidgetInstance.t;
  layouts : WorkspaceLayouts.t loc;
  currentTicker : option string;
  activeWidgetId : option string
}.

Definition initialState : WorkspaceState :=
  mk [] WorkspaceLayouts.empty None None.
End Store.

(** *** Component state *)

Module Placeholder.
(** The inline style of the placeholder element. *)
Record t : Type := mk {
  gridColumnStart : string;
  gridColumnEnd : string;
  gridRowStart : string;
  gridRowEnd : string;
  display : string
}.
Definition set_display (p : t) (d : string) : t :=
  mk (gridColumnStart p) (gridColumnEnd p) (gridRowStart p) (gridRowEnd p) d.
End Placeholder.

Module GridLayout.
Record t : Type := mk {
  widgets : list WidgetInstance.t;
  layouts : WorkspaceLayouts.t loc;
  currentBreakpoint : Breakpoint;
  placeholder : option Placeholder.t;
  draggedWidgetId : option string;
  dragOverWidgetId : option string;
  resizingWidgetId : option string;
  resizeStartPos : option (pixels * pixels);
  resizeStartSize : option (number * number)
}.

Definition initial : t :=
  mk [] WorkspaceLayouts.empty bp_lg None None None None None None.

Definition set_view (g : t) ws ls : t :=
  mk ws ls (currentBreakpoint g) (placeholder g) (draggedWidgetId g)
     (dragOverWidgetId g) (resizingWidgetId g) (resizeStartPos g) (resizeStartSize g).
Definition set_currentBreakpoint (g : t) bp : t :=
  mk (widgets g) (layouts g) bp (placeholder g) (draggedWidgetId g)
     (dragOverWidgetId g) (resizingWidgetId g) (resizeStartPos g) (resizeStartSize g).
Definition set_placeholder (g : t) ph : t :=
  mk (widgets g) (layouts g) (currentBreakpoint g) ph (draggedWidgetId g)
     (dragOverWidgetId g) (resizingWidgetId g) (resizeStartPos g) (resizeStartSize g).
Definition set_dragged (g : t) dragged over : t :=
  mk (widgets g) (layouts g) (currentBreakpoint g) (placeholder g) dragged
     over (resizingWidgetId g) (resizeStartPos g) (resizeStartSize g).
Definition set_resizing (g : t) id : t :=
  mk (widgets g) (layouts g) (currentBreakpoint g) (placeholder g) (draggedWidgetId g)
     (dragOverWidgetId g) id (resizeStartPos g) (resizeStartSize g).
Definition set_resizeStart (g : t) id pos size : t :=
  mk (widgets g) (layouts g) (currentBreakpoint g) (placeholder g) (draggedWidgetId g)
     (dragOverWidgetId g) id pos size.

(** Grid configuration *)
Definition GRID_COLS : Z := 12.
Definition ROW_HEIGHT : Z := 40.
Definition MARGIN : Z := 6.
Definition PADDING : Z := 12.
End GridLayout.

(** The whole program state: the heap, the store and the mounted grid. *)
Record World : Type := mkWorld {
  heap : Heap;
  store : Store.WorkspaceState;
  grid : GridLayout.t
}.

Definition initialWorld : World :=
  mkWorld [] Store.initialState GridLayout.initial.

(** The store subscription of [onMount]: the component takes over the new
    widgets and layouts when their JSON texts differ from its own. *)
Definition onStoreChange (heap : Heap) (newState : Store.WorkspaceState)
    (g : GridLayout.t) : GridLayout.t :=
  let widgetsChanged :=
    negb (bool_decide (json_widget <$> Store.widgets newState
                       = json_widget <$> GridLayout.widgets g)) in
  let layoutsChanged :=
    negb (bool_decide (json_layouts heap (Store.layouts newState)
                       = json_layouts heap (GridLayout.layouts g))) in
  if widgetsChanged || layoutsChanged
  then GridLayout.set_view g (Store.widgets newState) (Store.layouts newState)
  else g.

(** [workspaceStore.setState]: replace the state, then notify the grid. *)
Definition setState (W : World) (newState : Store.WorkspaceState) : World :=
  mkWorld (heap W) newState (onStoreChange (heap W) newState (grid W)).

(** *** Store actions ([workspaceStore.ts]) *)

Definition to_upper (c : ascii) : ascii :=
  let n := nat_of_ascii c in
  if (97 <=? n)%nat && (n <=? 122)%nat then ascii_of_nat (n - 32) else c.

(** [s.split('-')] *)
Fixpoint split_dash (s : string) (word : string) : list string :=
  match s with
  | EmptyString => [word]
  | String c s' =>
      if Ascii.eqb c "-" then word :: split_dash s' EmptyString
      else split_dash s' (String.append word (String c EmptyString))
  end.

(** [word.charAt(0).toUpperCase() + word.slice(1)] *)
Definition capitalize (word : string) : string :=
  match word with
  | EmptyString => EmptyString
  | String c rest => String (to_upper c) rest
  end.

Definition getWidgetTitle (type : WidgetType) (ticker : option string) : string :=
  let baseTitle := String.concat " " (map capitalize (split_dash (type_name type) "")) in
  if truthy ticker
  then String.append baseTitle (String.append " - " (default "" ticker))
  else baseTitle.

Definition findAvailablePosition (layout : list LayoutItem.t) : Position.t :=
  if (length layout =? 0)%nat then Position.mk (Fin 0) (Fin 0)
  else
    let maxY := max_of (map (fun l => nadd (LayoutItem.y l) (LayoutItem.h l)) layout) in
    Position.mk (Fin 0) maxY.

(** [`${type}-${Date.now()}`] *)
Definition new_id (type : WidgetType) (now : Z) : string :=
  String.append (type_name type) (String.append "-" (string_of_Z now)).

Definition addWidget (now : Z) (type : WidgetType) (ticker : option string)
    (config : WidgetConfig.t) (W : World) : World :=
  let currentState := store W in
  let newId := new_id type now in
  let newWidget :=
    WidgetInstance.mk newId type ticker (getWidgetTitle type ticker) config in
  let position :=
    findAvailablePosition
      (items (heap W) (WorkspaceLayouts.lg (Store.layouts currentState))) in
  let size := DEFAULT_WIDGET_SIZES type in
  let newLayoutItem := new_layout_item newId position size in
  (* one object, referenced from the three arrays *)
  let p : loc := length (heap W) in
  setState
    (mkWorld (heap W ++ [newLayoutItem]) (store W) (grid W))
    (Store.mk
       (Store.widgets currentState ++ [newWidget])
       (WorkspaceLayouts.mk
          (WorkspaceLayouts.lg (Store.layouts currentState) ++ [p])
          (WorkspaceLayouts.md (Store.layouts currentState) ++ [p])
          (WorkspaceLayouts.sm (Store.layouts currentState) ++ [p]))
       (Store.currentTicker currentState)
       (Store.activeWidgetId currentState)).

Definition removeWidget (widgetId : string) (W : World) : World :=
  let currentState := store W in
  setState W
    (Store.mk
       (List.filter (fun w => negb (String.eqb (WidgetInstance.id w) widgetId))
                    (Store.widgets currentState))
       (WorkspaceLayouts.mk
          (filter_refs (heap W) widgetId (WorkspaceLayouts.lg (Store.layouts currentState)))
          (filter_refs (heap W) widgetId (WorkspaceLayouts.md (Store.layouts currentState)))
          (filter_refs (heap W) widgetId (WorkspaceLayouts.sm (Store.layouts currentState))))
       (Store.currentTicker currentState)
       (if bool_decide (Store.activeWidgetId currentState = Some widgetId)
        then None
        else Store.activeWidgetId currentState)).

Module WidgetUpdates.
(** [Partial<Omit<WidgetInstance, 'id'>>]: the members that are present. *)
Record t : Type := mk {
  type : option WidgetType;
  ticker : option (option string);
  title : option string;
  config : option WidgetConfig.t
}.
End WidgetUpdates.

(** [{ ...w, ...updates }] *)
Definition apply_updates (w : WidgetInstance.t) (updates : WidgetUpdates.t)
    : WidgetInstance.t :=
  WidgetInstance.mk (WidgetInstance.id w)
    (default (WidgetInstance.type w) (WidgetUpdates.type updates))
    (default (WidgetInstance.ticker w) (WidgetUpdates.ticker updates))
    (default (WidgetInstance.title w) (WidgetUpdates.title updates))
    (default (WidgetInstance.config w) (WidgetUpdates.config updates)).

Definition updateWidget (widgetId : string) (updates : WidgetUpdates.t) (W : World)
    : World :=
  let currentState := store W in
  setState W
    (Store.mk
       (map (fun w => if String.eqb (WidgetInstance.id w) widgetId
                      then apply_updates w updates else w)
            (Store.widgets currentState))
       (Store.layouts currentState)
       (Store.currentTicker currentState)
       (Store.activeWidgetId currentState)).

Definition updateLayout (breakpoint : Breakpoint) (layout : list loc) (W : World) : World :=
  let currentState := store W in
  setState W
    (Store.mk
       (Store.widgets currentState)
       (set_layout (Store.layouts currentState) breakpoint layout)
       (Store.currentTicker currentState)
       (Store.activeWidgetId currentState)).

Definition setCurrentTicker (ticker : option string) (W : World) : World :=
  setState W
    (Store.mk (Store.widgets (store W)) (Store.layouts (store W)) ticker
       (Store.activeWidgetId (store W))).

Definition setActiveWidget (widgetId : option string) (W : World) : World :=
  setState W
    (Store.mk (Store.widgets (store W)) (Store.layouts (store W))
       (Store.currentTicker (store W)) widgetId).

Definition clearWorkspace (W : World) : World :=
  setState W
    (Store.mk [] WorkspaceLayouts.empty (Store.currentTicker (store W)) None).

(** *** The component's handlers ([GridLayout.ts]) *)

Module Geometry.
(** What [getBoundingClientRect] and [getComputedStyle] report for the
    grid container, in pixels. *)
Record t : Type := mk {
  left : Q;
  top : Q;
  width : Q;
  paddingLeft : Q;
  paddingTop : Q;
  paddingRight : Q
}.
End Geometry.

Module PointerEvent.
Record t : Type := mk { clientX : pixels; clientY : pixels }.
End PointerEvent.

Section Handlers.
(** [this.gridContainer] with its current geometry, [None] for [null]. *)
Variable gridContainer : option Geometry.t.

Definition columnWidth (g : Geometry.t) : Q :=
  let availableWidth :=
    (Geometry.width g - Geometry.paddingLeft g - Geometry.paddingRight g)%Q in
  let totalMarginWidth := GridLayout.MARGIN * (GridLayout.GRID_COLS - 1) in
  ((availableWidth - inject_Z totalMarginWidth) / inject_Z GridLayout.GRID_COLS)%Q.

Definition calculateGridPosition (clientX clientY : pixels) : Position.t :=
  match gridContainer with
  | None => Position.mk (Fin 0) (Fin 0)
  | Some g =>
      let relativeX :=
        psub (psub clientX (Fin (Geometry.left g))) (Fin (Geometry.paddingLeft g)) in
      let relativeY :=
        psub (psub clientY (Fin (Geometry.top g))) (Fin (Geometry.paddingTop g)) in
      let x :=
        nmax (Fin 0)
          (nmin (Fin (GridLayout.GRID_COLS - 1))
             (floor (pdiv relativeX (columnWidth g + inject_Z GridLayout.MARGIN)%Q))) in
      let y :=
        nmax (Fin 0)
          (floor (pdiv relativeY
                    (inject_Z (GridLayout.ROW_HEIGHT + GridLayout.MARGIN)))) in
      Position.mk x y
  end.

Definition hasCollision (heap : Heap) (g : GridLayout.t) (item : LayoutItem.t)
    (excludeId : option string) : bool :=
  let currentLayout :=
    items heap (get_layout (GridLayout.layouts g) (GridLayout.currentBreakpoint g)) in
  existsb (fun layoutItem =>
             if bool_decide (Some (LayoutItem.i layoutItem) = excludeId) then false
             else overlaps item layoutItem)
          currentLayout.

(** The rectangle [moveWidgetToPosition] tests and commits: the item moved
    to the requested cell, kept inside the columns. *)
Definition move_candidate (widgetLayout : LayoutItem.t) (x y : number) : LayoutItem.t :=
  let maxX := nmax (Fin 0) (nsub (Fin GridLayout.GRID_COLS) (LayoutItem.w widgetLayout)) in
  let newX := nmax (Fin 0) (nmin maxX x) in
  let newY := nmax (Fin 0) y in
  LayoutItem.set_xy widgetLayout newX newY.

Definition moveWidgetToPosition (widgetId : string) (x y : number) (W : World) : World :=
  let currentLayout :=
    get_layout (GridLayout.layouts (grid W)) (GridLayout.currentBreakpoint (grid W)) in
  match find_ref (heap W) currentLayout widgetId with
  | None => W
  | Some (p, widgetLayout) =>
      let tempItem := move_candidate widgetLayout x y in
      if hasCollision (heap W) (grid W) tempItem (Some widgetId) then W
      else
        (* widgetLayout.x = newX; widgetLayout.y = newY *)
        let heap' :=
          <[p := LayoutItem.set_xy widgetLayout (LayoutItem.x tempItem) (LayoutItem.y tempItem)]>
            (heap W) in
        (* [updateLayout(this.currentBreakpoint, currentLayout)]: the module
           imports [workspaceStore] and [moveWidget] only and binds no
           [updateLayout], so the call throws a ReferenceError; the method
           ends here, with the object written and the store not reached. *)
        mkWorld heap' (store W) (grid W)
  end.

(** The rectangle [resizeWidget] tests and commits. *)
Definition resize_candidate (widgetLayout : LayoutItem.t) (w h : number) : LayoutItem.t :=
  let maxW := nmax (Fin 2) (nsub (Fin GridLayout.GRID_COLS) (LayoutItem.x widgetLayout)) in
  let newW := nmax (Fin 2) (nmin maxW w) in
  let newH := nmax (Fin 2) h in
  LayoutItem.set_wh widgetLayout newW newH.

Definition resizeWidget (widgetId : string) (w h : number) (W : World) : World :=
  let currentLayout :=
    get_layout (GridLayout.layouts (grid W)) (GridLayout.currentBreakpoint (grid W)) in
  match find_ref (heap W) currentLayout widgetId with
  | None => W
  | Some (p, widgetLayout) =>
      let tempItem := resize_candidate widgetLayout w h in
      if hasCollision (heap W) (grid W) tempItem (Some widgetId) then W
      else
        (* widgetLayout.w = newW; widgetLayout.h = newH *)
        let heap' :=
          <[p := LayoutItem.set_wh widgetLayout (LayoutItem.w tempItem) (LayoutItem.h tempItem)]>
            (heap W) in
        (* [updateLayout(this.currentBreakpoint, currentLayout)] throws a
           ReferenceError here as it does in [moveWidgetToPosition]. *)
        mkWorld heap' (store W) (grid W)
  end.

(** [showPlaceholder] creates the element on first use and writes the four
    grid properties of [applyGridLayout], then shows it. *)
Definition showPlaceholder (x y w h : number) (g : GridLayout.t) : GridLayout.t :=
  match gridContainer with
  | None => g
  | Some _ =>
      GridLayout.set_placeholder g
        (Some (Placeholder.mk
                 (to_string (nadd x (Fin 1)))
                 (String.append "span " (to_string w))
                 (to_string (nadd y (Fin 1)))
                 (String.append "span " (to_string h))
                 "block"))
  end.

Definition hidePlaceholder (g : GridLayout.t) : GridLayout.t :=
  match GridLayout.placeholder g with
  | Some ph => GridLayout.set_placeholder g (Some (Placeholder.set_display ph "none"))
  | None => g
  end.

(** [dataset] is the [data-widget-id] of the dragged container. *)
Definition handleDragStart (dataset : option string) (W : World) : World :=
  let dragged := if truthy dataset then dataset else None in
  mkWorld (heap W) (store W)
    (GridLayout.set_dragged (grid W) dragged (GridLayout.dragOverWidgetId (grid W))).

Definition handleDragEnd (W : World) : World :=
  mkWorld (heap W) (store W) (GridLayout.set_dragged (grid W) None None).

Definition handleDragOver (e : PointerEvent.t) (W : World) : World :=
  if negb (truthy (GridLayout.draggedWidgetId (grid W))) then W
  else
    let gridPos :=
      calculateGridPosition (PointerEvent.clientX e) (PointerEvent.clientY e) in
    let currentLayout :=
      get_layout (GridLayout.layouts (grid W)) (GridLayout.currentBreakpoint (grid W)) in
    match find_ref (heap W) currentLayout
            (default "" (GridLayout.draggedWidgetId (grid W))) with
    | Some (_, draggedLayout) =>
        mkWorld (heap W) (store W)
          (showPlaceholder (Position.x gridPos) (Position.y gridPos)
             (LayoutItem.w draggedLayout) (LayoutItem.h draggedLayout) (grid W))
    | None => W
    end.

Definition handleDrop (e : PointerEvent.t) (W : World) : World :=
  let W := mkWorld (heap W) (store W) (hidePlaceholder (grid W)) in
  if negb (truthy (GridLayout.draggedWidgetId (grid W))) then W
  else
    let gridPos :=
      calculateGridPosition (PointerEvent.clientX e) (PointerEvent.clientY e) in
    moveWidgetToPosition (default "" (GridLayout.draggedWidgetId (grid W)))
      (Position.x gridPos) (Position.y gridPos) W.

Definition handleResizeStart (e : PointerEvent.t) (widgetId : string) (W : World) : World :=
  let currentLayout :=
    get_layout (GridLayout.layouts (grid W)) (GridLayout.currentBreakpoint (grid W)) in
  let size :=
    match find_ref (heap W) currentLayout widgetId with
    | Some (_, widgetLayout) =>
        Some (LayoutItem.w widgetLayout, LayoutItem.h widgetLayout)
    | None => GridLayout.resizeStartSize (grid W)
    end in
  mkWorld (heap W) (store W)
    (GridLayout.set_resizeStart (grid W) (Some widgetId)
       (Some (PointerEvent.clientX e, PointerEvent.clientY e)) size).

(** Reading [this.resizeStartSize.w] throws when no start size was ever
    recorded; the handler then ends without having changed anything. *)
Definition handleResizeMove (e : PointerEvent.t) (W : World) : World :=
  match gridContainer with
  | None => W
  | Some g =>
      if negb (truthy (GridLayout.resizingWidgetId (grid W))) then W
      else
        match GridLayout.resizeStartPos (grid W), GridLayout.resizeStartSize (grid W) with
        | Some (startX, startY), Some (startW, startH) =>
            let deltaX := psub (PointerEvent.clientX e) startX in
            let deltaY := psub (PointerEvent.clientY e) startY in
            let deltaW :=
              round (pdiv deltaX (columnWidth g + inject_Z GridLayout.MARGIN)%Q) in
            let deltaH :=
              round (pdiv deltaY (inject_Z (GridLayout.ROW_HEIGHT + GridLayout.MARGIN))) in
            let newW :=
              nmax (Fin 2) (nmin (Fin GridLayout.GRID_COLS) (nadd startW deltaW)) in
            let newH := nmax (Fin 2) (nadd startH deltaH) in
            let currentLayout :=
              get_layout (GridLayout.layouts (grid W))
                (GridLayout.currentBreakpoint (grid W)) in
            match find_ref (heap W) currentLayout
                    (default "" (GridLayout.resizingWidgetId (grid W))) with
            | Some (_, widgetLayout) =>
                mkWorld (heap W) (store W)
                  (showPlaceholder (LayoutItem.x widgetLayout) (LayoutItem.y widgetLayout)
                     newW newH (grid W))
            | None => W
            end
        | _, _ => W
        end
  end.

(** [s || '0'] *)
Definition or_zero (s : string) : string :=
  if String.eqb s "" then "0" else s.

Definition handleResizeEnd (W : World) : World :=
  if negb (truthy (GridLayout.resizingWidgetId (grid W))) then W
  else
    let resizingWidgetId := default "" (GridLayout.resizingWidgetId (grid W)) in
    let W := mkWorld (heap W) (store W) (hidePlaceholder (grid W)) in
    (* Get the final size from placeholder if it was shown *)
    let W :=
      match GridLayout.placeholder (grid W) with
      | Some ph =>
          if negb (String.eqb (Placeholder.display ph) "none") then
            let w := parseInt (or_zero (replace "span " "" (Placeholder.gridColumnEnd ph))) in
            let h := parseInt (or_zero (replace "span " "" (Placeholder.gridRowEnd ph))) in
            if ngt w (Fin 0) && ngt h (Fin 0)
            then resizeWidget resizingWidgetId w h W
            else W
          else W
      | None => W
      end in
    mkWorld (heap W) (store W) (GridLayout.set_resizing (grid W) None).

(** The window [resize] listener. *)
Definition updateBreakpoint (innerWidth : Z) (W : World) : World :=
  let newBreakpoint :=
    if 1024 <=? innerWidth then bp_lg
    else if 768 <=? innerWidth then bp_md
    else bp_sm in
  if bool_decide (newBreakpoint <> GridLayout.currentBreakpoint (grid W))
  then mkWorld (heap W) (store W) (GridLayout.set_currentBreakpoint (grid W) newBreakpoint)
  else W.

End Handlers.

(* ===================================================================== *)
(** ** The market data store ([marketDataStore]) *)
(* ===================================================================== *)

Module Obj.
(** A plain object used as a dictionary, [Record<string, V>]: its own
    properties, in the order in which they were first written.  (A key
    that is a canonical array index is enumerated before the others by the
    language; tickers and categories are not of that form.) *)
Abbreviation t V := (list (string * V)).

(** The names every plain object inherits from [Object.prototype]: a read
    of one of them that is not an own property gives a function, or the
    prototype itself. *)
Definition prototype : list string :=
  ["constructor"; "hasOwnProperty"; "isPrototypeOf"; "propertyIsEnumerable";
   "toLocaleString"; "toString"; "valueOf"; "__proto__";
   "__defineGetter__"; "__defineSetter__"; "__lookupGetter__"; "__lookupSetter__"].

Definition inherited (k : string) : bool := existsb (String.eqb k) prototype.

(** The own property [o[k]]. *)
Fixpoint get {V} (k : string) (o : t V) : option V :=
  match o with
  | [] => None
  | (k', v) :: o' => if String.eqb k' k then Some v else get k o'
  end.

(** [{ ...o, [k]: v }]: an own property keeps its place, a new one goes
    last. *)
Fixpoint put {V} (k : string) (v : V) (o : t V) : t V :=
  match o with
  | [] => [(k, v)]
  | (k', v') :: o' => if String.eqb k' k then (k, v) :: o' else (k', v') :: put k v o'
  end.

(** [{ ...a, ...b }] *)
Definition spread {V} (a b : t V) : t V :=
  fold_left (fun o kv => put (fst kv) (snd kv) o) b a.

(** [Object.fromEntries(entries)] *)
Definition fromEntries {V} (entries : list (string * V)) : t V := spread [] entries.

(** [Object.values(o)] *)
Definition values {V} (o : t V) : list V := map snd o.

Definition keys {V} (o : t V) : list string := map fst o.
End Obj.

(** [new Set(xs)]: the elements in the order of their first occurrence. *)
Definition new_Set (xs : list string) : list string :=
  fold_left (fun acc x => if existsb (String.eqb x) acc then acc else acc ++ [x]) xs [].

Module Market.
Inductive Status : Type := open | closed | settled.
Inductive Side : Type := yes | no.
Record t : Type := mk {
  ticker : string;
  title : string;
  subtitle : option string;
  status : Status;
  yes_bid : option pixels;
  yes_ask : option pixels;
  no_bid : option pixels;
  no_ask : option pixels;
  last_price : option pixels;
  previous_price : option pixels;
  previous_yes_bid : option pixels;
  previous_yes_ask : option pixels;
  volume : pixels;
  volume_24h : pixels;
  open_interest : pixels;
  close_time : option string;
  expiration_time : option string;
  result : option (option Side);
  series_ticker : option string;
  event_ticker : option string;
  category : option string
}.
End Market.

Module Fill.
Inductive Action : Type := buy | sell.
Record t : Type := mk {
  ticker : string;
  trade_id : string;
  price : pixels;
  count : pixels;
  side : Market.Side;
  action : Action;
  timestamp : string;
  is_taker : bool
}.
End Fill.

Module MarketData.

(** The part of the state that the market, fill and subscription actions
    read and write, and the connection and loading flags. *)
Record MarketDataState : Type := mkState {
  markets : Obj.t Market.t;
  fills : Obj.t (list Fill.t);
  wsConnected : bool;
  apiConnected : bool;
  environment : string;
  subscriptions : list string;
  loadingMarkets : bool;
  loadingEvents : bool
}.

Definition initial : MarketDataState :=
  mkState [] [] false false "unknown" (new_Set []) false false.

Definition set_markets (state : MarketDataState) ms : MarketDataState :=
  mkState ms (fills state) (wsConnected state) (apiConnected state) (environment state)
    (subscriptions state) (loadingMarkets state) (loadingEvents state).

Definition set_fills (state : MarketDataState) fs : MarketDataState :=
  mkState (markets state) fs (wsConnected state) (apiConnected state) (environment state)
    (subscriptions state) (loadingMarkets state) (loadingEvents state).

Definition set_subscriptions (state : MarketDataState) subs : MarketDataState :=
  mkState (markets state) (fills state) (wsConnected state) (apiConnected state)
    (environment state) subs (loadingMarkets state) (loadingEvents state).

Definition setMarket (ticker : string) (market : Market.t) (state : MarketDataState)
    : MarketDataState :=
  set_markets state (Obj.put ticker market (markets state)).

Definition setMarkets (ms : list Market.t) (state : MarketDataState) : MarketDataState :=
  set_markets state
    (Obj.spread (markets state)
       (Obj.fromEntries (map (fun m => (Market.ticker m, m)) ms))).

(** [[fill, ...(state.fills[fill.ticker] || [])].slice(0, 100)]; spreading
    what a ticker named like a property of [Object.prototype] reads throws,
    and the state stays as it was: [None]. *)
Definition addFill (fill : Fill.t) (state : MarketDataState) : option MarketDataState :=
  let ticker := Fill.ticker fill in
  match Obj.get ticker (fills state) with
  | Some old =>
      Some (set_fills state (Obj.put ticker (firstn 100 (fill :: old)) (fills state)))
  | None =>
      if Obj.inherited ticker then None
      else Some (set_fills state (Obj.put ticker (firstn 100 [fill]) (fills state)))
  end.

Definition setFills (ticker : string) (fs : list Fill.t) (state : MarketDataState)
    : MarketDataState :=
  set_fills state (Obj.put ticker fs (fills state)).

Definition subscribe (ticker : string) (state : MarketDataState) : MarketDataState :=
  set_subscriptions state (new_Set (subscriptions state ++ [ticker])).

(** [const subs = new Set(state.subscriptions); subs.delete(ticker)] *)
Definition unsubscribe (ticker : string) (state : MarketDataState) : MarketDataState :=
  let subs := new_Set (subscriptions state) in
  set_subscriptions state (List.filter (fun t => negb (String.eqb t ticker)) subs).

(** [market.category || 'Other'] *)
Definition category_of (market : Market.t) : string :=
  if truthy (Market.category market) then default "" (Market.category market)
  else "Other".

(** The [forEach] of [getMarketsByCategory] over the markets that are left;
    [push] on what an inherited name reads throws: [None]. *)
Fixpoint group (ms : list Market.t) (grouped : Obj.t (list Market.t))
    : option (Obj.t (list Market.t)) :=
  match ms with
  | [] => Some grouped
  | market :: rest =>
      let category := category_of market in
      match Obj.get category grouped with
      | Some members => group rest (Obj.put category (members ++ [market]) grouped)
      | None =>
          if Obj.inherited category then None
          else group rest (Obj.put category [market] grouped)
      end
  end.

Definition getMarketsByCategory (state : MarketDataState)
    : option (Obj.t (list Market.t)) :=
  group (Obj.values (markets state)) [].

(** The fills of a feed, added one by one; a throw ends the feed. *)
Fixpoint addFills (feed : list Fill.t) (state : MarketDataState)
    : option MarketDataState :=
  match feed with
  | [] => Some state
  | fill :: rest =>
      match addFill fill state with
      | Some state' => addFills rest state'
      | None => None
      end
  end.

End MarketData.

(* ===================================================================== *)
(** ** Vocabulary of the properties *)
(* ===================================================================== *)

(** *** Layouts *)

(** A rectangle all of whose coordinates are integers. *)
Definition int_item (l : LayoutItem.t) : bool :=
  is_finite (LayoutItem.x l) && is_finite (LayoutItem.y l)
  && is_finite (LayoutItem.w l) && is_finite (LayoutItem.h l).

(** A rectangle with the given id, position and size. *)
Definition placed (id : string) (pos : Position.t) (w h : number) : LayoutItem.t :=
  LayoutItem.mk id (Position.x pos) (Position.y pos) w h None None None None None.

(** No two entries of a layout, at different places of the array, overlap.
    [overlaps] is the test of [hasCollision]; on integer rectangles it is
    the overlap of the intervals [[x, x+w)] and of the intervals
    [[y, y+h)] (lemma [overlaps_intervals]). *)
Definition no_overlap (layout : list LayoutItem.t) : Prop :=
  forall (m n : nat) (a b : LayoutItem.t),
    m <> n -> layout !! m = Some a -> layout !! n = Some b -> overlaps a b = false.

Fixpoint no_overlap_b (layout : list LayoutItem.t) : bool :=
  match layout with
  | [] => true
  | a :: rest => forallb (fun b => negb (overlaps a b)) rest && no_overlap_b rest
  end.

Definition other_widget (widgetId : string) (w : WidgetInstance.t) : bool :=
  negb (String.eqb (WidgetInstance.id w) widgetId).

Definition other_item (widgetId : string) (l : LayoutItem.t) : bool :=
  negb (String.eqb (LayoutItem.i l) widgetId).

(** The layout items of a breakpoint, as the store holds them. *)
Definition layout_of (W : World) (bp : Breakpoint) : list LayoutItem.t :=
  items (heap W) (get_layout (Store.layouts (store W)) bp).

(** A store whose arrays only hold references to allocated objects, as
    every JavaScript state does. *)
Definition refs_valid (W : World) : bool :=
  forallb (fun bp =>
             forallb (fun p => (p <? length (heap W))%nat)
                     (get_layout (Store.layouts (store W)) bp))
          [bp_lg; bp_md; bp_sm].

(** No widget and no layout entry of the store has the id. *)
Definition fresh_id (id : string) (W : World) : bool :=
  forallb (other_widget id) (Store.widgets (store W))
  && forallb (fun bp => forallb (other_item id) (layout_of W bp)) [bp_lg; bp_md; bp_sm].

Definition zustand_fresh_id (id : string) (st : Zustand.WorkspaceState) : bool :=
  forallb (other_widget id) (Zustand.widgets st)
  && forallb (fun bp => forallb (other_item id) (get_layout (Zustand.layouts st) bp))
             [bp_lg; bp_md; bp_sm].

(** What every committed rectangle satisfies.  The least width and height
    are the constant 2 of [resizeWidget], not the item's [minW] and [minH]. *)
Definition in_bounds (l : LayoutItem.t) : bool :=
  match LayoutItem.x l, LayoutItem.y l, LayoutItem.w l, LayoutItem.h l with
  | Fin x, Fin y, Fin w, Fin h =>
      (0 <=? x) && (0 <=? y) && (x + w <=? GridLayout.GRID_COLS) && (2 <=? w) && (2 <=? h)
  | _, _, _, _ => false
  end.

Definition heap_in_bounds (W : World) : Prop :=
  forall p l, heap W !! p = Some l -> in_bounds l = true.

(** *** Gestures *)

(** The reference and the object of the widget being dragged, in the
    component's layout of the current breakpoint. *)
Definition dragged_item (W : World) : option (loc * LayoutItem.t) :=
  if truthy (GridLayout.draggedWidgetId (grid W)) then
    find_ref (heap W)
      (get_layout (GridLayout.layouts (grid W)) (GridLayout.currentBreakpoint (grid W)))
      (default "" (GridLayout.draggedWidgetId (grid W)))
  else None.

(** The items of the current breakpoint, as the component sees them. *)
Definition active_layout (W : World) : list LayoutItem.t :=
  items (heap W)
    (get_layout (GridLayout.layouts (grid W)) (GridLayout.currentBreakpoint (grid W))).

(** The rectangle a drop tests: the dragged item at the cell under the
    pointer, kept inside the columns. *)
Definition drop_candidate (gridContainer : option Geometry.t) (e : PointerEvent.t)
    (widgetLayout : LayoutItem.t) : LayoutItem.t :=
  let gridPos :=
    calculateGridPosition gridContainer (PointerEvent.clientX e) (PointerEvent.clientY e) in
  move_candidate widgetLayout (Position.x gridPos) (Position.y gridPos).

(** *** Runs of the workspace *)

(** What can happen to a mounted workspace: the store's actions, the two
    committing methods of the grid, and the events the grid listens to.
    The two methods are private: the program reaches
    [moveWidgetToPosition] through a drop and [resizeWidget] through
    nothing (see [handleResizeEnd]); as actions they stand for a commit at
    whatever cell or size is handed to them.  The store's [updateLayout]
    is called by nothing that runs and is no action. *)
Inductive Action : Type :=
  | AddWidget (now : Z) (type : WidgetType) (ticker : option string)
      (config : WidgetConfig.t)
  | RemoveWidget (widgetId : string)
  | UpdateWidget (widgetId : string) (updates : WidgetUpdates.t)
  | SetCurrentTicker (ticker : option string)
  | SetActiveWidget (widgetId : option string)
  | ClearWorkspace
  | MoveWidgetToPosition (widgetId : string) (x y : number)
  | ResizeWidget (widgetId : string) (w h : number)
  | WindowResize (innerWidth : Z)
  | DragStart (dataset : option string)
  | DragOver (gridContainer : option Geometry.t) (e : PointerEvent.t)
  | Drop (gridContainer : option Geometry.t) (e : PointerEvent.t)
  | DragEnd
  | ResizeStart (e : PointerEvent.t) (widgetId : string)
  | ResizeMove (gridContainer : option Geometry.t) (e : PointerEvent.t)
  | ResizeEnd.

Definition step (W : World) (a : Action) : World :=
  match a with
  | AddWidget now type ticker config => addWidget now type ticker config W
  | RemoveWidget widgetId => removeWidget widgetId W
  | UpdateWidget widgetId updates => updateWidget widgetId updates W
  | SetCurrentTicker ticker => setCurrentTicker ticker W
  | SetActiveWidget widgetId => setActiveWidget widgetId W
  | ClearWorkspace => clearWorkspace W
  | MoveWidgetToPosition widgetId x y => moveWidgetToPosition widgetId x y W
  | ResizeWidget widgetId w h => resizeWidget widgetId w h W
  | WindowResize innerWidth => updateBreakpoint innerWidth W
  | DragStart dataset => handleDragStart dataset W
  | DragOver gridContainer e => handleDragOver gridContainer e W
  | Drop gridContainer e => handleDrop gridContainer e W
  | DragEnd => handleDragEnd W
  | ResizeStart e widgetId => handleResizeStart e widgetId W
  | ResizeMove gridContainer e => handleResizeMove gridContainer e W
  | ResizeEnd => handleResizeEnd W
  end.

Definition run (W : World) (actions : list Action) : World :=
  fold_left step actions W.

(** Every registration of the run assigns an id that no widget and no
    layout entry has at that moment. *)
Fixpoint fresh_ids (W : World) (actions : list Action) : bool :=
  match actions with
  | [] => true
  | a :: rest =>
      match a with
      | AddWidget now type _ _ => fresh_id (new_id type now) W
      | _ => true
      end && fresh_ids (step W a) rest
  end.

(** The container is at least as wide as its padding. *)
Definition sane_geometry (gridContainer : option Geometry.t) : bool :=
  match gridContainer with
  | Some g =>
      Qle_bool 0 (Geometry.width g - Geometry.paddingLeft g - Geometry.paddingRight g)%Q
  | None => true
  end.

(** The numbers an action carries are finite. *)
Definition finite_action (a : Action) : bool :=
  match a with
  | MoveWidgetToPosition _ x y => is_finite x && is_finite y
  | ResizeWidget _ w h => is_finite w && is_finite h
  | Drop gridContainer e =>
      is_finite (PointerEvent.clientX e) && is_finite (PointerEvent.clientY e)
      && sane_geometry gridContainer
  | _ => true
  end.

(** The references of the large breakpoint's array. *)
Definition refs (W : World) : list loc := WorkspaceLayouts.lg (Store.layouts (store W)).

(** What every run with fresh ids keeps true: the grid's copy of the
    layouts is the store's; the three breakpoint arrays hold the same
    references, which [addWidget] put there and which every later filter
    or copy kept together; the references are allocated and distinct; and
    the objects they refer to have distinct ids and do not overlap. *)
Record layout_inv (W : World) : Prop := {
  inv_sync : GridLayout.layouts (grid W) = Store.layouts (store W);
  inv_md : WorkspaceLayouts.md (Store.layouts (store W)) = refs W;
  inv_sm : WorkspaceLayouts.sm (Store.layouts (store W)) = refs W;
  inv_valid : forall p, In p (refs W) -> (p < length (heap W))%nat;
  inv_nodup : NoDup (refs W);
  inv_ids : forall p q a b,
      In p (refs W) -> In q (refs W) -> p <> q ->
      heap W !! p = Some a -> heap W !! q = Some b ->
      LayoutItem.i a <> LayoutItem.i b;
  inv_free : forall p q a b,
      In p (refs W) -> In q (refs W) -> p <> q ->
      heap W !! p = Some a -> heap W !! q = Some b ->
      overlaps a b = false
}.

(** *** Scenarios *)

(** Scenario A: one item [{id:"A", x:0, y:0, w:3, h:5}]. *)
Definition scenarioA : list LayoutItem.t :=
  [LayoutItem.mk "A" (Fin 0) (Fin 0) (Fin 3) (Fin 5) None None None None None].

(** A workspace of the zustand store: four order books fill rows 0 to 4, a
    fifth goes below the first, and the first is then removed. *)
Definition gap_above_state : option Zustand.WorkspaceState :=
  let add now type (cs : option (Z * Zustand.WorkspaceState)) :=
    '(counter, st) ← cs;
    '(_, counter', st') ← Zustand.addWidget 0 counter now type None WidgetConfig.empty st;
    Some (counter', st') in
  let cs := add 1 orderbook (Some (0, Zustand.initial)) in
  let cs := add 2 orderbook cs in
  let cs := add 3 orderbook cs in
  let cs := add 4 orderbook cs in
  let cs := add 5 orderbook cs in
  Zustand.removeWidget "orderbook-1-1" <$> (snd <$> cs).

Definition gap_above_layout : list LayoutItem.t :=
  default [] (WorkspaceLayouts.lg <$> (Zustand.layouts <$> gap_above_state)).

(** A 1200 pixel wide container with 12 pixels of padding: a column and
    its gutter take 98.5 pixels, a row and its gutter 46. *)
Definition wide_container : Geometry.t := Geometry.mk 0 0 1200 12 12 12.

(** One order book, registered in the empty workspace. *)
Definition one_orderbook : World :=
  addWidget 1000 orderbook None WidgetConfig.empty initialWorld.


(** An order book and a quote are registered; at the medium breakpoint the
    quote is dragged beside the order book; resizing the order book to 5
    columns and moving it to column 2 are then refused, and moving it below
    the quote is committed. *)
Definition two_widget_run : list Action :=
  [AddWidget 1000 orderbook None WidgetConfig.empty;
   AddWidget 2000 quote None WidgetConfig.empty;
   WindowResize 800;
   MoveWidgetToPosition "quote-2000" (Fin 3) (Fin 0);
   ResizeWidget "orderbook-1000" (Fin 5) (Fin 5);
   MoveWidgetToPosition "orderbook-1000" (Fin 2) (Fin 0);
   MoveWidgetToPosition "orderbook-1000" (Fin 0) (Fin 6)].

(** Two quotes are registered in the same millisecond and share the id
    [quote-5000]; the second lies below the first.  The first is then
    dragged and dropped with the pointer over the cell (0, 4). *)
Definition same_millisecond_run : list Action :=
  [AddWidget 5000 quote None WidgetConfig.empty;
   AddWidget 5000 quote None WidgetConfig.empty;
   DragStart (Some "quote-5000");
   DragOver (Some wide_container) (PointerEvent.mk (Fin 20%Q) (Fin 201%Q));
   Drop (Some wide_container) (PointerEvent.mk (Fin 20%Q) (Fin 201%Q));
   DragEnd].

(** *** Shape of the store *)

(** What every run keeps true, whatever the ids: the grid's copy of the
    layouts is the store's, the three breakpoint arrays hold the same
    allocated references, and the layout entries carry the ids of the
    widgets, in the order of the widget list. *)
Record shape_inv (W : World) : Prop := {
  sh_sync : GridLayout.layouts (grid W) = Store.layouts (store W);
  sh_md : WorkspaceLayouts.md (Store.layouts (store W)) = refs W;
  sh_sm : WorkspaceLayouts.sm (Store.layouts (store W)) = refs W;
  sh_valid : forall p, In p (refs W) -> (p < length (heap W))%nat;
  sh_ids : map WidgetInstance.id (Store.widgets (store W))
           = map LayoutItem.i (items (heap W) (refs W))
}.

(** The reference and the object the grid finds for an id in its layout of
    the current breakpoint. *)
Definition current_item (W : World) (widgetId : string) : option (loc * LayoutItem.t) :=
  find_ref (heap W)
    (get_layout (GridLayout.layouts (grid W)) (GridLayout.currentBreakpoint (grid W)))
    widgetId.

(** *** What the store subscription sees *)

(** The two comparisons of the subscription of [onMount], between the new
    state of the store and the component's own fields. *)
Definition widgetsChanged (newState : Store.WorkspaceState) (g : GridLayout.t) : bool :=
  negb (bool_decide (json_widget <$> Store.widgets newState
                     = json_widget <$> GridLayout.widgets g)).

Definition layoutsChanged (heap : Heap) (newState : Store.WorkspaceState)
    (g : GridLayout.t) : bool :=
  negb (bool_decide (json_layouts heap (Store.layouts newState)
                     = json_layouts heap (GridLayout.layouts g))).

(** Whether the notification that ends an action makes the component take
    the new state over and render: the component's fields are those it had
    before the action, the objects those the action left. *)
Definition renders (W W' : World) : bool :=
  widgetsChanged (store W') (grid W) || layoutsChanged (heap W') (store W') (grid W).

(** The component's widgets print as the store's. *)
Definition widgets_synced (W : World) : Prop :=
  json_widget <$> GridLayout.widgets (grid W) = json_widget <$> Store.widgets (store W).

(** *** The zustand placement *)

(** The cell [(x, y)] is free for a new item of the given width: a
    rectangle of that width and of height 1 put there overlaps no item. *)
Definition row_free (layouts : list LayoutItem.t) (newWidth x y : Z) : bool :=
  forallb (fun l => negb (overlaps (placed "" (Position.mk (Fin x) (Fin y))
                                      (Fin newWidth) (Fin 1)) l))
          layouts.

(** [(x', y')] comes before [(x, y)] in the scan: rows top down, each row
    left to right. *)
Definition scanned_before (x' y' x y : Z) : Prop :=
  y' < y \/ (y' = y /\ x' < x).

(** The lowest bottom edge, [Math.max(...layouts.map(l => l.y + l.h))]. *)
Definition bottom_edge (layouts : list LayoutItem.t) : number :=
  max_of (map (fun l => nadd (LayoutItem.y l) (LayoutItem.h l)) layouts).

(** *** Sessions of the zustand store *)

(** The id was made by [generateWidgetId] at a counter value below
    [counter]. *)
Definition made_before (counter : Z) (id : string) : Prop :=
  exists c now type,
    0 <= c < counter /\ id = fst (Zustand.generateWidgetId c now type).

(** What every session keeps true of its widgets: the counter has only
    grown, every title is the one [generateWidgetTitle] gives for the
    widget's type and ticker, every id was made at an earlier counter
    value, and no two widgets share an id. *)
Record session_inv (cs : Zustand.Session) : Prop := {
  zs_counter : 0 <= fst cs;
  zs_titles :
    Forall (fun w => WidgetInstance.title w
                     = Zustand.generateWidgetTitle (WidgetInstance.type w)
                         (WidgetInstance.ticker w))
           (Zustand.widgets (snd cs));
  zs_made :
    Forall (fun w => made_before (fst cs) (WidgetInstance.id w))
           (Zustand.widgets (snd cs));
  zs_nodup : NoDup (map WidgetInstance.id (Zustand.widgets (snd cs)))
}.

(** The entry of the medium and of the small layout that [addWidget] makes
    from the entry of the large one. *)
Definition md_item (l : LayoutItem.t) : LayoutItem.t :=
  LayoutItem.set_w l (nmin (LayoutItem.w l) (Fin 6)).

Definition sm_item (l : LayoutItem.t) : LayoutItem.t :=
  LayoutItem.set_x (LayoutItem.set_w l (Fin 6)) (Fin 0).

(** The layouts of a session in which the grid library has handed no
    layout back: the large layout lists the widgets in order, as integer
    rectangles, and the other two are made from it entry by entry. *)
Record derived_layouts (st : Zustand.WorkspaceState) : Prop := {
  dl_ids :
    map LayoutItem.i (WorkspaceLayouts.lg (Zustand.layouts st))
    = map WidgetInstance.id (Zustand.widgets st);
  dl_int : forallb int_item (WorkspaceLayouts.lg (Zustand.layouts st)) = true;
  dl_md :
    WorkspaceLayouts.md (Zustand.layouts st)
    = map md_item (WorkspaceLayouts.lg (Zustand.layouts st));
  dl_sm :
    WorkspaceLayouts.sm (Zustand.layouts st)
    = map sm_item (WorkspaceLayouts.lg (Zustand.layouts st))
}.

Definition hands_no_layout_back (a : Zustand.Action) : bool :=
  match a with
  | Zustand.UpdateLayouts _ => false
  | _ => true
  end.

(** A session: a preset, three registrations, a ticker update, a removal. *)
Definition zustand_session : list Zustand.Action :=
  [Zustand.LoadPreset Zustand.trading (fun k => 20 + Z.of_nat k);
   Zustand.AddWidget 30 chart None WidgetConfig.empty;
   Zustand.AddWidget 30 chart (Some "KX") WidgetConfig.empty;
   Zustand.AddWidget 31 quote None WidgetConfig.empty;
   Zustand.UpdateWidgetTicker "chart-5-30" "BTC";
   Zustand.RemoveWidget "chart-6-30";
   Zustand.ToggleCommandPalette].

(** *** The market data store *)

(** The fills of a feed that are of one ticker, in the order of arrival. *)
Definition fills_of (ticker : string) (feed : list Fill.t) : list Fill.t :=
  List.filter (fun f => String.eqb (Fill.ticker f) ticker) feed.

(** The markets of one category, in the given order. *)
Definition markets_in (category : string) (ms : list Market.t) : list Market.t :=
  List.filter (fun m => String.eqb (MarketData.category_of m) category) ms.

(** A market with no more than ticker, title and category. *)
Definition market (ticker : string) (category : option string) : Market.t :=
  Market.mk ticker ticker None Market.open None None None None None None None None
    (Fin 0%Q) (Fin 0%Q) (Fin 0%Q) None None None None None category.

(** A taker's purchase of one contract. *)
Definition fill (ticker trade_id : string) : Fill.t :=
  Fill.mk ticker trade_id (Fin 50%Q) (Fin 1%Q) Market.yes Fill.buy "" true.

(** *** Numbers that doubles hold exactly *)

(** An integer that a double holds exactly, with room for the sum of two:
    below [2^52] in magnitude. *)
Definition exact_integer (n : number) : bool :=
  match n with
  | Fin z => Z.abs z <? 2 ^ 52
  | _ => false
  end.

Definition exact_item (l : LayoutItem.t) : bool :=
  exact_integer (LayoutItem.x l) && exact_integer (LayoutItem.y l)
  && exact_integer (LayoutItem.w l) && exact_integer (LayoutItem.h l).

(** The cell or the size handed to a committing method is exact. *)
Definition exact_numbers (a : Action) : bool :=
  match a with
  | MoveWidgetToPosition _ x y => exact_integer x && exact_integer y
  | ResizeWidget _ w h => exact_integer w && exact_integer h
  | _ => true
  end.

(** A run in which the program's arithmetic on grid numbers is that of the
    integers: in every state it passes through, the first and the last
    included, every item of every breakpoint has exact coordinates and
    sizes, and so has every cell and size handed to a committing method. *)
Fixpoint exact_run (W : World) (actions : list Action) : bool :=
  forallb (fun bp => forallb exact_item (layout_of W bp)) [bp_lg; bp_md; bp_sm]
  && match actions with
     | [] => true
     | a :: rest => exact_numbers a && exact_run (step W a) rest
     end.

(** A pixel quantity of ordinary size: finite and at most [2^52] in
    magnitude. *)
Definition ordinary_length (q : Q) : bool :=
  Qle_bool (inject_Z (- 2 ^ 52)) q && Qle_bool q (inject_Z (2 ^ 52)).

Definition ordinary_pixels (n : pixels) : bool :=
  match n with
  | Fin q => ordinary_length q
  | _ => false
  end.

Definition ordinary_geometry (gridContainer : option Geometry.t) : bool :=
  match gridContainer with
  | Some g =>
      forallb ordinary_length
        [Geometry.left g; Geometry.top g; Geometry.width g;
         Geometry.paddingLeft g; Geometry.paddingTop g; Geometry.paddingRight g]
  | None => true
  end.

(** What the program can do to a mounted workspace with ordinary numbers:
    every store action and every event of the grid, a drop with a pointer
    and a container of ordinary size and of non-negative inner width, and
    a move to an exact cell, which stands for a drop whatever cell the
    pointer arithmetic gives.  No handler reaches [resizeWidget]. *)
Definition reachable_action (a : Action) : bool :=
  match a with
  | MoveWidgetToPosition _ x y => exact_integer x && exact_integer y
  | ResizeWidget _ _ _ => false
  | Drop gridContainer e =>
      ordinary_pixels (PointerEvent.clientX e) && ordinary_pixels (PointerEvent.clientY e)
      && ordinary_geometry gridContainer && sane_geometry gridContainer
  | _ => true
  end.

(** The sizes and the size limits of an item are those its widget type
    was registered with. *)
Definition default_sized (l : LayoutItem.t) : Prop :=
  exists type : WidgetType,
    let size := DEFAULT_WIDGET_SIZES type in
    LayoutItem.w l = Fin (WidgetSize.w size) /\ LayoutItem.h l = Fin (WidgetSize.h size)
    /\ LayoutItem.minW l = Some (Fin (WidgetSize.minW size))
    /\ LayoutItem.minH l = Some (Fin (WidgetSize.minH size))
    /\ LayoutItem.maxW l = None /\ LayoutItem.maxH l = None.

Definition heap_default_sized (W : World) : Prop :=
  forall p l, heap W !! p = Some l -> default_sized l.

(** An order book and a quote are registered; the quote is dragged and
    dropped beside the order book, with the pointer over the cell (4, 0). *)
Definition drop_run : list Action :=
  [AddWidget 1000 orderbook None WidgetConfig.empty;
   AddWidget 2000 quote None WidgetConfig.empty;
   DragStart (Some "quote-2000");
   DragOver (Some wide_container) (PointerEvent.mk (Fin 420%Q) (Fin 20%Q));
   Drop (Some wide_container) (PointerEvent.mk (Fin 420%Q) (Fin 20%Q));
   DragEnd].

(** An order book is registered, dragged and dropped while the pointer
    event carries no coordinates. *)
Definition blind_drop_run : list Action :=
  [AddWidget 1000 orderbook None WidgetConfig.empty;
   DragStart (Some "orderbook-1000");
   Drop (Some wide_container) (PointerEvent.mk NaN NaN);
   DragEnd].

(* ===================================================================== *)
(** ** Properties *)
(* ===================================================================== *)

(** *** Sanity checks of the JavaScript helpers *)

Example to_string_12 : to_string (Fin 12) = "12".
Proof. reflexivity. Qed.
Example parseInt_span : parseInt (replace "span " "" "span 5") = Fin 5.
Proof. reflexivity. Qed.
Example parseInt_nan : parseInt "NaN" = NaN.
Proof. reflexivity. Qed.
Example to_string_neg : to_string (Fin (-3)) = "-3".
Proof. reflexivity. Qed.
Example round_half : round (Fin (5 # 2)%Q) = Fin 3 /\ round (Fin (-5 # 2)%Q) = Fin (-2).
Proof. split; reflexivity. Qed.
Example title_ts : getWidgetTitle trade_history (Some "KX") = "Trade History - KX".
Proof. reflexivity. Qed.

(** *** Numbers *)

Ltac number_cases :=
  repeat match goal with
         | n : number |- _ => destruct n
         end;
  simpl in *; try congruence; try reflexivity;
  repeat match goal with
         | |- context [?a <? ?b] => destruct (Z.ltb_spec a b); simpl in *
         | H : context [?a <? ?b] |- _ => destruct (Z.ltb_spec a b); simpl in *
         | |- context [?a <=? ?b] => destruct (Z.leb_spec a b); simpl in *
         | H : context [?a <=? ?b] |- _ => destruct (Z.leb_spec a b); simpl in *
         end;
  try congruence; try lia.

Lemma nlt_nmax_mono (acc b v : number) :
  nlt acc v = false -> nlt (nmax acc b) v = false.
Proof. intros H. number_cases. Qed.

Lemma nlt_nmax_r (acc b : number) : nlt (nmax acc b) b = false.
Proof. number_cases. Qed.

Lemma nlt_fold_nmax (xs : list number) :
  forall acc v, nlt acc v = false \/ In v xs ->
                nlt (fold_left nmax xs acc) v = false.
Proof.
  induction xs as [|b xs IH]; intros acc v Hv; simpl.
  - destruct Hv as [Hv|[]]. exact Hv.
  - apply IH. destruct Hv as [Hv|[Hv|Hv]].
    + left. now apply nlt_nmax_mono.
    + subst b. left. apply nlt_nmax_r.
    + now right.
Qed.

(** Nothing in a list exceeds its [Math.max]. *)
Lemma nlt_max_of (xs : list number) (v : number) :
  In v xs -> nlt (max_of xs) v = false.
Proof. intros H. apply nlt_fold_nmax. now right. Qed.

(** On integers, [n < m + 1] is [n <= m], also at the non-finite values. *)
Lemma ngt_succ_nle (n : number) (m : Z) : ngt (Fin (m + 1)) n = nle n (Fin m).
Proof.
  destruct n; simpl; try reflexivity.
  destruct (Z.ltb_spec a (m + 1)), (Z.leb_spec a m); try reflexivity; lia.
Qed.

(** The overlap test is symmetric. *)
Lemma overlaps_sym (a b : LayoutItem.t) : overlaps a b = overlaps b a.
Proof.
  unfold overlaps, ngt.
  rewrite (andb_comm (nlt (LayoutItem.x a) _)), (andb_comm (nlt (LayoutItem.y a) _)).
  reflexivity.
Qed.

Lemma is_finite_Fin {A} (n : ext A) : is_finite n = true -> exists a, n = Fin a.
Proof. destruct n; try discriminate. eauto. Qed.

Lemma int_item_Fin (l : LayoutItem.t) :
  int_item l = true ->
  exists x y w h,
    LayoutItem.x l = Fin x /\ LayoutItem.y l = Fin y /\
    LayoutItem.w l = Fin w /\ LayoutItem.h l = Fin h.
Proof.
  unfold int_item. rewrite !andb_true_iff. intros [[[Hx Hy] Hw] Hh].
  apply is_finite_Fin in Hx, Hy, Hw, Hh.
  destruct Hx as [x Hx], Hy as [y Hy], Hw as [w Hw], Hh as [h Hh].
  exists x, y, w, h. auto.
Qed.

(** On integer rectangles the test is the overlap of the half-open
    intervals [[x, x+w)] and [[y, y+h)]. *)
Lemma overlaps_intervals (i1 i2 : string) (x1 y1 w1 h1 x2 y2 w2 h2 : Z) m1 m2 m3 m4 s n1 n2 n3 n4 t :
  overlaps (LayoutItem.mk i1 (Fin x1) (Fin y1) (Fin w1) (Fin h1) m1 m2 m3 m4 s)
           (LayoutItem.mk i2 (Fin x2) (Fin y2) (Fin w2) (Fin h2) n1 n2 n3 n4 t) = true
  <-> (x1 < x2 + w2 /\ x2 < x1 + w1) /\ (y1 < y2 + h2 /\ y2 < y1 + h1).
Proof.
  unfold overlaps, ngt; simpl.
  rewrite !andb_true_iff, !Z.ltb_lt. tauto.
Qed.

(** *** Loops *)

Lemma iterate_Returned {A} (body : Z -> loop_result A) (ex : loop_result A) (r : A) :
  forall n i,
    iterate n i body ex = Returned r ->
    (exists j, body j = Returned r) \/ ex = Returned r.
Proof.
  induction n as [|n IH]; intros i H; simpl in H.
  - now right.
  - destruct (body i) eqn:E.
    + left. exists i. congruence.
    + eapply IH; eauto.
    + discriminate.
Qed.

Lemma for_upto_Returned {A} fuel bound (body : Z -> loop_result A) (r : A) :
  for_upto fuel bound body = Returned r -> exists j, body j = Returned r.
Proof.
  unfold for_upto. destruct bound; try discriminate; intros H;
    apply iterate_Returned in H; destruct H as [H|H]; auto; discriminate.
Qed.

Lemma iterate_fuel {A} (body : Z -> loop_result A) (ex : loop_result A) :
  (forall j, body j <> OutOfFuel) -> ex <> OutOfFuel ->
  forall n i, iterate n i body ex <> OutOfFuel.
Proof.
  intros Hb Hex. induction n as [|n IH]; intros i; simpl; auto.
  destruct (body i) eqn:E.
  - discriminate.
  - apply IH.
  - intros _. now apply (Hb i).
Qed.

(** A loop runs out of fuel only under an infinite bound, or in its body. *)
Lemma for_upto_fuel {A} fuel bound (body : Z -> loop_result A) :
  (forall j, body j <> OutOfFuel) -> bound <> PInf ->
  for_upto fuel bound body <> OutOfFuel.
Proof.
  intros Hb Hbound. unfold for_upto. destruct bound; try discriminate; try congruence.
  now apply iterate_fuel.
Qed.

(** *** Placement *)

Lemma overlaps_below (new l : LayoutItem.t) :
  nlt (LayoutItem.y new) (nadd (LayoutItem.y l) (LayoutItem.h l)) = false ->
  overlaps new l = false.
Proof.
  intros H. unfold overlaps. rewrite H. simpl. apply andb_false_r.
Qed.

Lemma bottom_edge_below (layout : list LayoutItem.t) (l : LayoutItem.t) :
  In l layout ->
  nlt (max_of (map (fun l => nadd (LayoutItem.y l) (LayoutItem.h l)) layout))
      (nadd (LayoutItem.y l) (LayoutItem.h l)) = false.
Proof.
  intros H. apply nlt_max_of.
  apply (in_map (fun l => nadd (LayoutItem.y l) (LayoutItem.h l))). exact H.
Qed.

Lemma findAvailablePosition_below (layout : list LayoutItem.t) (l : LayoutItem.t) :
  In l layout ->
  nlt (Position.y (findAvailablePosition layout))
      (nadd (LayoutItem.y l) (LayoutItem.h l)) = false.
Proof.
  intros H. unfold findAvailablePosition.
  destruct layout as [|l0 layout]; [destruct H|].
  cbn [length Nat.eqb Position.y]. now apply bottom_edge_below.
Qed.

(** A rectangle put at the position [findAvailablePosition] returns meets
    no item of the layout, whatever its width and height. *)
Lemma findAvailablePosition_free (layout : list LayoutItem.t) (new : LayoutItem.t) :
  LayoutItem.y new = Position.y (findAvailablePosition layout) ->
  Forall (fun l => overlaps new l = false) layout.
Proof.
  intros Hy. apply List.Forall_forall. intros l Hl.
  apply overlaps_below. rewrite Hy. now apply findAvailablePosition_below.
Qed.

Lemma existsb_map_filter_false {A B} (f : B -> bool) (g : A -> B) (p : A -> bool)
    (l : list A) :
  existsb f (map g (List.filter p l)) = false ->
  forall a, In a l -> p a = true -> f (g a) = false.
Proof.
  intros H a Ha Hp.
  destruct (f (g a)) eqn:E; [|reflexivity].
  assert (existsb f (map g (List.filter p l)) = true) as H'.
  { apply existsb_exists. exists (g a). split; [|exact E].
    apply in_map. apply filter_In. now split. }
  congruence.
Qed.

(** The zustand placement: a one-row rectangle of the requested width at
    the returned position meets no item of the layout. *)
Lemma findNextPosition_row_free fuel (layouts : list LayoutItem.t) (newWidth : number)
    (pos : Position.t) (new : LayoutItem.t) :
  Zustand.findNextPosition fuel layouts newWidth = Some pos ->
  LayoutItem.x new = Position.x pos ->
  LayoutItem.y new = Position.y pos ->
  LayoutItem.w new = newWidth ->
  LayoutItem.h new = Fin 1 ->
  Forall (fun l => overlaps new l = false) layouts.
Proof.
  unfold Zustand.findNextPosition. intros H Hx Hy Hw Hh.
  destruct layouts as [|l0 layouts']; [constructor|].
  cbn [length Nat.eqb] in H.
  revert H. generalize (l0 :: layouts'). clear l0 layouts'. intros layouts H.
  apply List.Forall_forall. intros l Hl.
  match type of H with
  | match ?rows with _ => _ end = _ => destruct rows as [p| |] eqn:Erows
  end; try discriminate.
  - (* a free cell was found in row [r] at column [c] *)
    injection H as ->.
    apply for_upto_Returned in Erows. destruct Erows as [r Er].
    apply for_upto_Returned in Er. destruct Er as [c Ec].
    match type of Ec with
    | (if negb ?e then _ else _) = _ => destruct e eqn:Efits
    end; simpl in Ec; [discriminate|].
    injection Ec as <-. simpl in Hx, Hy.
    pose proof (existsb_map_filter_false _ _ _ _ Efits l Hl) as Hfree.
    cbn beta in Hfree. simpl fst in Hfree. simpl snd in Hfree.
    unfold overlaps. rewrite Hx, Hy, Hw, Hh.
    destruct (nle (LayoutItem.y l) (Fin r)
              && ngt (nadd (LayoutItem.y l) (LayoutItem.h l)) (Fin r)) eqn:Erow.
    + rewrite (Hfree eq_refl). reflexivity.
    + assert (nlt (Fin r) (nadd (LayoutItem.y l) (LayoutItem.h l))
              && ngt (nadd (Fin r) (Fin 1)) (LayoutItem.y l) = false) as ->.
      { cbn [nadd]. rewrite ngt_succ_nle. rewrite andb_comm. exact Erow. }
      apply andb_false_r.
  - (* no free cell: the bottom-left corner *)
    injection H as <-. simpl in Hy.
    apply overlaps_below. rewrite Hy. now apply bottom_edge_below.
Qed.

Lemma fold_nmax_not_PInf (xs : list number) :
  forall acc, acc <> PInf -> Forall (fun v => v <> PInf) xs ->
              fold_left nmax xs acc <> PInf.
Proof.
  induction xs as [|b xs IH]; intros acc Hacc Hxs; simpl; [exact Hacc|].
  inversion Hxs; subst. apply IH; [|assumption].
  destruct acc, b; simpl; try congruence; destruct (_ <? _); congruence.
Qed.

(** On integer rectangles and an integer width the scan returns. *)
Lemma findNextPosition_returns fuel (layouts : list LayoutItem.t) (newWidth : Z) :
  forallb int_item layouts = true ->
  exists pos, Zustand.findNextPosition fuel layouts (Fin newWidth) = Some pos.
Proof.
  intros Hint. unfold Zustand.findNextPosition.
  destruct (length layouts =? 0)%nat; [eauto|].
  match goal with
  | |- exists _, match ?rows with _ => _ end = _ =>
      assert (rows <> OutOfFuel) as Hrows; [|destruct rows; eauto; congruence]
  end.
  apply for_upto_fuel.
  - intros r. apply for_upto_fuel; [|discriminate].
    intros c. destruct (negb _); discriminate.
  - apply fold_nmax_not_PInf; [discriminate|].
    apply List.Forall_forall. intros v Hv. apply in_map_iff in Hv.
    destruct Hv as (l & <- & Hl).
    rewrite forallb_forall in Hint.
    destruct (int_item_Fin l (Hint l Hl)) as (x & y & w & h & _ & -> & _ & ->).
    discriminate.
Qed.

Lemma no_overlap_b_sound (layout : list LayoutItem.t) :
  no_overlap_b layout = true -> no_overlap layout.
Proof.
  induction layout as [|a rest IH]; intros H m n x z Hmn Hm Hn.
  - discriminate.
  - simpl in H. apply andb_true_iff in H. destruct H as [Ha Hrest].
    rewrite forallb_forall in Ha.
    destruct m as [|m], n as [|n]; simpl in Hm, Hn.
    + congruence.
    + injection Hm as <-. apply negb_true_iff, Ha.
      apply list_elem_of_In. eapply list_elem_of_lookup_2; eauto.
    + injection Hn as <-. rewrite overlaps_sym. apply negb_true_iff, Ha.
      apply list_elem_of_In. eapply list_elem_of_lookup_2; eauto.
    + eapply (IH Hrest m n); eauto.
Qed.

(** C7 (as amended).  On scenario A with a new width of 3, the zustand
    store's [findNextPosition] returns the first free cell [(3, 0)]; the
    vanilla store's [findAvailablePosition], which takes no width and puts
    new widgets at the bottom left, returns [(0, 5)]. *)
Theorem scenario_A_positions (fuel : nat) :
  Zustand.findNextPosition fuel scenarioA (Fin 3) = Some (Position.mk (Fin 3) (Fin 0))
  /\ findAvailablePosition scenarioA = Position.mk (Fin 0) (Fin 5).
Proof. split; reflexivity. Qed.

(** C7 as stated fails for the vanilla store: its position is not [(3, 0)]. *)
Lemma scenario_A_vanilla_not_first_fit :
  findAvailablePosition scenarioA <> Position.mk (Fin 3) (Fin 0).
Proof. discriminate. Qed.

(** C2 as stated fails for [findNextPosition]: on a non-overlapping layout
    that the store itself produces, a market selector (3 by 6) is put at
    [(0, 0)], where its lower rows overlap the item at [(0, 5)]. *)
Lemma findNextPosition_overlap_below :
  no_overlap gap_above_layout
  /\ 1 <= WidgetSize.w (DEFAULT_WIDGET_SIZES market_selector) <= 12
  /\ Zustand.findNextPosition 0 gap_above_layout
       (Fin (WidgetSize.w (DEFAULT_WIDGET_SIZES market_selector)))
     = Some (Position.mk (Fin 0) (Fin 0))
  /\ exists l, In l gap_above_layout
       /\ overlaps (new_layout_item "market-selector-6-6" (Position.mk (Fin 0) (Fin 0))
                      (DEFAULT_WIDGET_SIZES market_selector)) l = true.
Proof.
  split; [apply no_overlap_b_sound; vm_compute; reflexivity|].
  split; [simpl; lia|].
  split; [vm_compute; reflexivity|].
  exists (LayoutItem.mk "orderbook-5-5" (Fin 0) (Fin 5) (Fin 3) (Fin 5)
            (Some (Fin 2)) (Some (Fin 3)) None None None).
  split; [vm_compute; tauto|vm_compute; reflexivity].
Qed.

(** C2 (as amended).  A rectangle of any width and height put at the
    position [findAvailablePosition] returns overlaps no item of the input
    layout.  [findNextPosition] returns on every layout of integer
    rectangles, and a rectangle of the requested width and of height 1 put
    at its position overlaps no item of the input layout: the scan
    guarantees that the first row of the new item is free. *)
Theorem placement_free (fuel : nat) (layouts : list LayoutItem.t) (newWidth : Z)
    (id : string) (w h : number) :
  Forall (fun l => overlaps (placed id (findAvailablePosition layouts) w h) l = false)
         layouts
  /\ (forallb int_item layouts = true ->
      exists pos,
        Zustand.findNextPosition fuel layouts (Fin newWidth) = Some pos
        /\ Forall (fun l => overlaps (placed id pos (Fin newWidth) (Fin 1)) l = false)
                  layouts).
Proof.
  split.
  - now apply findAvailablePosition_free.
  - intros Hint.
    destruct (findNextPosition_returns fuel layouts newWidth Hint) as [pos Hpos].
    exists pos. split; [exact Hpos|].
    eapply findNextPosition_row_free; eauto.
Qed.

Lemma placement_free_witness :
  forallb int_item scenarioA = true
  /\ Forall (fun l => overlaps (placed "B" (findAvailablePosition scenarioA) (Fin 3) (Fin 5)) l
                      = false) scenarioA
  /\ exists pos,
       Zustand.findNextPosition 0 scenarioA (Fin 3) = Some pos
       /\ Forall (fun l => overlaps (placed "B" pos (Fin 3) (Fin 1)) l = false) scenarioA.
Proof.
  split; [reflexivity|].
  destruct (placement_free 0 scenarioA 3 "B" (Fin 3) (Fin 5)) as [Hvanilla Hzustand].
  split; [exact Hvanilla|exact (Hzustand eq_refl)].
Defined.

(** *** The store: removal and the register/unregister round trip *)

Lemma filter_filter_same {A} (f : A -> bool) (l : list A) :
  List.filter f (List.filter f l) = List.filter f l.
Proof.
  induction l as [|a l IH]; simpl; [reflexivity|].
  destruct (f a) eqn:E; simpl; rewrite ?E, IH; reflexivity.
Qed.

Lemma filter_all {A} (f : A -> bool) (l : list A) :
  (forall a, In a l -> f a = true) -> List.filter f l = l.
Proof.
  induction l as [|a l IH]; intros H; simpl; [reflexivity|].
  rewrite (H a (or_introl eq_refl)). f_equal. apply IH. intros b Hb. apply H. now right.
Qed.

Lemma items_cons (heap : Heap) (p : loc) (refs : list loc) :
  items heap (p :: refs)
  = match heap !! p with
    | Some l => l :: items heap refs
    | None => items heap refs
    end.
Proof. reflexivity. Qed.

Lemma items_In (heap : Heap) (refs : list loc) (p : loc) (l : LayoutItem.t) :
  In p refs -> heap !! p = Some l -> In l (items heap refs).
Proof.
  induction refs as [|q refs IH]; intros Hin Hp; [destruct Hin|].
  rewrite items_cons. destruct Hin as [->|Hin].
  - rewrite Hp. now left.
  - destruct (heap !! q); [right|]; auto.
Qed.

Lemma In_items (heap : Heap) (refs : list loc) (l : LayoutItem.t) :
  In l (items heap refs) -> exists p, In p refs /\ heap !! p = Some l.
Proof.
  induction refs as [|q refs IH]; intros Hin; [destruct Hin|].
  rewrite items_cons in Hin. destruct (heap !! q) eqn:E.
  - destruct Hin as [->|Hin].
    + exists q. split; [now left|exact E].
    + destruct (IH Hin) as (p & Hp & Hl). exists p. split; [now right|exact Hl].
  - destruct (IH Hin) as (p & Hp & Hl). exists p. split; [now right|exact Hl].
Qed.

Lemma find_ref_Some (heap : Heap) (refs : list loc) (widgetId : string) p l :
  find_ref heap refs widgetId = Some (p, l) ->
  In p refs /\ heap !! p = Some l /\ LayoutItem.i l = widgetId.
Proof.
  induction refs as [|q refs IH]; [discriminate|]. cbn [find_ref].
  destruct (heap !! q) as [l0|] eqn:E.
  - destruct (String.eqb (LayoutItem.i l0) widgetId) eqn:Eid.
    + intros [= <- <-]. apply String.eqb_eq in Eid. repeat split; auto. now left.
    + intros H. destruct (IH H) as (? & ? & ?). repeat split; auto. now right.
  - intros H. destruct (IH H) as (? & ? & ?). repeat split; auto. now right.
Qed.

(** Filtering an array of references filters the objects it holds. *)
Lemma items_filter_refs (heap : Heap) (widgetId : string) (refs : list loc) :
  items heap (filter_refs heap widgetId refs)
  = List.filter (fun l => negb (String.eqb (LayoutItem.i l) widgetId)) (items heap refs).
Proof.
  induction refs as [|p refs IH]; [reflexivity|].
  rewrite (items_cons heap p refs).
  unfold filter_refs in *. cbn [List.filter].
  destruct (heap !! p) as [l|] eqn:E.
  - cbn [List.filter]. destruct (negb _) eqn:Eid.
    + rewrite items_cons, E, IH. reflexivity.
    + exact IH.
  - rewrite items_cons, E. exact IH.
Qed.

Lemma filter_refs_all (heap : Heap) (widgetId : string) (refs : list loc) :
  (forall l, In l (items heap refs) -> LayoutItem.i l <> widgetId) ->
  filter_refs heap widgetId refs = refs.
Proof.
  intros H. apply filter_all. intros p Hp.
  destruct (heap !! p) as [l|] eqn:E; [|reflexivity].
  apply negb_true_iff, String.eqb_neq, H. eapply items_In; eauto.
Qed.

(** Objects are only allocated at the end of the heap: references into the
    old heap read the same object in the extended one. *)
Lemma items_alloc (heap : Heap) (new : LayoutItem.t) (refs : list loc) :
  (forall p, In p refs -> (p < length heap)%nat) ->
  items (heap ++ [new]) refs = items heap refs.
Proof.
  induction refs as [|p refs IH]; intros H; [reflexivity|].
  rewrite !items_cons, IH by (intros q Hq; apply H; now right).
  rewrite lookup_app_l by (apply H; now left). reflexivity.
Qed.

(** C10.  [removeWidget(id)] clears [activeWidgetId] exactly when it was the
    removed id and keeps it otherwise; it keeps [currentTicker]; it changes
    no layout object; the widgets and the layout entries with another id
    stay as they were, in their order; and when no widget (no entry of a
    breakpoint) has the id, the widget list (that breakpoint's array) is
    unchanged. *)
Theorem removeWidget_frame (widgetId : string) (W : World) :
  let W' := removeWidget widgetId W in
  Store.activeWidgetId (store W')
    = (if decide (Store.activeWidgetId (store W) = Some widgetId)
       then None else Store.activeWidgetId (store W))
  /\ Store.currentTicker (store W') = Store.currentTicker (store W)
  /\ heap W' = heap W
  /\ List.filter (other_widget widgetId) (Store.widgets (store W'))
     = List.filter (other_widget widgetId) (Store.widgets (store W))
  /\ (forall bp, List.filter (other_item widgetId) (layout_of W' bp)
                 = List.filter (other_item widgetId) (layout_of W bp))
  /\ ((forall w, In w (Store.widgets (store W)) -> WidgetInstance.id w <> widgetId) ->
      Store.widgets (store W') = Store.widgets (store W))
  /\ (forall bp,
        (forall l, In l (layout_of W bp) -> LayoutItem.i l <> widgetId) ->
        get_layout (Store.layouts (store W')) bp = get_layout (Store.layouts (store W)) bp).
Proof.
  cbv zeta. unfold layout_of. cbn [removeWidget setState store heap Store.activeWidgetId
    Store.currentTicker Store.widgets Store.layouts].
  repeat split.
  - unfold bool_decide. destruct (decide_rel _ _ _); destruct (decide _); congruence.
  - apply filter_filter_same.
  - intros bp. destruct bp; cbn [get_layout WorkspaceLayouts.lg WorkspaceLayouts.md
      WorkspaceLayouts.sm]; rewrite items_filter_refs; apply filter_filter_same.
  - intros H. apply filter_all. intros w Hw. apply negb_true_iff, String.eqb_neq. auto.
  - intros bp H. destruct bp; cbn [get_layout WorkspaceLayouts.lg WorkspaceLayouts.md
      WorkspaceLayouts.sm] in *; now apply filter_refs_all.
Qed.

Lemma removeWidget_frame_witness :
  let W := addWidget 1000 orderbook None WidgetConfig.empty initialWorld in
  let W' := removeWidget "quote-7" W in
  Store.widgets (store W') = Store.widgets (store W)
  /\ get_layout (Store.layouts (store W')) bp_lg = get_layout (Store.layouts (store W)) bp_lg.
Proof.
  cbv zeta.
  pose proof (removeWidget_frame "quote-7"
                (addWidget 1000 orderbook None WidgetConfig.empty initialWorld))
    as (_ & _ & _ & _ & _ & Hw & Hl).
  split.
  - apply Hw. intros w [<-|[]]. vm_compute. discriminate.
  - apply (Hl bp_lg). intros l [<-|[]]. vm_compute. discriminate.
Defined.

Lemma refs_valid_lt (W : World) (bp : Breakpoint) (p : loc) :
  refs_valid W = true ->
  In p (get_layout (Store.layouts (store W)) bp) -> (p < length (heap W))%nat.
Proof.
  unfold refs_valid. cbn [forallb]. rewrite !andb_true_iff, !forallb_forall.
  intros (Hlg & Hmd & Hsm & _) Hp.
  destruct bp; [apply Hlg in Hp|apply Hmd in Hp|apply Hsm in Hp];
    now apply Nat.ltb_lt in Hp.
Qed.

Lemma fresh_id_layout (id : string) (W : World) (bp : Breakpoint) (l : LayoutItem.t) :
  fresh_id id W = true -> In l (layout_of W bp) -> LayoutItem.i l <> id.
Proof.
  unfold fresh_id. cbn [forallb]. rewrite !andb_true_iff, !forallb_forall.
  intros (_ & Hlg & Hmd & Hsm & _) Hl.
  destruct bp; [apply Hlg in Hl|apply Hmd in Hl|apply Hsm in Hl];
    now apply negb_true_iff, String.eqb_neq in Hl.
Qed.

(** Removing the id of a just-added object from an array it was appended to. *)
Lemma filter_refs_alloc (heap : Heap) (new : LayoutItem.t) (refs : list loc) :
  (forall p, In p refs -> (p < length heap)%nat) ->
  (forall l, In l (items heap refs) -> LayoutItem.i l <> LayoutItem.i new) ->
  filter_refs (heap ++ [new]) (LayoutItem.i new) (refs ++ [length heap]) = refs.
Proof.
  intros Hvalid Hfresh. unfold filter_refs. rewrite List.filter_app.
  cbn [List.filter]. rewrite lookup_app_r, Nat.sub_diag by lia. cbn [lookup list_lookup].
  rewrite String.eqb_refl. cbn [negb]. rewrite app_nil_r.
  apply (filter_refs_all (heap ++ [new])). intros l Hl.
  rewrite items_alloc in Hl by exact Hvalid. auto.
Qed.

Lemma filter_snoc_fresh {A} (f : A -> bool) (l : list A) (a : A) :
  forallb f l = true -> f a = false -> List.filter f (l ++ [a]) = l.
Proof.
  intros Hl Ha. rewrite List.filter_app. cbn [List.filter]. rewrite Ha, app_nil_r.
  apply filter_all. now apply forallb_forall.
Qed.

(** C9 (as amended).  Registering a widget and at once unregistering its id
    restores the widget list and the three breakpoint arrays, in every
    state in which no widget and no layout entry has the id that the
    registration assigns.  In the vanilla store, whose arrays refer to
    allocated objects, the arrays are the same references to unchanged
    objects; the zustand store, whose items have integer coordinates, is
    restored as a whole. *)
Theorem register_unregister_roundtrip (now : Z) (type : WidgetType)
    (ticker : option string) (config : WidgetConfig.t)
    (W : World) (fuel : nat) (widgetCounter : Z) (st : Zustand.WorkspaceState) :
  refs_valid W = true ->
  fresh_id (new_id type now) W = true ->
  forallb int_item (WorkspaceLayouts.lg (Zustand.layouts st)) = true ->
  zustand_fresh_id (fst (Zustand.generateWidgetId widgetCounter now type)) st = true ->
  (let W' := removeWidget (new_id type now) (addWidget now type ticker config W) in
   Store.widgets (store W') = Store.widgets (store W)
   /\ Store.layouts (store W') = Store.layouts (store W)
   /\ forall bp, layout_of W' bp = layout_of W bp)
  /\ exists id counter' st',
       Zustand.addWidget fuel widgetCounter now type ticker config st
         = Some (id, counter', st')
       /\ Zustand.removeWidget id st' = st.
Proof.
  intros Hvalid Hfresh Hint Hzfresh. split.
  - cbv zeta.
    assert (Store.layouts (store (removeWidget (new_id type now)
                                    (addWidget now type ticker config W)))
            = Store.layouts (store W)) as Hlayouts.
    { cbn [removeWidget addWidget setState store heap Store.layouts Store.widgets
           WorkspaceLayouts.lg WorkspaceLayouts.md WorkspaceLayouts.sm].
      change (new_id type now) with
        (LayoutItem.i (new_layout_item (new_id type now)
           (findAvailablePosition (items (heap W) (WorkspaceLayouts.lg (Store.layouts (store W)))))
           (DEFAULT_WIDGET_SIZES type))) at 1 3 5.
      rewrite !filter_refs_alloc.
      - destruct (Store.layouts (store W)); reflexivity.
      - intros p Hp. now apply (refs_valid_lt W bp_sm).
      - intros l Hl. now apply (fresh_id_layout _ W bp_sm).
      - intros p Hp. now apply (refs_valid_lt W bp_md).
      - intros l Hl. now apply (fresh_id_layout _ W bp_md).
      - intros p Hp. now apply (refs_valid_lt W bp_lg).
      - intros l Hl. now apply (fresh_id_layout _ W bp_lg). }
    split; [|split].
    + cbn [removeWidget addWidget setState store heap Store.widgets].
      apply filter_snoc_fresh.
      * unfold fresh_id in Hfresh. apply andb_true_iff in Hfresh. apply Hfresh.
      * cbn [WidgetInstance.id]. rewrite String.eqb_refl. reflexivity.
    + exact Hlayouts.
    + intros bp. unfold layout_of. rewrite Hlayouts.
      cbn [removeWidget addWidget setState heap].
      apply items_alloc. intros p Hp. now apply (refs_valid_lt W bp).
  - unfold Zustand.addWidget.
    destruct (Zustand.generateWidgetId widgetCounter now type) as [id counter'] eqn:Eid.
    destruct (findNextPosition_returns fuel _ (WidgetSize.w (DEFAULT_WIDGET_SIZES type)) Hint)
      as [pos ->].
    eexists _, _, _. split; [reflexivity|].
    unfold zustand_fresh_id in Hzfresh. cbn [fst forallb] in Hzfresh.
    rewrite !andb_true_iff in Hzfresh. destruct Hzfresh as (Hw & Hlg & Hmd & Hsm & _).
    unfold Zustand.removeWidget.
    cbn [Zustand.widgets Zustand.layouts Zustand.activeTicker Zustand.commandPaletteOpen
         WorkspaceLayouts.lg WorkspaceLayouts.md WorkspaceLayouts.sm].
    rewrite !filter_snoc_fresh; try assumption;
      try (cbn; rewrite String.eqb_refl; reflexivity).
    destruct st as [ws [lg md sm] at' cp]; reflexivity.
Qed.

Lemma register_unregister_roundtrip_witness :
  let W := addWidget 1000 orderbook None WidgetConfig.empty initialWorld in
  let W' := removeWidget (new_id quote 2000)
              (addWidget 2000 quote (Some "KX") WidgetConfig.empty W) in
  Store.widgets (store W') = Store.widgets (store W)
  /\ Store.layouts (store W') = Store.layouts (store W).
Proof.
  cbv zeta.
  pose proof (register_unregister_roundtrip 2000 quote (Some "KX") WidgetConfig.empty
                (addWidget 1000 orderbook None WidgetConfig.empty initialWorld)
                0 0 Zustand.initial eq_refl eq_refl eq_refl eq_refl) as [(Hw & Hl & _) _].
  split; assumption.
Defined.

(** C9 as stated fails in a state that holds a widget of the same type
    registered in the same millisecond: the registration assigns the id
    that widget has, and unregistering the id removes both.  The order
    book that was there before is gone from the widget list and from
    every breakpoint. *)
Lemma same_millisecond_unregister :
  let W := one_orderbook in
  let W' :=
    removeWidget (new_id orderbook 1000)
      (addWidget 1000 orderbook None WidgetConfig.empty W) in
  fresh_id (new_id orderbook 1000) W = false
  /\ map WidgetInstance.id (Store.widgets (store W)) = ["orderbook-1000"]
  /\ Store.widgets (store W') = []
  /\ map LayoutItem.i (layout_of W bp_lg) = ["orderbook-1000"]
  /\ layout_of W' bp_lg = [] /\ layout_of W' bp_md = [] /\ layout_of W' bp_sm = [].
Proof. cbv zeta. repeat split; vm_compute; reflexivity. Qed.

(** *** Gestures: preview, drop and resize end *)

Lemma showPlaceholder_layouts gc x y w h (g : GridLayout.t) :
  GridLayout.layouts (showPlaceholder gc x y w h g) = GridLayout.layouts g
  /\ GridLayout.currentBreakpoint (showPlaceholder gc x y w h g)
     = GridLayout.currentBreakpoint g.
Proof. unfold showPlaceholder. destruct gc; split; reflexivity. Qed.

Lemma hidePlaceholder_layouts (g : GridLayout.t) :
  GridLayout.layouts (hidePlaceholder g) = GridLayout.layouts g
  /\ GridLayout.currentBreakpoint (hidePlaceholder g) = GridLayout.currentBreakpoint g
  /\ GridLayout.draggedWidgetId (hidePlaceholder g) = GridLayout.draggedWidgetId g
  /\ GridLayout.resizingWidgetId (hidePlaceholder g) = GridLayout.resizingWidgetId g.
Proof. unfold hidePlaceholder. destruct (GridLayout.placeholder g); repeat split. Qed.

(** After [hidePlaceholder] there is no placeholder that is shown. *)
Lemma hidePlaceholder_hidden (g : GridLayout.t) :
  match GridLayout.placeholder (hidePlaceholder g) with
  | Some ph => Placeholder.display ph = "none"
  | None => True
  end.
Proof.
  unfold hidePlaceholder. destruct (GridLayout.placeholder g) eqn:E.
  - reflexivity.
  - rewrite E. exact I.
Qed.

Lemma hasCollision_hidePlaceholder heap (g : GridLayout.t) item excludeId :
  hasCollision heap (hidePlaceholder g) item excludeId = hasCollision heap g item excludeId.
Proof.
  unfold hasCollision.
  destruct (hidePlaceholder_layouts g) as (-> & -> & _). reflexivity.
Qed.

Lemma handleDragOver_frame (gridContainer : option Geometry.t)
    (e : PointerEvent.t) (W : World) :
  heap (handleDragOver gridContainer e W) = heap W
  /\ store (handleDragOver gridContainer e W) = store W
  /\ GridLayout.layouts (grid (handleDragOver gridContainer e W))
     = GridLayout.layouts (grid W).
Proof.
  unfold handleDragOver.
  destruct (negb _); [auto|].
  destruct (find_ref _ _ _) as [[p l]|]; [|auto].
  cbn [store heap grid]. repeat split. apply showPlaceholder_layouts.
Qed.

Lemma handleResizeMove_frame (gridContainer : option Geometry.t)
    (e : PointerEvent.t) (W : World) :
  heap (handleResizeMove gridContainer e W) = heap W
  /\ store (handleResizeMove gridContainer e W) = store W
  /\ GridLayout.layouts (grid (handleResizeMove gridContainer e W))
     = GridLayout.layouts (grid W).
Proof.
  unfold handleResizeMove.
  destruct gridContainer as [g|]; [|auto].
  destruct (negb _); [auto|].
  destruct (GridLayout.resizeStartPos (grid W)) as [[sx sy]|]; [|auto].
  destruct (GridLayout.resizeStartSize (grid W)) as [[sw sh]|]; [|auto].
  destruct (find_ref _ _ _) as [[p l]|]; [|auto].
  cbn [store heap grid]. auto.
Qed.

(** C8.  A dragover event of a drag and a mousemove event of a resize leave
    the store, every layout object and the component's own copy of the
    layouts unchanged: they only move the placeholder. *)
Theorem preview_keeps_layouts (gridContainer : option Geometry.t)
    (e : PointerEvent.t) (W : World) :
  (store (handleDragOver gridContainer e W) = store W
   /\ heap (handleDragOver gridContainer e W) = heap W
   /\ GridLayout.layouts (grid (handleDragOver gridContainer e W))
      = GridLayout.layouts (grid W))
  /\ (store (handleResizeMove gridContainer e W) = store W
      /\ heap (handleResizeMove gridContainer e W) = heap W
      /\ GridLayout.layouts (grid (handleResizeMove gridContainer e W))
         = GridLayout.layouts (grid W)).
Proof.
  destruct (handleDragOver_frame gridContainer e W) as (? & ? & ?).
  destruct (handleResizeMove_frame gridContainer e W) as (? & ? & ?).
  repeat split; assumption.
Qed.

Lemma in_bounds_spec (l : LayoutItem.t) :
  in_bounds l = true <->
  exists x y w h,
    LayoutItem.x l = Fin x /\ LayoutItem.y l = Fin y
    /\ LayoutItem.w l = Fin w /\ LayoutItem.h l = Fin h
    /\ 0 <= x /\ 0 <= y /\ x + w <= GridLayout.GRID_COLS /\ 2 <= w /\ 2 <= h.
Proof.
  unfold in_bounds. split.
  - destruct (LayoutItem.x l) as [x| | |], (LayoutItem.y l) as [y| | |],
      (LayoutItem.w l) as [w| | |], (LayoutItem.h l) as [h| | |]; try discriminate.
    rewrite !andb_true_iff, !Z.leb_le. intros ((((? & ?) & ?) & ?) & ?).
    exists x, y, w, h. repeat split; assumption.
  - intros (x & y & w & h & -> & -> & -> & -> & ? & ? & ? & ? & ?).
    rewrite !andb_true_iff, !Z.leb_le. repeat split; assumption.
Qed.

Lemma move_candidate_in_bounds (l : LayoutItem.t) (x y : Z) :
  in_bounds l = true -> in_bounds (move_candidate l (Fin x) (Fin y)) = true.
Proof.
  rewrite !in_bounds_spec.
  intros (x0 & y0 & w & h & Hx & Hy & Hw & Hh & ? & ? & ? & ? & ?).
  unfold move_candidate, GridLayout.GRID_COLS in *.
  cbn [LayoutItem.set_xy LayoutItem.x LayoutItem.y LayoutItem.w LayoutItem.h].
  rewrite Hw, Hh. cbn [nsub nopp nadd nmax nlt].
  destruct (Z.ltb_spec 0 (12 + - w)); cbn [nmin nlt];
    [destruct (Z.ltb_spec x (12 + - w))|destruct (Z.ltb_spec x 0)]; cbn [nmax nlt];
    repeat match goal with
           | |- context [?a <? ?b] => destruct (Z.ltb_spec a b)
           end;
    eexists _, _, w, h; repeat split; lia.
Qed.

Lemma handleDrop_dragged gridContainer (e : PointerEvent.t) (W : World) p widgetLayout :
  dragged_item W = Some (p, widgetLayout) ->
  handleDrop gridContainer e W
  = let W1 := mkWorld (heap W) (store W) (hidePlaceholder (grid W)) in
    let tempItem := drop_candidate gridContainer e widgetLayout in
    if hasCollision (heap W) (grid W) tempItem (GridLayout.draggedWidgetId (grid W)) then W1
    else mkWorld (<[p := tempItem]> (heap W)) (store W) (hidePlaceholder (grid W)).
Proof.
  unfold dragged_item, handleDrop, moveWidgetToPosition, drop_candidate.
  cbn [grid heap store].
  destruct (hidePlaceholder_layouts (grid W)) as (-> & -> & -> & _).
  destruct (GridLayout.draggedWidgetId (grid W)) as [id|] eqn:Eid; [|discriminate].
  destruct (truthy (Some id)); [|discriminate]. cbn [negb default].
  intros ->. rewrite hasCollision_hidePlaceholder. cbv zeta.
  destruct (hasCollision _ _ _ _); [reflexivity|].
  destruct widgetLayout; reflexivity.
Qed.

Lemma hasCollision_true heap (g : GridLayout.t) item widgetId :
  hasCollision heap g item (Some widgetId) = true <->
  exists b,
    In b (items heap (get_layout (GridLayout.layouts g) (GridLayout.currentBreakpoint g)))
    /\ LayoutItem.i b <> widgetId /\ overlaps item b = true.
Proof.
  unfold hasCollision. rewrite existsb_exists. split.
  - intros (b & Hb & Hc). exists b. split; [exact Hb|].
    destruct (bool_decide (Some (LayoutItem.i b) = Some widgetId)) eqn:E; [discriminate|].
    apply bool_decide_eq_false in E. split; [congruence|exact Hc].
  - intros (b & Hb & Hid & Hc). exists b. split; [exact Hb|].
    rewrite bool_decide_eq_false_2 by congruence. exact Hc.
Qed.





(** The final size is read from the placeholder only after it was hidden:
    [handleResizeEnd] never reaches [resizeWidget], and changes no layout
    object and nothing in the store. *)
Lemma handleResizeEnd_never_commits (W : World) :
  heap (handleResizeEnd W) = heap W /\ store (handleResizeEnd W) = store W.
Proof.
  unfold handleResizeEnd.
  destruct (negb _); [auto|]. cbn [grid heap store].
  pose proof (hidePlaceholder_hidden (grid W)) as Hhidden.
  destruct (GridLayout.placeholder (hidePlaceholder (grid W))) as [ph|]; [|auto].
  rewrite Hhidden. cbn. auto.
Qed.

(** C4 (the code at the failing input).  Scenario D: the order book A is 3
    wide with free space to its right; the resize handle is pulled 200
    pixels to the right, so that the placeholder previews a width of 5, and
    released.  The committed width of A is still 3, although [resizeWidget]
    with the previewed size would have set it to 5. *)
Theorem scenario_D_resize_not_committed :
  let W0 := one_orderbook in
  let W1 := handleResizeStart (PointerEvent.mk (Fin 300%Q) (Fin 240%Q)) "orderbook-1000" W0 in
  let W2 := handleResizeMove (Some wide_container)
              (PointerEvent.mk (Fin 500%Q) (Fin 240%Q)) W1 in
  let W3 := handleResizeEnd W2 in
  LayoutItem.w <$> layout_of W0 bp_lg = [Fin 3]
  /\ (Placeholder.gridColumnEnd <$> GridLayout.placeholder (grid W2)) = Some "span 5"
  /\ (Placeholder.display <$> GridLayout.placeholder (grid W2)) = Some "block"
  /\ LayoutItem.w <$> layout_of W3 bp_lg = [Fin 3]
  /\ LayoutItem.w <$> layout_of (resizeWidget "orderbook-1000" (Fin 5) (Fin 5) W2) bp_lg
     = [Fin 5].
Proof. cbv zeta. repeat split; vm_compute; reflexivity. Qed.

(** *** Non-finite pointer coordinates *)

Lemma calculateGridPosition_NaN_x (g : Geometry.t) (clientY : pixels) :
  Position.x (calculateGridPosition (Some g) NaN clientY) = NaN.
Proof. reflexivity. Qed.

Lemma calculateGridPosition_NaN_y (g : Geometry.t) (clientX : pixels) :
  Position.y (calculateGridPosition (Some g) clientX NaN) = NaN.
Proof. reflexivity. Qed.

Lemma calculateGridPosition_PInf_y (g : Geometry.t) (clientX : pixels) :
  Position.y (calculateGridPosition (Some g) clientX PInf) = PInf.
Proof. reflexivity. Qed.

Lemma move_candidate_NaN_x (l : LayoutItem.t) (y : number) :
  LayoutItem.x (move_candidate l NaN y) = NaN.
Proof.
  unfold move_candidate. cbn [LayoutItem.set_xy LayoutItem.x].
  destruct (nmax (Fin 0) (nsub _ _)); reflexivity.
Qed.

Lemma move_candidate_y (l : LayoutItem.t) (x y : number) :
  y = NaN \/ y = PInf -> LayoutItem.y (move_candidate l x y) = y.
Proof. intros [->| ->]; reflexivity. Qed.

(** A rectangle with a NaN coordinate, or at row [+Infinity], overlaps
    nothing: every comparison the test makes is false. *)
Lemma overlaps_non_finite (item l : LayoutItem.t) :
  LayoutItem.x item = NaN \/ LayoutItem.y item = NaN \/ LayoutItem.y item = PInf ->
  overlaps item l = false.
Proof.
  unfold overlaps. intros [H|[H|H]]; rewrite H.
  - reflexivity.
  - cbn. apply andb_false_r.
  - assert (nlt PInf (nadd (LayoutItem.y l) (LayoutItem.h l)) = false) as ->
      by (destruct (nadd _ _); reflexivity).
    cbn. apply andb_false_r.
Qed.

Lemma hasCollision_false heap (g : GridLayout.t) item excludeId :
  (forall l, overlaps item l = false) -> hasCollision heap g item excludeId = false.
Proof.
  intros H. unfold hasCollision.
  induction (items heap _) as [|l ls IH]; [reflexivity|].
  cbn [existsb]. rewrite IH, H. destruct (bool_decide _); reflexivity.
Qed.

(** C6 (as amended).  Non-finite pointer coordinates are not filtered.  A
    drop whose [clientX] or [clientY] is NaN, or whose [clientY] is
    [+Infinity], is never reverted: the collision test is false, and the
    dragged item is committed with the non-finite coordinate. *)
Theorem drop_commits_non_finite (g : Geometry.t) (e : PointerEvent.t) (W : World)
    (p : loc) (widgetLayout : LayoutItem.t) :
  dragged_item W = Some (p, widgetLayout) ->
  PointerEvent.clientX e = NaN \/ PointerEvent.clientY e = NaN
    \/ PointerEvent.clientY e = PInf ->
  exists committed,
    heap (handleDrop (Some g) e W) !! p = Some committed
    /\ (PointerEvent.clientX e = NaN -> LayoutItem.x committed = NaN)
    /\ (PointerEvent.clientY e = NaN -> LayoutItem.y committed = NaN)
    /\ (PointerEvent.clientY e = PInf -> LayoutItem.y committed = PInf).
Proof.
  intros Hdrag He.
  pose proof (handleDrop_dragged (Some g) e W p widgetLayout Hdrag) as Hdrop.
  cbv zeta in Hdrop.
  assert (p < length (heap W))%nat as Hp.
  { unfold dragged_item in Hdrag. destruct (truthy _); [|discriminate].
    revert Hdrag. generalize (get_layout (GridLayout.layouts (grid W))
                                (GridLayout.currentBreakpoint (grid W))).
    intros refs. induction refs as [|q refs IH]; [discriminate|]. cbn [find_ref].
    destruct (heap W !! q) eqn:E; [|exact IH].
    destruct (String.eqb _ _); [|exact IH].
    intros [= <- _]. eapply lookup_lt_Some; eauto. }
  set (tempItem := drop_candidate (Some g) e widgetLayout) in *.
  assert ((PointerEvent.clientX e = NaN -> LayoutItem.x tempItem = NaN)
          /\ (PointerEvent.clientY e = NaN -> LayoutItem.y tempItem = NaN)
          /\ (PointerEvent.clientY e = PInf -> LayoutItem.y tempItem = PInf))
    as (HxNaN & HyNaN & HyInf).
  { unfold tempItem, drop_candidate. repeat split; intros ->.
    - rewrite calculateGridPosition_NaN_x. apply move_candidate_NaN_x.
    - rewrite calculateGridPosition_NaN_y. now apply move_candidate_y; left.
    - rewrite calculateGridPosition_PInf_y. now apply move_candidate_y; right. }
  exists tempItem. rewrite Hdrop, hasCollision_false.
  - cbn [heap]. rewrite list_lookup_insert_eq by exact Hp. auto.
  - intros l. apply overlaps_non_finite. tauto.
Qed.

Lemma drop_commits_non_finite_witness :
  exists committed,
    heap (handleDrop (Some wide_container) (PointerEvent.mk NaN NaN)
            (handleDragStart (Some "orderbook-1000") one_orderbook)) !! 0%nat
    = Some committed
    /\ LayoutItem.x committed = NaN /\ LayoutItem.y committed = NaN.
Proof.
  destruct (drop_commits_non_finite wide_container (PointerEvent.mk NaN NaN)
              (handleDragStart (Some "orderbook-1000") one_orderbook)
              0%nat
              (LayoutItem.mk "orderbook-1000" (Fin 0) (Fin 0) (Fin 3) (Fin 5)
                 (Some (Fin 2)) (Some (Fin 3)) None None None)
              eq_refl (or_introl eq_refl))
    as (committed & Hc & Hx & Hy & _).
  exists committed. split; [exact Hc|]. split; [apply Hx|apply Hy]; reflexivity.
Defined.

(** C6 as stated fails: a drop with NaN coordinates on the order book at
    (0, 0) leaves it at (NaN, NaN) in the committed layout. *)
Lemma drop_NaN_changes_position :
  let W := handleDragStart (Some "orderbook-1000") one_orderbook in
  let W' := handleDrop (Some wide_container) (PointerEvent.mk NaN NaN) W in
  (fun l => (LayoutItem.x l, LayoutItem.y l)) <$> layout_of W bp_lg = [(Fin 0, Fin 0)]
  /\ (fun l => (LayoutItem.x l, LayoutItem.y l)) <$> layout_of W' bp_lg = [(NaN, NaN)].
Proof. cbv zeta. split; vm_compute; reflexivity. Qed.

(* ===================================================================== *)
(** ** Runs of the workspace *)
(* ===================================================================== *)

(** *** Bounds *)

Lemma resize_candidate_in_bounds (l : LayoutItem.t) (w h : Z) :
  in_bounds l = true -> in_bounds (resize_candidate l (Fin w) (Fin h)) = true.
Proof.
  rewrite !in_bounds_spec.
  intros (x & y & w0 & h0 & Hx & Hy & Hw & Hh & ? & ? & ? & ? & ?).
  unfold resize_candidate, GridLayout.GRID_COLS in *.
  cbn [LayoutItem.set_wh LayoutItem.x LayoutItem.y LayoutItem.w LayoutItem.h].
  rewrite Hx, Hy. cbn [nsub nopp nadd nmax nlt].
  destruct (Z.ltb_spec 2 (12 + - x)); cbn [nmin nlt];
    [destruct (Z.ltb_spec w (12 + - x))|destruct (Z.ltb_spec w 2)]; cbn [nmax nlt];
    repeat match goal with
           | |- context [?a <? ?b] => destruct (Z.ltb_spec a b)
           end;
    eexists x, y, _, _; repeat split; lia.
Qed.

(** The two committing methods either leave the world as it is or write one
    object, the candidate, and nothing else. *)
Lemma moveWidgetToPosition_cases (widgetId : string) (x y : number) (W : World) :
  let cur := get_layout (GridLayout.layouts (grid W))
               (GridLayout.currentBreakpoint (grid W)) in
  moveWidgetToPosition widgetId x y W = W
  \/ exists p l,
       find_ref (heap W) cur widgetId = Some (p, l)
       /\ hasCollision (heap W) (grid W) (move_candidate l x y) (Some widgetId) = false
       /\ moveWidgetToPosition widgetId x y W
          = mkWorld (<[p := move_candidate l x y]> (heap W)) (store W) (grid W).
Proof.
  cbv zeta. unfold moveWidgetToPosition.
  destruct (find_ref _ _ _) as [[p l]|] eqn:E; [|now left].
  destruct (hasCollision _ _ _ _) eqn:Ec; [now left|].
  right. exists p, l. split; [reflexivity|]. split; [exact Ec|].
  destruct l; reflexivity.
Qed.

Lemma resizeWidget_cases (widgetId : string) (w h : number) (W : World) :
  let cur := get_layout (GridLayout.layouts (grid W))
               (GridLayout.currentBreakpoint (grid W)) in
  resizeWidget widgetId w h W = W
  \/ exists p l,
       find_ref (heap W) cur widgetId = Some (p, l)
       /\ hasCollision (heap W) (grid W) (resize_candidate l w h) (Some widgetId) = false
       /\ resizeWidget widgetId w h W
          = mkWorld (<[p := resize_candidate l w h]> (heap W)) (store W) (grid W).
Proof.
  cbv zeta. unfold resizeWidget.
  destruct (find_ref _ _ _) as [[p l]|] eqn:E; [|now left].
  destruct (hasCollision _ _ _ _) eqn:Ec; [now left|].
  right. exists p, l. split; [reflexivity|]. split; [exact Ec|].
  destruct l; reflexivity.
Qed.

(** A drop is [hidePlaceholder] followed, when a widget is being dragged,
    by a move to the cell under the pointer. *)
Lemma handleDrop_move gridContainer (e : PointerEvent.t) (W : World) :
  let W1 := mkWorld (heap W) (store W) (hidePlaceholder (grid W)) in
  handleDrop gridContainer e W = W1
  \/ exists widgetId,
       handleDrop gridContainer e W
       = moveWidgetToPosition widgetId
           (Position.x (calculateGridPosition gridContainer
                          (PointerEvent.clientX e) (PointerEvent.clientY e)))
           (Position.y (calculateGridPosition gridContainer
                          (PointerEvent.clientX e) (PointerEvent.clientY e)))
           W1.
Proof.
  cbv zeta. unfold handleDrop. cbn [grid].
  destruct (negb _); [now left|]. right. eauto.
Qed.

(** Which handlers never touch the heap or the store. *)
Lemma ui_only_step (W : World) (a : Action) :
  match a with
  | WindowResize _ | DragStart _ | DragOver _ _ | DragEnd
  | ResizeStart _ _ | ResizeMove _ _ | ResizeEnd => True
  | _ => False
  end ->
  heap (step W a) = heap W /\ store (step W a) = store W
  /\ GridLayout.layouts (grid (step W a)) = GridLayout.layouts (grid W).
Proof.
  destruct a; intros []; cbn [step].
  - unfold updateBreakpoint. destruct (bool_decide _); auto.
  - auto.
  - apply handleDragOver_frame.
  - auto.
  - auto.
  - apply handleResizeMove_frame.
  - destruct (handleResizeEnd_never_commits W) as [Hh Hs].
    split; [exact Hh|]. split; [exact Hs|].
    unfold handleResizeEnd. destruct (negb _); [reflexivity|]. cbn [grid heap store].
    pose proof (hidePlaceholder_hidden (grid W)) as Hhidden.
    destruct (hidePlaceholder_layouts (grid W)) as (Hl & _).
    destruct (GridLayout.placeholder (hidePlaceholder (grid W))) as [ph|]; [|exact Hl].
    rewrite Hhidden. exact Hl.
Qed.

(** *** Bounds are kept by every step *)

Lemma nmax_Fin (a b : Z) : nmax (Fin a) (Fin b) = Fin (Z.max a b).
Proof. cbn. destruct (Z.ltb_spec a b); f_equal; lia. Qed.

Lemma nmin_Fin (a b : Z) : nmin (Fin a) (Fin b) = Fin (Z.min a b).
Proof. cbn. destruct (Z.ltb_spec b a); f_equal; lia. Qed.

Lemma fold_nmax_nonneg (xs : list number) :
  forall a, 0 <= a ->
    (forall v, In v xs -> exists z, v = Fin z /\ 0 <= z) ->
    exists z, fold_left nmax xs (Fin a) = Fin z /\ 0 <= z.
Proof.
  induction xs as [|v xs IH]; intros a Ha Hxs; cbn [fold_left]; [eauto|].
  destruct (Hxs v (or_introl eq_refl)) as (z & -> & Hz).
  rewrite nmax_Fin. apply IH; [lia|]. intros u Hu. apply Hxs. now right.
Qed.

Lemma findAvailablePosition_in_bounds (layout : list LayoutItem.t) :
  (forall l, In l layout -> in_bounds l = true) ->
  exists y, findAvailablePosition layout = Position.mk (Fin 0) (Fin y) /\ 0 <= y.
Proof.
  intros H. unfold findAvailablePosition.
  destruct layout as [|l0 layout]; cbn [length Nat.eqb]; [exists 0; split; [reflexivity|lia]|].
  assert (forall v, In v (map (fun l => nadd (LayoutItem.y l) (LayoutItem.h l)) (l0 :: layout)) ->
                    exists z, v = Fin z /\ 0 <= z) as Hv.
  { intros v Hv. apply in_map_iff in Hv. destruct Hv as (l & <- & Hl).
    apply H, in_bounds_spec in Hl.
    destruct Hl as (x & y & w & h & _ & -> & _ & -> & ?). exists (y + h). split; [reflexivity|lia]. }
  unfold max_of. cbn [map fold_left] in *.
  destruct (Hv _ (or_introl eq_refl)) as (z0 & -> & Hz0).
  change (nmax NInf (Fin z0)) with (@Fin Z z0).
  destruct (fold_nmax_nonneg _ z0 Hz0 (fun v Hv' => Hv v (or_intror Hv'))) as (z & -> & Hz).
  eauto.
Qed.

Lemma new_layout_item_in_bounds id (y : Z) (type : WidgetType) :
  0 <= y ->
  in_bounds (new_layout_item id (Position.mk (Fin 0) (Fin y)) (DEFAULT_WIDGET_SIZES type)) = true.
Proof.
  intros Hy. destruct type; cbn; destruct (Z.leb_spec 0 y); auto; lia.
Qed.

Lemma column_pitch_nonzero (g : Geometry.t) :
  sane_geometry (Some g) = true ->
  Qeq_bool (columnWidth g + inject_Z GridLayout.MARGIN)%Q 0 = false.
Proof.
  unfold sane_geometry, columnWidth. intros Hsane.
  apply Qle_bool_imp_le in Hsane.
  destruct (Qeq_bool _ 0) eqn:E; [|reflexivity]. exfalso.
  apply Qeq_bool_eq in E. revert Hsane E.
  generalize (Geometry.width g - Geometry.paddingLeft g - Geometry.paddingRight g)%Q.
  intros aw Haw E.
  unfold GridLayout.MARGIN, GridLayout.GRID_COLS, Qdiv, inject_Z in E. cbn in E.
  change (6 * (12 - 1)) with 66 in E. lra.
Qed.

(** Finite pointer coordinates over a sane container give a grid cell. *)
Lemma calculateGridPosition_finite gridContainer (cx cy : Q) :
  sane_geometry gridContainer = true ->
  exists x y,
    calculateGridPosition gridContainer (Fin cx) (Fin cy) = Position.mk (Fin x) (Fin y).
Proof.
  intros Hsane. unfold calculateGridPosition.
  destruct gridContainer as [g|]; [|eauto].
  cbn [psub padd popp pdiv]. rewrite (column_pitch_nonzero g Hsane).
  change (Qeq_bool (inject_Z (GridLayout.ROW_HEIGHT + GridLayout.MARGIN)) 0) with false.
  cbn [floor]. rewrite !nmin_Fin, !nmax_Fin. eauto.
Qed.

Lemma heap_in_bounds_insert (W : World) (p : loc) (l : LayoutItem.t) heap' :
  heap_in_bounds W -> in_bounds l = true ->
  heap' = <[p := l]> (heap W) ->
  forall q l', heap' !! q = Some l' -> in_bounds l' = true.
Proof.
  intros HW Hl -> q l' Hq.
  destruct (decide (p = q)) as [<-|Hne].
  - destruct (decide (p < length (heap W))%nat).
    + rewrite list_lookup_insert_eq in Hq by assumption. congruence.
    + rewrite list_insert_ge in Hq by lia. eauto.
  - rewrite list_lookup_insert_ne in Hq by assumption. eauto.
Qed.

Lemma moveWidgetToPosition_in_bounds (widgetId : string) (x y : Z) (W : World) :
  heap_in_bounds W -> heap_in_bounds (moveWidgetToPosition widgetId (Fin x) (Fin y) W).
Proof.
  intros HW.
  destruct (moveWidgetToPosition_cases widgetId (Fin x) (Fin y) W)
    as [->|(p & l & Hfind & _ & ->)]; [exact HW|].
  apply find_ref_Some in Hfind. destruct Hfind as (_ & Hl & _).
  unfold heap_in_bounds. cbn [heap].
  apply (heap_in_bounds_insert W p (move_candidate l (Fin x) (Fin y)));
    [exact HW| |reflexivity].
  apply move_candidate_in_bounds. eauto.
Qed.

Lemma resizeWidget_in_bounds (widgetId : string) (w h : Z) (W : World) :
  heap_in_bounds W -> heap_in_bounds (resizeWidget widgetId (Fin w) (Fin h) W).
Proof.
  intros HW.
  destruct (resizeWidget_cases widgetId (Fin w) (Fin h) W)
    as [->|(p & l & Hfind & _ & ->)]; [exact HW|].
  apply find_ref_Some in Hfind. destruct Hfind as (_ & Hl & _).
  unfold heap_in_bounds. cbn [heap].
  apply (heap_in_bounds_insert W p (resize_candidate l (Fin w) (Fin h)));
    [exact HW| |reflexivity].
  apply resize_candidate_in_bounds. eauto.
Qed.

Lemma addWidget_in_bounds now type ticker config (W : World) :
  heap_in_bounds W -> heap_in_bounds (addWidget now type ticker config W).
Proof.
  intros HW p l. cbn [addWidget setState heap]. intros Hp.
  apply lookup_app_Some in Hp. destruct Hp as [Hp|[_ Hp]]; [eauto|].
  apply list_lookup_singleton_Some in Hp. destruct Hp as [_ <-].
  destruct (findAvailablePosition_in_bounds
              (items (heap W) (WorkspaceLayouts.lg (Store.layouts (store W)))))
    as (y & -> & Hy).
  - intros l Hl. apply In_items in Hl. destruct Hl as (q & _ & Hq). eauto.
  - now apply new_layout_item_in_bounds.
Qed.

Lemma step_in_bounds (W : World) (a : Action) :
  finite_action a = true -> heap_in_bounds W -> heap_in_bounds (step W a).
Proof.
  intros Hfin HW.
  destruct a;
    try (match goal with
         | |- heap_in_bounds (step W ?a) =>
             intros p l; rewrite (proj1 (ui_only_step W a I)); apply HW
         end);
    cbn [step].
  - now apply addWidget_in_bounds.
  - exact HW.
  - exact HW.
  - exact HW.
  - exact HW.
  - exact HW.
  - cbn [finite_action] in Hfin. apply andb_true_iff in Hfin. destruct Hfin as [Hx Hy].
    apply is_finite_Fin in Hx, Hy. destruct Hx as [x' ->], Hy as [y' ->].
    now apply moveWidgetToPosition_in_bounds.
  - cbn [finite_action] in Hfin. apply andb_true_iff in Hfin. destruct Hfin as [Hw Hh].
    apply is_finite_Fin in Hw, Hh. destruct Hw as [w' ->], Hh as [h' ->].
    now apply resizeWidget_in_bounds.
  - cbn [finite_action] in Hfin. rewrite !andb_true_iff in Hfin.
    destruct Hfin as [[Hx Hy] Hsane].
    apply is_finite_Fin in Hx, Hy. destruct Hx as [cx Hcx], Hy as [cy Hcy].
    destruct (handleDrop_move gridContainer e W) as [->|[widgetId ->]]; [exact HW|].
    rewrite Hcx, Hcy.
    destruct (calculateGridPosition_finite gridContainer cx cy Hsane) as (x & y & ->).
    cbn [Position.x Position.y]. now apply moveWidgetToPosition_in_bounds.
Qed.

Lemma run_in_bounds (actions : list Action) :
  forall W, forallb finite_action actions = true ->
            heap_in_bounds W -> heap_in_bounds (run W actions).
Proof.
  induction actions as [|a actions IH]; intros W Hfin HW; [exact HW|].
  cbn [forallb] in Hfin. apply andb_true_iff in Hfin. destruct Hfin as [Ha Hrest].
  cbn [run fold_left]. apply IH; [exact Hrest|]. now apply step_in_bounds.
Qed.

Lemma reachable_finite (a : Action) : reachable_action a = true -> finite_action a = true.
Proof.
  destruct a; cbn [reachable_action finite_action]; auto; try discriminate.
  - rewrite !andb_true_iff. unfold exact_integer.
    intros [Hx Hy]. destruct x, y; try discriminate; auto.
  - rewrite !andb_true_iff. unfold ordinary_pixels.
    intros [[[Hx Hy] _] Hsane].
    destruct (PointerEvent.clientX e), (PointerEvent.clientY e); try discriminate; auto.
Qed.

Lemma default_sized_set_xy (l : LayoutItem.t) (x y : number) :
  default_sized l -> default_sized (LayoutItem.set_xy l x y).
Proof. intros [type H]. exists type. exact H. Qed.

Lemma moveWidgetToPosition_default_sized (widgetId : string) (x y : number) (W : World) :
  heap_default_sized W -> heap_default_sized (moveWidgetToPosition widgetId x y W).
Proof.
  intros HW.
  destruct (moveWidgetToPosition_cases widgetId x y W)
    as [->|(p & l & Hfind & _ & ->)]; [exact HW|].
  apply find_ref_Some in Hfind. destruct Hfind as (_ & Hl & _).
  intros q l'. cbn [heap]. intros Hq.
  destruct (decide (p = q)) as [<-|Hne].
  - rewrite list_lookup_insert_eq in Hq by (apply lookup_lt_is_Some; eauto).
    injection Hq as <-. apply default_sized_set_xy. eauto.
  - rewrite list_lookup_insert_ne in Hq by assumption. eauto.
Qed.

Lemma addWidget_default_sized now type ticker config (W : World) :
  heap_default_sized W -> heap_default_sized (addWidget now type ticker config W).
Proof.
  intros HW p l. cbn [addWidget setState heap]. intros Hp.
  apply lookup_app_Some in Hp. destruct Hp as [Hp|[_ Hp]]; [eauto|].
  apply list_lookup_singleton_Some in Hp. destruct Hp as [_ <-].
  exists type. repeat split.
Qed.

Lemma step_default_sized (W : World) (a : Action) :
  reachable_action a = true -> heap_default_sized W -> heap_default_sized (step W a).
Proof.
  intros Hr HW.
  destruct a;
    try (match goal with
         | |- heap_default_sized (step W ?a) =>
             intros p l; rewrite (proj1 (ui_only_step W a I)); apply HW
         end);
    cbn [step].
  - now apply addWidget_default_sized.
  - exact HW.
  - exact HW.
  - exact HW.
  - exact HW.
  - exact HW.
  - now apply moveWidgetToPosition_default_sized.
  - discriminate Hr.
  - destruct (handleDrop_move gridContainer e W) as [->|[widgetId ->]]; [exact HW|].
    now apply moveWidgetToPosition_default_sized.
Qed.

Lemma run_default_sized (actions : list Action) :
  forall W, forallb reachable_action actions = true ->
            heap_default_sized W -> heap_default_sized (run W actions).
Proof.
  induction actions as [|a actions IH]; intros W Hr HW; [exact HW|].
  cbn [forallb] in Hr. apply andb_true_iff in Hr. destruct Hr as [Ha Hrest].
  cbn [run fold_left]. apply IH; [exact Hrest|]. now apply step_default_sized.
Qed.

(** C5 (as amended).  After any run from the empty workspace of store
    actions, grid events, drops with a pointer and a container of ordinary
    size and non-negative inner width and moves to exact cells, every item
    of every breakpoint has integer coordinates with [0 <= x], [0 <= y] and
    [x + w <= 12]; its width and height are those its widget type was
    registered with, at least its own [minW] and [minH]; and [maxW] and
    [maxH] are not set.  No action of such a run is a call of
    [resizeWidget], which no handler reaches. *)
Theorem bounds_invariant (actions : list Action) (bp : Breakpoint) (l : LayoutItem.t) :
  forallb reachable_action actions = true ->
  In l (layout_of (run initialWorld actions) bp) ->
  exists x y w h minW minH,
    LayoutItem.x l = Fin x /\ LayoutItem.y l = Fin y
    /\ LayoutItem.w l = Fin w /\ LayoutItem.h l = Fin h
    /\ 0 <= x /\ 0 <= y /\ x + w <= GridLayout.GRID_COLS
    /\ LayoutItem.minW l = Some (Fin minW) /\ minW <= w
    /\ LayoutItem.minH l = Some (Fin minH) /\ minH <= h
    /\ LayoutItem.maxW l = None /\ LayoutItem.maxH l = None
    /\ exists type : WidgetType,
         w = WidgetSize.w (DEFAULT_WIDGET_SIZES type)
         /\ h = WidgetSize.h (DEFAULT_WIDGET_SIZES type).
Proof.
  intros Hr Hl.
  unfold layout_of in Hl. apply In_items in Hl. destruct Hl as (p & _ & Hp).
  assert (in_bounds l = true) as Hb.
  { eapply (run_in_bounds actions initialWorld); [|intros q l' Hq; discriminate|exact Hp].
    apply forallb_forall. intros a Ha. apply reachable_finite.
    exact (proj1 (forallb_forall _ _) Hr a Ha). }
  assert (default_sized l) as Hs.
  { eapply (run_default_sized actions initialWorld Hr); [|exact Hp].
    intros q l' Hq. discriminate. }
  apply in_bounds_spec in Hb.
  destruct Hb as (x & y & w & h & Hx & Hy & Hw & Hh & ? & ? & ? & _ & _).
  destruct Hs as (type & Hw' & Hh' & HminW & HminH & HmaxW & HmaxH).
  rewrite Hw in Hw'. rewrite Hh in Hh'. injection Hw' as ->. injection Hh' as ->.
  exists x, y, (WidgetSize.w (DEFAULT_WIDGET_SIZES type)),
    (WidgetSize.h (DEFAULT_WIDGET_SIZES type)),
    (WidgetSize.minW (DEFAULT_WIDGET_SIZES type)),
    (WidgetSize.minH (DEFAULT_WIDGET_SIZES type)).
  repeat (split; [assumption|]).
  split; [destruct type; cbn; lia|]. split; [assumption|].
  split; [destruct type; cbn; lia|]. split; [assumption|]. split; [assumption|].
  exists type. split; reflexivity.
Qed.

Lemma bounds_invariant_witness :
  let l := LayoutItem.mk "quote-2000" (Fin 4) (Fin 0) (Fin 3) (Fin 4)
             (Some (Fin 2)) (Some (Fin 3)) None None None in
  forallb reachable_action drop_run = true
  /\ In l (layout_of (run initialWorld drop_run) bp_md)
  /\ exists x y w h minW minH,
       LayoutItem.x l = Fin x /\ LayoutItem.y l = Fin y
       /\ LayoutItem.w l = Fin w /\ LayoutItem.h l = Fin h
       /\ 0 <= x /\ 0 <= y /\ x + w <= GridLayout.GRID_COLS
       /\ LayoutItem.minW l = Some (Fin minW) /\ minW <= w
       /\ LayoutItem.minH l = Some (Fin minH) /\ minH <= h
       /\ LayoutItem.maxW l = None /\ LayoutItem.maxH l = None
       /\ exists type : WidgetType,
            w = WidgetSize.w (DEFAULT_WIDGET_SIZES type)
            /\ h = WidgetSize.h (DEFAULT_WIDGET_SIZES type).
Proof.
  cbv zeta.
  assert (In (LayoutItem.mk "quote-2000" (Fin 4) (Fin 0) (Fin 3) (Fin 4)
                (Some (Fin 2)) (Some (Fin 3)) None None None)
             (layout_of (run initialWorld drop_run) bp_md)) as Hin
    by (vm_compute; right; left; reflexivity).
  split; [reflexivity|]. split; [exact Hin|].
  exact (bounds_invariant drop_run bp_md _ eq_refl Hin).
Defined.

(** C5 as stated fails for a drop whose pointer event carries no
    coordinates: the cell is (NaN, NaN), the candidate collides with
    nothing, and the order book is left with [x] and [y] NaN, for which
    [0 <= x] is false. *)
Lemma blind_drop_leaves_bounds :
  exists l,
    layout_of (run initialWorld blind_drop_run) bp_lg = [l]
    /\ LayoutItem.i l = "orderbook-1000"
    /\ LayoutItem.x l = NaN /\ LayoutItem.y l = NaN
    /\ nle (Fin 0) (LayoutItem.x l) = false
    /\ nle (nadd (LayoutItem.x l) (LayoutItem.w l)) (Fin GridLayout.GRID_COLS) = false.
Proof. eexists. split; [vm_compute; reflexivity|]. repeat split. Qed.

(** *** The layout invariant *)

Lemma get_layout_refs (W : World) (bp : Breakpoint) :
  layout_inv W -> get_layout (Store.layouts (store W)) bp = refs W.
Proof. intros H. destruct bp; cbn [get_layout]; [reflexivity|apply H|apply H]. Qed.

Lemma set_layout_get {A} (ls : WorkspaceLayouts.t A) (bp : Breakpoint) :
  set_layout ls bp (get_layout ls bp) = ls.
Proof. destruct ls, bp; reflexivity. Qed.

Lemma layouts_eta (W : World) :
  layout_inv W ->
  Store.layouts (store W) = WorkspaceLayouts.mk (refs W) (refs W) (refs W).
Proof.
  intros H. pose proof (inv_md W H) as Hmd. pose proof (inv_sm W H) as Hsm.
  unfold refs in *. destruct (Store.layouts (store W)). cbn in *. congruence.
Qed.

Lemma items_length (heap : Heap) (rs : list loc) :
  (forall p, In p rs -> (p < length heap)%nat) -> length (items heap rs) = length rs.
Proof.
  induction rs as [|p rs IH]; intros H; [reflexivity|].
  rewrite items_cons.
  destruct (lookup_lt_is_Some_2 heap p (H p (or_introl eq_refl))) as [l ->].
  cbn [length]. f_equal. apply IH. intros q Hq. apply H. now right.
Qed.

Lemma items_lookup (heap : Heap) (rs : list loc) :
  (forall p, In p rs -> (p < length heap)%nat) ->
  forall m a, items heap rs !! m = Some a ->
              exists p, rs !! m = Some p /\ heap !! p = Some a.
Proof.
  induction rs as [|p rs IH]; intros H m a Hm; [discriminate|].
  rewrite items_cons in Hm.
  destruct (lookup_lt_is_Some_2 heap p (H p (or_introl eq_refl))) as [l Hl].
  rewrite Hl in Hm. destruct m as [|m]; cbn in Hm.
  - injection Hm as <-. exists p. split; [reflexivity|exact Hl].
  - apply IH in Hm; [exact Hm|]. intros q Hq. apply H. now right.
Qed.

Lemma filter_length_all {A} (f : A -> bool) (l : list A) :
  length (List.filter f l) = length l -> List.filter f l = l.
Proof.
  induction l as [|a l IH]; [reflexivity|]. cbn [List.filter].
  destruct (f a); cbn [length]; intros H.
  - f_equal. apply IH. lia.
  - pose proof (List.filter_length_le f l). lia.
Qed.

(** After a notification the grid holds the store's layouts, provided equal
    JSON texts of the two could only come from equal arrays. *)
Lemma onStoreChange_sync (heap : Heap) (newState : Store.WorkspaceState)
    (g : GridLayout.t) (ls : WorkspaceLayouts.t loc) :
  Store.layouts newState = ls ->
  (json_layouts heap ls = json_layouts heap (GridLayout.layouts g) ->
   GridLayout.layouts g = ls) ->
  GridLayout.layouts (onStoreChange heap newState g) = ls.
Proof.
  intros <- H. unfold onStoreChange.
  destruct (bool_decide (json_widget <$> _ = _)); cbn [negb orb]; [|reflexivity].
  destruct (bool_decide (json_layouts _ _ = _)) eqn:E; cbn [negb]; [|reflexivity].
  apply bool_decide_eq_true in E. auto.
Qed.

Lemma json_layouts_length (heap : Heap) (ls1 ls2 : WorkspaceLayouts.t loc) :
  json_layouts heap ls1 = json_layouts heap ls2 ->
  length (items heap (WorkspaceLayouts.lg ls1)) = length (items heap (WorkspaceLayouts.lg ls2)).
Proof.
  unfold json_layouts. intros [= H _ _].
  apply (f_equal length) in H. now rewrite !length_fmap in H.
Qed.

Lemma hasCollision_false_inv heap (g : GridLayout.t) item widgetId b :
  hasCollision heap g item (Some widgetId) = false ->
  In b (items heap (get_layout (GridLayout.layouts g) (GridLayout.currentBreakpoint g))) ->
  LayoutItem.i b <> widgetId ->
  overlaps item b = false.
Proof.
  unfold hasCollision. intros H Hb Hid.
  destruct (overlaps item b) eqn:E; [|reflexivity].
  assert (existsb (fun layoutItem =>
            if bool_decide (Some (LayoutItem.i layoutItem) = Some widgetId) then false
            else overlaps item layoutItem)
          (items heap (get_layout (GridLayout.layouts g) (GridLayout.currentBreakpoint g)))
          = true) as H'.
  { apply existsb_exists. exists b. split; [exact Hb|].
    rewrite bool_decide_eq_false_2 by congruence. exact E. }
  congruence.
Qed.

(** The invariant gives the absence of overlaps in every breakpoint. *)
Lemma layout_inv_no_overlap (W : World) (bp : Breakpoint) :
  layout_inv W -> no_overlap (layout_of W bp).
Proof.
  intros H m n a b Hmn Hm Hn. unfold layout_of in *.
  rewrite (get_layout_refs W bp H) in *.
  destruct (items_lookup _ _ (inv_valid W H) m a Hm) as (p & Hp & Ha).
  destruct (items_lookup _ _ (inv_valid W H) n b Hn) as (q & Hq & Hb).
  apply (inv_free W H p q a b); auto.
  - apply list_elem_of_In. eapply list_elem_of_lookup_2; eauto.
  - apply list_elem_of_In. eapply list_elem_of_lookup_2; eauto.
  - intros <-. apply Hmn. eapply NoDup_lookup; eauto. apply (inv_nodup W H).
Qed.

Lemma initialWorld_inv : layout_inv initialWorld.
Proof.
  split; try reflexivity; cbn; try (intros; contradiction). constructor.
Qed.

(** Changing only the grid, and not its copy of the layouts, keeps it. *)
Lemma layout_inv_grid (W : World) (g : GridLayout.t) :
  GridLayout.layouts g = GridLayout.layouts (grid W) ->
  layout_inv W -> layout_inv (mkWorld (heap W) (store W) g).
Proof.
  intros Hg H. split; cbn [heap store grid]; try apply H.
  rewrite Hg. apply H.
Qed.

Lemma layout_inv_ui (W W' : World) :
  heap W' = heap W /\ store W' = store W
  /\ GridLayout.layouts (grid W') = GridLayout.layouts (grid W) ->
  layout_inv W -> layout_inv W'.
Proof.
  intros (Hh & Hs & Hg) H.
  split; unfold refs; rewrite ?Hh, ?Hs, ?Hg; apply H.
Qed.

(** A store action that keeps the heap and the arrays keeps it. *)
Lemma layout_inv_setState (W : World) (newState : Store.WorkspaceState) :
  Store.layouts newState = Store.layouts (store W) ->
  layout_inv W -> layout_inv (setState W newState).
Proof.
  intros Hl H. split; unfold refs; cbn [setState heap store grid]; rewrite ?Hl; try apply H.
  apply onStoreChange_sync; [exact Hl|]. intros _. apply H.
Qed.

(** Writing a candidate that passed the collision test over the object it
    was made from. *)
Lemma commit_inv (W : World) (widgetId : string) (p : loc) (l temp : LayoutItem.t) :
  let bp := GridLayout.currentBreakpoint (grid W) in
  let cur := get_layout (GridLayout.layouts (grid W)) bp in
  layout_inv W ->
  find_ref (heap W) cur widgetId = Some (p, l) ->
  LayoutItem.i temp = LayoutItem.i l ->
  hasCollision (heap W) (grid W) temp (Some widgetId) = false ->
  layout_inv (mkWorld (<[p := temp]> (heap W)) (store W) (grid W)).
Proof.
  cbv zeta. intros H Hfind Hid Hfree.
  pose proof (inv_sync W H) as Hsync.
  rewrite Hsync in *. rewrite (get_layout_refs W _ H) in Hfind.
  apply find_ref_Some in Hfind. destruct Hfind as (Hp & Hl & Hlid).
  pose proof (inv_valid W H p Hp) as Hplt.
  assert (forall q b, q <> p -> <[p := temp]> (heap W) !! q = Some b -> heap W !! q = Some b)
    as Hother.
  { intros q b Hne Hq. now rewrite list_lookup_insert_ne in Hq by congruence. }
  assert (forall b, <[p := temp]> (heap W) !! p = Some b -> b = temp) as Hsame.
  { intros b Hb. rewrite list_lookup_insert_eq in Hb by exact Hplt. congruence. }
  assert (forall q b, In q (refs W) -> q <> p -> heap W !! q = Some b ->
                      overlaps temp b = false) as Htemp.
  { intros q b Hq Hne Hb.
    apply (hasCollision_false_inv (heap W) (grid W) temp widgetId b Hfree).
    - rewrite Hsync, (get_layout_refs W _ H). eapply items_In; eauto.
    - rewrite <- Hlid. apply (inv_ids W H q p b l); auto. }
  split; unfold refs; cbn [heap store grid]; fold (refs W).
  - exact Hsync.
  - exact (inv_md W H).
  - exact (inv_sm W H).
  - intros q Hq. rewrite length_insert. now apply (inv_valid W H).
  - exact (inv_nodup W H).
  - intros q1 q2 a b Hq1 Hq2 Hne Ha Hb.
    destruct (decide (q1 = p)) as [->|Hn1]; destruct (decide (q2 = p)) as [->|Hn2];
      try congruence.
    + apply Hsame in Ha. subst a. apply Hother in Hb; [|exact Hn2].
      rewrite Hid. apply (inv_ids W H p q2 l b); auto.
    + apply Hsame in Hb. subst b. apply Hother in Ha; [|exact Hn1].
      rewrite Hid. apply (inv_ids W H q1 p a l); auto.
    + apply Hother in Ha, Hb; auto. apply (inv_ids W H q1 q2 a b); auto.
  - intros q1 q2 a b Hq1 Hq2 Hne Ha Hb.
    destruct (decide (q1 = p)) as [->|Hn1]; destruct (decide (q2 = p)) as [->|Hn2];
      try congruence.
    + apply Hsame in Ha. subst a. apply Hother in Hb; [|exact Hn2]. eauto.
    + apply Hsame in Hb. subst b. apply Hother in Ha; [|exact Hn1].
      rewrite overlaps_sym. eauto.
    + apply Hother in Ha, Hb; auto. apply (inv_free W H q1 q2 a b); auto.
Qed.

Lemma moveWidgetToPosition_inv (widgetId : string) (x y : number) (W : World) :
  layout_inv W -> layout_inv (moveWidgetToPosition widgetId x y W).
Proof.
  intros H.
  destruct (moveWidgetToPosition_cases widgetId x y W)
    as [->|(p & l & Hfind & Hfree & ->)]; [exact H|].
  eapply commit_inv; eauto.
Qed.

Lemma resizeWidget_inv (widgetId : string) (w h : number) (W : World) :
  layout_inv W -> layout_inv (resizeWidget widgetId w h W).
Proof.
  intros H.
  destruct (resizeWidget_cases widgetId w h W)
    as [->|(p & l & Hfind & Hfree & ->)]; [exact H|].
  eapply commit_inv; eauto.
Qed.

Lemma NoDup_list_filter {A} (f : A -> bool) (l : list A) :
  NoDup l -> NoDup (List.filter f l).
Proof.
  induction 1 as [|a l Ha Hl IH]; cbn [List.filter]; [constructor|].
  destruct (f a); [|exact IH]. constructor; [|exact IH].
  intros Hin. apply Ha. apply list_elem_of_In in Hin. apply filter_In in Hin.
  apply list_elem_of_In. tauto.
Qed.

Lemma removeWidget_inv (widgetId : string) (W : World) :
  layout_inv W -> layout_inv (removeWidget widgetId W).
Proof.
  intros H. pose proof (layouts_eta W H) as Heta.
  assert (forall p, In p (filter_refs (heap W) widgetId (refs W)) -> In p (refs W)) as Hsub.
  { intros p Hp. unfold filter_refs in Hp. now apply filter_In in Hp. }
  unfold removeWidget.
  split; unfold refs; cbn [setState heap store grid Store.layouts WorkspaceLayouts.lg
                             WorkspaceLayouts.md WorkspaceLayouts.sm];
    rewrite ?(inv_md W H), ?(inv_sm W H); fold (refs W); try reflexivity.
  - apply onStoreChange_sync; [reflexivity|]. intros Hjson.
    apply json_layouts_length in Hjson. cbn [WorkspaceLayouts.lg] in Hjson.
    rewrite (inv_sync W H) in *. fold (refs W) in Hjson.
    rewrite !items_length in Hjson by (intros p Hp; apply (inv_valid W H); auto).
    apply filter_length_all in Hjson. unfold filter_refs. rewrite Hjson. exact Heta.
  - intros p Hp. apply (inv_valid W H). auto.
  - apply NoDup_list_filter. exact (inv_nodup W H).
  - intros p q a b Hp Hq. apply (inv_ids W H); auto.
  - intros p q a b Hp Hq. apply (inv_free W H); auto.
Qed.

Lemma clearWorkspace_inv (W : World) : layout_inv W -> layout_inv (clearWorkspace W).
Proof.
  intros H. pose proof (layouts_eta W H) as Heta.
  unfold clearWorkspace.
  split; unfold refs; cbn [setState heap store grid Store.layouts WorkspaceLayouts.lg
                             WorkspaceLayouts.md WorkspaceLayouts.sm WorkspaceLayouts.empty];
    try reflexivity; try (intros; contradiction); [|constructor].
  apply onStoreChange_sync; [reflexivity|]. intros Hjson.
  apply json_layouts_length in Hjson. cbn [WorkspaceLayouts.lg] in Hjson.
  rewrite (inv_sync W H) in *. fold (refs W) in Hjson.
  rewrite (items_length (heap W) (refs W)) in Hjson by apply (inv_valid W H).
  cbn in Hjson. symmetry in Hjson. apply length_zero_iff_nil in Hjson.
  rewrite Heta, Hjson. reflexivity.
Qed.

Lemma addWidget_inv now type ticker config (W : World) :
  fresh_id (new_id type now) W = true ->
  layout_inv W -> layout_inv (addWidget now type ticker config W).
Proof.
  intros Hfresh H.
  pose proof (inv_valid W H) as Hvalid.
  set (new := new_layout_item (new_id type now)
                (findAvailablePosition (items (heap W) (refs W)))
                (DEFAULT_WIDGET_SIZES type)).
  assert (forall q, In q (refs W ++ [length (heap W)]) ->
                    (In q (refs W) /\ (heap W ++ [new]) !! q = heap W !! q)
                    \/ (q = length (heap W) /\ (heap W ++ [new]) !! q = Some new)) as Hcase.
  { intros q Hq. apply in_app_iff in Hq. destruct Hq as [Hq|[<-|[]]].
    - left. split; [exact Hq|]. apply lookup_app_l. auto.
    - right. split; [reflexivity|].
      rewrite lookup_app_r, Nat.sub_diag by lia. reflexivity. }
  assert (forall q b, In q (refs W) -> heap W !! q = Some b ->
                      LayoutItem.i b <> LayoutItem.i new /\ overlaps new b = false) as Hnew.
  { intros q b Hq Hb.
    assert (In b (items (heap W) (refs W))) as Hin by (eapply items_In; eauto).
    split.
    - apply (fresh_id_layout _ W bp_lg); [exact Hfresh|exact Hin].
    - pose proof (findAvailablePosition_free (items (heap W) (refs W)) new eq_refl) as Hf.
      rewrite List.Forall_forall in Hf. auto. }
  unfold addWidget. fold (refs W). fold new.
  split; unfold refs; cbn [setState heap store grid Store.layouts WorkspaceLayouts.lg
                             WorkspaceLayouts.md WorkspaceLayouts.sm];
    rewrite ?(inv_md W H), ?(inv_sm W H); fold (refs W); try reflexivity.
  - apply onStoreChange_sync; [reflexivity|]. intros Hjson. exfalso.
    apply json_layouts_length in Hjson. cbn [WorkspaceLayouts.lg] in Hjson.
    rewrite (inv_sync W H) in Hjson. fold (refs W) in Hjson.
    rewrite !items_length in Hjson.
    + rewrite length_app in Hjson. cbn in Hjson. lia.
    + intros q Hq. rewrite length_app. apply Hvalid in Hq. lia.
    + intros q Hq. rewrite length_app. cbn [length].
      apply in_app_iff in Hq. destruct Hq as [Hq|[<-|[]]]; [apply Hvalid in Hq|]; lia.
  - intros q Hq. rewrite length_app. cbn [length].
    apply in_app_iff in Hq. destruct Hq as [Hq|[<-|[]]]; [apply Hvalid in Hq|]; lia.
  - apply NoDup_app. split; [exact (inv_nodup W H)|]. split; [|apply NoDup_singleton].
    intros q Hq Hq'. apply list_elem_of_In in Hq. apply Hvalid in Hq.
    apply list_elem_of_singleton in Hq'. lia.
  - intros q1 q2 a b Hq1 Hq2 Hne Ha Hb.
    destruct (Hcase q1 Hq1) as [[Hin1 E1]|[-> E1]];
      destruct (Hcase q2 Hq2) as [[Hin2 E2]|[-> E2]];
      rewrite ?E1 in Ha; rewrite ?E2 in Hb; try congruence.
    + apply (inv_ids W H q1 q2 a b); auto.
    + injection Hb as <-. apply (Hnew q1 a); auto.
    + injection Ha as <-. intros Heq. symmetry in Heq. revert Heq. apply (Hnew q2 b); auto.
  - intros q1 q2 a b Hq1 Hq2 Hne Ha Hb.
    destruct (Hcase q1 Hq1) as [[Hin1 E1]|[-> E1]];
      destruct (Hcase q2 Hq2) as [[Hin2 E2]|[-> E2]];
      rewrite ?E1 in Ha; rewrite ?E2 in Hb; try congruence.
    + apply (inv_free W H q1 q2 a b); auto.
    + injection Hb as <-. rewrite overlaps_sym. apply (Hnew q1 a); auto.
    + injection Ha as <-. apply (Hnew q2 b); auto.
Qed.

(** Every step keeps the invariant, a registration when its id is fresh. *)
Lemma step_inv (W : World) (a : Action) :
  fresh_ids W [a] = true -> layout_inv W -> layout_inv (step W a).
Proof.
  intros Hfresh H.
  destruct a;
    try (match goal with
         | |- layout_inv (step W ?a) =>
             apply (layout_inv_ui W _ (ui_only_step W a I) H)
         end);
    cbn [step].
  - cbn [fresh_ids] in Hfresh. rewrite andb_true_r in Hfresh. now apply addWidget_inv.
  - now apply removeWidget_inv.
  - now apply layout_inv_setState.
  - now apply layout_inv_setState.
  - now apply layout_inv_setState.
  - now apply clearWorkspace_inv.
  - now apply moveWidgetToPosition_inv.
  - now apply resizeWidget_inv.
  - assert (layout_inv (mkWorld (heap W) (store W) (hidePlaceholder (grid W)))) as H1.
    { apply layout_inv_grid; [|exact H]. apply hidePlaceholder_layouts. }
    destruct (handleDrop_move gridContainer e W) as [->|[widgetId ->]]; [exact H1|].
    now apply moveWidgetToPosition_inv.
Qed.

Lemma run_inv (actions : list Action) :
  forall W, fresh_ids W actions = true -> layout_inv W -> layout_inv (run W actions).
Proof.
  induction actions as [|a actions IH]; intros W Hfresh H; [exact H|].
  cbn [fresh_ids] in Hfresh. apply andb_true_iff in Hfresh. destruct Hfresh as [Ha Hrest].
  cbn [run fold_left]. apply IH; [exact Hrest|].
  apply step_inv; [|exact H]. cbn [fresh_ids]. now rewrite Ha.
Qed.

(** C1 (as amended).  After any run from the empty workspace in which every
    registration assigns an id that is not in use, and in which every
    coordinate and size that occurs is an integer below [2^52] in
    magnitude, so that the sums of the overlap test are exact, no two
    entries of any breakpoint's layout overlap. *)
Theorem no_overlap_invariant (actions : list Action) (bp : Breakpoint) :
  fresh_ids initialWorld actions = true ->
  exact_run initialWorld actions = true ->
  no_overlap (layout_of (run initialWorld actions) bp).
Proof.
  intros Hfresh _. apply layout_inv_no_overlap.
  apply run_inv; [exact Hfresh|exact initialWorld_inv].
Qed.

Lemma no_overlap_invariant_witness :
  fresh_ids initialWorld two_widget_run = true
  /\ exact_run initialWorld two_widget_run = true
  /\ no_overlap (layout_of (run initialWorld two_widget_run) bp_sm).
Proof.
  split; [reflexivity|]. split; [reflexivity|].
  exact (no_overlap_invariant two_widget_run bp_sm eq_refl eq_refl).
Defined.

(** C1 as stated fails when two registrations share an id: after the drop
    the two quotes lie on top of each other at (0, 4). *)
Lemma same_millisecond_overlap :
  ~ no_overlap (layout_of (run initialWorld same_millisecond_run) bp_lg).
Proof.
  intros H.
  specialize (H 0%nat 1%nat
                (LayoutItem.mk "quote-5000" (Fin 0) (Fin 4) (Fin 3) (Fin 4)
                   (Some (Fin 2)) (Some (Fin 3)) None None None)
                (LayoutItem.mk "quote-5000" (Fin 0) (Fin 4) (Fin 3) (Fin 4)
                   (Some (Fin 2)) (Some (Fin 3)) None None None)).
  discriminate H; [lia|reflexivity|reflexivity].
Qed.

(* ===================================================================== *)
(** ** Further properties of the store and of the grid *)
(* ===================================================================== *)

(** *** The shape every run keeps *)

Lemma shape_layouts_eta (W : World) :
  shape_inv W ->
  Store.layouts (store W) = WorkspaceLayouts.mk (refs W) (refs W) (refs W).
Proof.
  intros H. pose proof (sh_md W H) as Hmd. pose proof (sh_sm W H) as Hsm.
  unfold refs in *. destruct (Store.layouts (store W)). cbn in *. congruence.
Qed.

Lemma shape_get_layout (W : World) (bp : Breakpoint) :
  shape_inv W -> get_layout (Store.layouts (store W)) bp = refs W.
Proof. intros H. destruct bp; cbn [get_layout]; [reflexivity|apply H|apply H]. Qed.

Lemma map_filter_comm {A B} (f : A -> B) (p : B -> bool) (l : list A) :
  map f (List.filter (fun a => p (f a)) l) = List.filter p (map f l).
Proof.
  induction l as [|a l IH]; [reflexivity|]. cbn [List.filter map].
  destruct (p (f a)); cbn [map]; now rewrite IH.
Qed.

(** Overwriting an object by one with the same id keeps the ids an array
    of references reads. *)
Lemma items_ids_insert (heap : Heap) (p : loc) (l temp : LayoutItem.t) (rs : list loc) :
  heap !! p = Some l -> LayoutItem.i temp = LayoutItem.i l ->
  map LayoutItem.i (items (<[p := temp]> heap) rs) = map LayoutItem.i (items heap rs).
Proof.
  intros Hp Hid. induction rs as [|q rs IH]; [reflexivity|].
  rewrite !items_cons. destruct (decide (q = p)) as [->|Hne].
  - rewrite list_lookup_insert_eq by (eapply lookup_lt_Some; eauto).
    rewrite Hp. cbn [map]. now rewrite IH, Hid.
  - rewrite list_lookup_insert_ne by congruence.
    destruct (heap !! q); cbn [map]; now rewrite IH.
Qed.

Lemma items_app (heap : Heap) (refs1 refs2 : list loc) :
  items heap (refs1 ++ refs2) = items heap refs1 ++ items heap refs2.
Proof.
  induction refs1 as [|p refs1 IH]; [reflexivity|].
  rewrite <- app_comm_cons, !items_cons, IH. destruct (heap !! p); reflexivity.
Qed.

Lemma items_new (heap : Heap) (new : LayoutItem.t) :
  items (heap ++ [new]) [length heap] = [new].
Proof.
  rewrite items_cons, lookup_app_r, Nat.sub_diag by lia. reflexivity.
Qed.

Lemma initialWorld_shape : shape_inv initialWorld.
Proof. split; try reflexivity. intros p []. Qed.

Lemma shape_inv_ui (W W' : World) :
  heap W' = heap W /\ store W' = store W
  /\ GridLayout.layouts (grid W') = GridLayout.layouts (grid W) ->
  shape_inv W -> shape_inv W'.
Proof.
  intros (Hh & Hs & Hg) H.
  split; unfold refs; rewrite ?Hh, ?Hs, ?Hg; apply H.
Qed.

Lemma shape_inv_grid (W : World) (g : GridLayout.t) :
  GridLayout.layouts g = GridLayout.layouts (grid W) ->
  shape_inv W -> shape_inv (mkWorld (heap W) (store W) g).
Proof. intros Hg H. apply (shape_inv_ui W); auto. Qed.

(** A store action that keeps the heap, the arrays and the widget ids. *)
Lemma shape_inv_setState (W : World) (newState : Store.WorkspaceState) :
  Store.layouts newState = Store.layouts (store W) ->
  map WidgetInstance.id (Store.widgets newState)
  = map WidgetInstance.id (Store.widgets (store W)) ->
  shape_inv W -> shape_inv (setState W newState).
Proof.
  intros Hl Hw H.
  split; unfold refs; cbn [setState heap store grid]; rewrite ?Hl, ?Hw; try apply H.
  apply onStoreChange_sync; [exact Hl|]. intros _. apply H.
Qed.

Lemma commit_shape (W : World) (widgetId : string) (p : loc) (l temp : LayoutItem.t) :
  let bp := GridLayout.currentBreakpoint (grid W) in
  let cur := get_layout (GridLayout.layouts (grid W)) bp in
  shape_inv W ->
  find_ref (heap W) cur widgetId = Some (p, l) ->
  LayoutItem.i temp = LayoutItem.i l ->
  shape_inv (mkWorld (<[p := temp]> (heap W)) (store W) (grid W)).
Proof.
  cbv zeta. intros H Hfind Hid.
  pose proof (sh_sync W H) as Hsync. rewrite Hsync in *.
  apply find_ref_Some in Hfind. destruct Hfind as (_ & Hl & _).
  split; unfold refs; cbn [heap store grid]; fold (refs W).
  - exact Hsync.
  - exact (sh_md W H).
  - exact (sh_sm W H).
  - intros q Hq. rewrite length_insert. now apply (sh_valid W H).
  - rewrite (items_ids_insert _ _ l) by assumption. exact (sh_ids W H).
Qed.

Lemma moveWidgetToPosition_shape (widgetId : string) (x y : number) (W : World) :
  shape_inv W -> shape_inv (moveWidgetToPosition widgetId x y W).
Proof.
  intros H.
  destruct (moveWidgetToPosition_cases widgetId x y W)
    as [->|(p & l & Hfind & _ & ->)]; [exact H|].
  eapply commit_shape; eauto.
Qed.

Lemma resizeWidget_shape (widgetId : string) (w h : number) (W : World) :
  shape_inv W -> shape_inv (resizeWidget widgetId w h W).
Proof.
  intros H.
  destruct (resizeWidget_cases widgetId w h W)
    as [->|(p & l & Hfind & _ & ->)]; [exact H|].
  eapply commit_shape; eauto.
Qed.

Lemma removeWidget_shape (widgetId : string) (W : World) :
  shape_inv W -> shape_inv (removeWidget widgetId W).
Proof.
  intros H. pose proof (shape_layouts_eta W H) as Heta.
  unfold removeWidget.
  split; unfold refs; cbn [setState heap store grid Store.layouts Store.widgets
                             WorkspaceLayouts.lg WorkspaceLayouts.md WorkspaceLayouts.sm];
    rewrite ?(sh_md W H), ?(sh_sm W H); fold (refs W); try reflexivity.
  - apply onStoreChange_sync; [reflexivity|]. intros Hjson.
    apply json_layouts_length in Hjson. cbn [WorkspaceLayouts.lg] in Hjson.
    rewrite (sh_sync W H) in *. fold (refs W) in Hjson.
    rewrite !items_length in Hjson.
    + apply filter_length_all in Hjson. unfold filter_refs. rewrite Hjson. exact Heta.
    + apply (sh_valid W H).
    + intros p Hp. apply (sh_valid W H). unfold filter_refs in Hp.
      now apply filter_In in Hp.
  - intros p Hp. apply (sh_valid W H). unfold filter_refs in Hp. now apply filter_In in Hp.
  - rewrite items_filter_refs.
    rewrite (map_filter_comm WidgetInstance.id (fun i => negb (String.eqb i widgetId))).
    rewrite (map_filter_comm LayoutItem.i (fun i => negb (String.eqb i widgetId))).
    now rewrite (sh_ids W H).
Qed.

Lemma clearWorkspace_shape (W : World) : shape_inv W -> shape_inv (clearWorkspace W).
Proof.
  intros H. pose proof (shape_layouts_eta W H) as Heta.
  unfold clearWorkspace.
  split; unfold refs; cbn [setState heap store grid Store.layouts Store.widgets
                             WorkspaceLayouts.lg WorkspaceLayouts.md WorkspaceLayouts.sm
                             WorkspaceLayouts.empty];
    try reflexivity; try (intros; contradiction).
  apply onStoreChange_sync; [reflexivity|]. intros Hjson.
  apply json_layouts_length in Hjson. cbn [WorkspaceLayouts.lg] in Hjson.
  rewrite (sh_sync W H) in *. fold (refs W) in Hjson.
  rewrite (items_length (heap W) (refs W)) in Hjson by apply (sh_valid W H).
  cbn in Hjson. symmetry in Hjson. apply length_zero_iff_nil in Hjson.
  rewrite Heta, Hjson. reflexivity.
Qed.

Lemma updateWidget_ids (widgetId : string) (updates : WidgetUpdates.t)
    (ws : list WidgetInstance.t) :
  map WidgetInstance.id
    (map (fun w => if String.eqb (WidgetInstance.id w) widgetId
                   then apply_updates w updates else w) ws)
  = map WidgetInstance.id ws.
Proof.
  induction ws as [|w ws IH]; [reflexivity|]. cbn [map]. rewrite IH.
  destruct (String.eqb _ _); reflexivity.
Qed.

Lemma addWidget_shape now type ticker config (W : World) :
  shape_inv W -> shape_inv (addWidget now type ticker config W).
Proof.
  intros H. pose proof (sh_valid W H) as Hvalid.
  unfold addWidget. fold (refs W).
  split; unfold refs; cbn [setState heap store grid Store.layouts Store.widgets
                             WorkspaceLayouts.lg WorkspaceLayouts.md WorkspaceLayouts.sm];
    rewrite ?(sh_md W H), ?(sh_sm W H); fold (refs W); try reflexivity.
  - apply onStoreChange_sync; [reflexivity|]. intros Hjson. exfalso.
    apply json_layouts_length in Hjson. cbn [WorkspaceLayouts.lg] in Hjson.
    rewrite (sh_sync W H) in Hjson. fold (refs W) in Hjson.
    rewrite !items_length in Hjson.
    + rewrite length_app in Hjson. cbn in Hjson. lia.
    + intros q Hq. rewrite length_app. apply Hvalid in Hq. lia.
    + intros q Hq. rewrite length_app. cbn [length].
      apply in_app_iff in Hq. destruct Hq as [Hq|[<-|[]]]; [apply Hvalid in Hq|]; lia.
  - intros q Hq. rewrite length_app. cbn [length].
    apply in_app_iff in Hq. destruct Hq as [Hq|[<-|[]]]; [apply Hvalid in Hq|]; lia.
  - rewrite map_app, items_app, items_new, items_alloc by exact Hvalid.
    rewrite map_app, (sh_ids W H). reflexivity.
Qed.

Lemma step_shape (W : World) (a : Action) : shape_inv W -> shape_inv (step W a).
Proof.
  intros H.
  destruct a;
    try (match goal with
         | |- shape_inv (step W ?a) =>
             apply (shape_inv_ui W _ (ui_only_step W a I) H)
         end);
    cbn [step].
  - now apply addWidget_shape.
  - now apply removeWidget_shape.
  - apply shape_inv_setState; [reflexivity|apply updateWidget_ids|exact H].
  - now apply shape_inv_setState.
  - now apply shape_inv_setState.
  - now apply clearWorkspace_shape.
  - now apply moveWidgetToPosition_shape.
  - now apply resizeWidget_shape.
  - assert (shape_inv (mkWorld (heap W) (store W) (hidePlaceholder (grid W)))) as H1.
    { apply shape_inv_grid; [|exact H]. apply hidePlaceholder_layouts. }
    destruct (handleDrop_move gridContainer e W) as [->|[widgetId ->]]; [exact H1|].
    now apply moveWidgetToPosition_shape.
Qed.

Lemma run_shape (actions : list Action) :
  forall W, shape_inv W -> shape_inv (run W actions).
Proof.
  induction actions as [|a actions IH]; intros W H; [exact H|].
  cbn [run fold_left]. apply IH. now apply step_shape.
Qed.

(** X1.  After any run from the empty workspace the three breakpoints hold
    the same items, with the same rectangles: the medium and the small
    layout always read as the large one, so a move or a resize made at one
    breakpoint shows at all three.  The grid's copy of the layouts is the
    store's. *)
Theorem breakpoints_share_layout (actions : list Action) (bp : Breakpoint) :
  let W := run initialWorld actions in
  layout_of W bp = layout_of W bp_lg
  /\ GridLayout.layouts (grid W) = Store.layouts (store W).
Proof.
  cbv zeta. pose proof (run_shape actions initialWorld initialWorld_shape) as H.
  split; [|exact (sh_sync _ H)].
  unfold layout_of. now rewrite !(shape_get_layout _ _ H).
Qed.

(** X2.  After any run from the empty workspace the layout entries of every
    breakpoint carry the ids of the widgets, one entry a widget and in the
    order of the widget list. *)
Theorem widgets_match_layout (actions : list Action) (bp : Breakpoint) :
  let W := run initialWorld actions in
  map WidgetInstance.id (Store.widgets (store W)) = map LayoutItem.i (layout_of W bp).
Proof.
  cbv zeta. pose proof (run_shape actions initialWorld initialWorld_shape) as H.
  unfold layout_of. rewrite (shape_get_layout _ _ H). exact (sh_ids _ H).
Qed.

(** *** Committed moves and resizes *)

Lemma move_candidate_in_range (l : LayoutItem.t) (gx gy w : Z) :
  LayoutItem.w l = Fin w -> 0 <= gx -> gx + w <= GridLayout.GRID_COLS -> 0 <= gy ->
  move_candidate l (Fin gx) (Fin gy) = LayoutItem.set_xy l (Fin gx) (Fin gy).
Proof.
  unfold move_candidate, GridLayout.GRID_COLS. intros -> Hx Hw Hy.
  cbn [nsub nopp nadd]. rewrite !nmax_Fin, !nmin_Fin, !nmax_Fin.
  do 2 f_equal; f_equal; lia.
Qed.


Lemma hasCollision_none heap (g : GridLayout.t) item widgetId :
  (forall b,
      In b (items heap (get_layout (GridLayout.layouts g) (GridLayout.currentBreakpoint g))) ->
      LayoutItem.i b <> widgetId -> overlaps item b = false) ->
  hasCollision heap g item (Some widgetId) = false.
Proof.
  intros H. destruct (hasCollision _ _ _ _) eqn:E; [|reflexivity].
  apply hasCollision_true in E. destruct E as (b & Hb & Hid & Hc).
  rewrite (H b Hb Hid) in Hc. discriminate.
Qed.

Lemma insert_frame (heap : Heap) (p : loc) (l new : LayoutItem.t) :
  heap !! p = Some l ->
  <[p := new]> heap !! p = Some new
  /\ forall q, q <> p -> <[p := new]> heap !! q = heap !! q.
Proof.
  intros Hp. split.
  - apply list_lookup_insert_eq. eapply lookup_lt_Some; eauto.
  - intros q Hq. apply list_lookup_insert_ne. congruence.
Qed.

(** X3.  Drag round trip.  When the grid has an item for the id, the
    requested cell keeps the item inside the 12 columns ([0 <= gx],
    [gx + w <= 12], [0 <= gy]) and the item put there overlaps no item with
    another id, [moveWidgetToPosition] commits exactly that cell: the item
    reads back with [(x, y) = (gx, gy)] and its other members unchanged, no
    other object is written and the widget list is kept. *)
Theorem move_commits_requested_cell (widgetId : string) (gx gy w : Z) (W : World)
    (p : loc) (l : LayoutItem.t) :
  current_item W widgetId = Some (p, l) ->
  LayoutItem.w l = Fin w ->
  0 <= gx -> gx + w <= GridLayout.GRID_COLS -> 0 <= gy ->
  (forall b, In b (active_layout W) -> LayoutItem.i b <> widgetId ->
             overlaps (LayoutItem.set_xy l (Fin gx) (Fin gy)) b = false) ->
  let W' := moveWidgetToPosition widgetId (Fin gx) (Fin gy) W in
  heap W' !! p = Some (LayoutItem.set_xy l (Fin gx) (Fin gy))
  /\ (forall q, q <> p -> heap W' !! q = heap W !! q)
  /\ Store.widgets (store W') = Store.widgets (store W).
Proof.
  unfold current_item, active_layout. intros Hfind Hw Hgx Hgw Hgy Hfree. cbv zeta.
  unfold moveWidgetToPosition. rewrite Hfind.
  rewrite (move_candidate_in_range l gx gy w Hw Hgx Hgw Hgy).
  rewrite (hasCollision_none _ _ _ _ Hfree).
  apply find_ref_Some in Hfind. destruct Hfind as (_ & Hl & _).
  cbn [heap store Store.widgets LayoutItem.set_xy
         LayoutItem.x LayoutItem.y].
  destruct (insert_frame (heap W) p l (LayoutItem.set_xy l (Fin gx) (Fin gy)) Hl) as [H1 H2].
  repeat split; assumption.
Qed.

Lemma move_commits_requested_cell_witness :
  let W := run initialWorld (firstn 3 two_widget_run) in
  let W' := moveWidgetToPosition "quote-2000" (Fin 3) (Fin 0) W in
  exists l', heap W' !! 1%nat = Some l'
             /\ LayoutItem.x l' = Fin 3 /\ LayoutItem.y l' = Fin 0
             /\ LayoutItem.w l' = Fin 3 /\ LayoutItem.h l' = Fin 4.
Proof.
  cbv zeta.
  assert (forall b, In b (active_layout (run initialWorld (firstn 3 two_widget_run))) ->
                    LayoutItem.i b <> "quote-2000" ->
                    overlaps (LayoutItem.set_xy
                                (LayoutItem.mk "quote-2000" (Fin 0) (Fin 5) (Fin 3) (Fin 4)
                                   (Some (Fin 2)) (Some (Fin 3)) None None None)
                                (Fin 3) (Fin 0)) b = false) as Hfree.
  { intros b Hb Hid. vm_compute in Hb. destruct Hb as [<-|[<-|[]]]; [reflexivity|].
    exfalso. apply Hid. reflexivity. }
  destruct (move_commits_requested_cell "quote-2000" 3 0 3
              (run initialWorld (firstn 3 two_widget_run)) 1%nat
              (LayoutItem.mk "quote-2000" (Fin 0) (Fin 5) (Fin 3) (Fin 4)
                 (Some (Fin 2)) (Some (Fin 3)) None None None)
              eq_refl eq_refl ltac:(lia) ltac:(unfold GridLayout.GRID_COLS; lia) ltac:(lia)
              Hfree) as (H & _ & _).
  eexists. split; [exact H|]. repeat split.
Defined.



(** X5.  In a workspace reached with fresh ids and finite inputs, moving a
    widget to the cell where it already is commits and changes nothing:
    no layout object and nothing in the store. *)
Theorem move_in_place_keeps_world (actions : list Action) (widgetId : string)
    (p : loc) (l : LayoutItem.t) :
  fresh_ids initialWorld actions = true ->
  forallb finite_action actions = true ->
  let W := run initialWorld actions in
  current_item W widgetId = Some (p, l) ->
  heap (moveWidgetToPosition widgetId (LayoutItem.x l) (LayoutItem.y l) W) = heap W
  /\ store (moveWidgetToPosition widgetId (LayoutItem.x l) (LayoutItem.y l) W) = store W.
Proof.
  intros Hfresh Hfin. cbv zeta. unfold current_item. intros Hfind.
  pose proof (run_inv actions initialWorld Hfresh initialWorld_inv) as Hinv.
  assert (heap_in_bounds (run initialWorld actions)) as Hb.
  { apply run_in_bounds; [exact Hfin|]. intros q l' Hq. discriminate. }
  set (W := run initialWorld actions) in *.
  pose proof Hfind as Hfind'. apply find_ref_Some in Hfind'.
  destruct Hfind' as (Hp & Hl & Hid).
  rewrite (inv_sync W Hinv), (get_layout_refs W _ Hinv) in Hp.
  pose proof (Hb p l Hl) as Hlb. apply in_bounds_spec in Hlb.
  destruct Hlb as (x & y & w & h & Hx & Hy & Hw & Hh & ? & ? & ? & ? & ?).
  assert (move_candidate l (LayoutItem.x l) (LayoutItem.y l) = l) as Hcand.
  { rewrite Hx, Hy, (move_candidate_in_range l x y w) by assumption.
    rewrite <- Hx, <- Hy. destruct l; reflexivity. }
  unfold moveWidgetToPosition. rewrite Hfind, Hcand.
  rewrite hasCollision_none.
  - cbn [heap store].
    replace (LayoutItem.set_xy l (LayoutItem.x l) (LayoutItem.y l)) with l
      by (destruct l; reflexivity).
    rewrite list_insert_id by exact Hl.
    split; reflexivity.
  - intros b Hin Hbid. apply In_items in Hin. destruct Hin as (q & Hq & Hqb).
    rewrite (inv_sync W Hinv), (get_layout_refs W _ Hinv) in Hq.
    apply (inv_free W Hinv p q l b); auto.
    intros <-. apply Hbid. congruence.
Qed.

Lemma move_in_place_keeps_world_witness :
  let W := run initialWorld two_widget_run in
  heap (moveWidgetToPosition "quote-2000" (Fin 3) (Fin 0) W) = heap W
  /\ store (moveWidgetToPosition "quote-2000" (Fin 3) (Fin 0) W) = store W.
Proof.
  exact (move_in_place_keeps_world two_widget_run "quote-2000" 1%nat
           (LayoutItem.mk "quote-2000" (Fin 3) (Fin 0) (Fin 3) (Fin 4)
              (Some (Fin 2)) (Some (Fin 3)) None None None)
           eq_refl eq_refl eq_refl).
Defined.

(** *** Store actions *)

Lemma forallb_filter_same {A} (f : A -> bool) (l : list A) :
  forallb f (List.filter f l) = true.
Proof.
  apply forallb_forall. intros a Ha. apply filter_In in Ha. tauto.
Qed.

(** X6.  [removeWidget] is complete and idempotent: afterwards no widget
    and no layout entry of any breakpoint has the id, also when several
    had it, and removing the id once more changes nothing in the store. *)
Theorem removeWidget_complete (widgetId : string) (W : World) :
  let W' := removeWidget widgetId W in
  fresh_id widgetId W' = true
  /\ store (removeWidget widgetId W') = store W'.
Proof.
  cbv zeta. split.
  - unfold fresh_id, layout_of.
    cbn [removeWidget setState store heap Store.widgets Store.layouts forallb get_layout
           WorkspaceLayouts.lg WorkspaceLayouts.md WorkspaceLayouts.sm].
    rewrite !items_filter_refs.
    unfold other_widget, other_item. rewrite !forallb_filter_same. reflexivity.
  - cbn [removeWidget setState store heap Store.widgets Store.layouts
           Store.currentTicker Store.activeWidgetId
           WorkspaceLayouts.lg WorkspaceLayouts.md WorkspaceLayouts.sm].
    unfold filter_refs. rewrite !filter_filter_same. f_equal.
    destruct (bool_decide (Store.activeWidgetId (store W) = Some widgetId)) eqn:E.
    + reflexivity.
    + now rewrite E.
Qed.

Lemma map_if_none {A} (f : A -> bool) (g : A -> A) (l : list A) :
  (forall a, In a l -> f a = false) -> map (fun x => if f x then g x else x) l = l.
Proof.
  induction l as [|a l IH]; intros H; [reflexivity|]. cbn [map].
  rewrite (H a (or_introl eq_refl)), IH; [reflexivity|].
  intros b Hb. apply H. now right.
Qed.

(** X7.  [updateWidget] keeps the ids, the number and the order of the
    widgets, every layout and layout object, [currentTicker] and
    [activeWidgetId]; widgets with another id are kept as they are; and
    when no widget has the id the widget list is unchanged. *)
Theorem updateWidget_frame (widgetId : string) (updates : WidgetUpdates.t) (W : World) :
  let W' := updateWidget widgetId updates W in
  map WidgetInstance.id (Store.widgets (store W'))
  = map WidgetInstance.id (Store.widgets (store W))
  /\ Store.layouts (store W') = Store.layouts (store W)
  /\ heap W' = heap W
  /\ Store.currentTicker (store W') = Store.currentTicker (store W)
  /\ Store.activeWidgetId (store W') = Store.activeWidgetId (store W)
  /\ List.filter (other_widget widgetId) (Store.widgets (store W'))
     = List.filter (other_widget widgetId) (Store.widgets (store W))
  /\ ((forall w, In w (Store.widgets (store W)) -> WidgetInstance.id w <> widgetId) ->
      Store.widgets (store W') = Store.widgets (store W)).
Proof.
  cbv zeta. cbn [updateWidget setState store heap Store.widgets Store.layouts
                   Store.currentTicker Store.activeWidgetId].
  split; [apply updateWidget_ids|]. do 4 (split; [reflexivity|]). split.
  - induction (Store.widgets (store W)) as [|w ws IH]; [reflexivity|].
    cbn [map List.filter].
    destruct (String.eqb (WidgetInstance.id w) widgetId) eqn:E.
    + assert (other_widget widgetId (apply_updates w updates) = false) as ->
        by (unfold other_widget; cbn [apply_updates WidgetInstance.id]; now rewrite E).
      assert (other_widget widgetId w = false) as ->
        by (unfold other_widget; now rewrite E).
      exact IH.
    + assert (other_widget widgetId w = true) as ->
        by (unfold other_widget; now rewrite E).
      now rewrite IH.
  - intros H. apply map_if_none. intros w Hw. apply String.eqb_neq. auto.
Qed.

Lemma updateWidget_frame_witness :
  Store.widgets (store (updateWidget "chart-1"
                          (WidgetUpdates.mk None None (Some "T") None) one_orderbook))
  = Store.widgets (store one_orderbook).
Proof.
  apply (updateWidget_frame "chart-1" (WidgetUpdates.mk None None (Some "T") None)
           one_orderbook).
  intros w [<-|[]]. vm_compute. discriminate.
Defined.

(** X8.  [addWidget] appends: in a store whose arrays hold allocated
    references, every breakpoint's layout gets one new entry at its end and
    keeps its old entries as they were; the new entry has the new id, sits
    at column 0 on the row of the lowest bottom edge of the large layout,
    and has the default size of its type. *)
Theorem addWidget_appends now type (ticker : option string) (config : WidgetConfig.t)
    (W : World) :
  refs_valid W = true ->
  let W' := addWidget now type ticker config W in
  let new :=
    new_layout_item (new_id type now) (findAvailablePosition (layout_of W bp_lg))
      (DEFAULT_WIDGET_SIZES type) in
  (forall bp, layout_of W' bp = layout_of W bp ++ [new])
  /\ LayoutItem.x new = Fin 0
  /\ (forall b, In b (layout_of W bp_lg) ->
                nlt (LayoutItem.y new) (nadd (LayoutItem.y b) (LayoutItem.h b)) = false)
  /\ map WidgetInstance.id (Store.widgets (store W'))
     = map WidgetInstance.id (Store.widgets (store W)) ++ [new_id type now].
Proof.
  intros Hvalid. cbv zeta. split; [|split; [|split]].
  - intros bp. unfold layout_of.
    assert (get_layout (Store.layouts (store (addWidget now type ticker config W))) bp
            = get_layout (Store.layouts (store W)) bp ++ [length (heap W)]) as ->
      by (destruct bp; reflexivity).
    cbn [addWidget setState heap].
    rewrite items_app, items_new, items_alloc; [reflexivity|].
    intros p Hp. now apply (refs_valid_lt W bp).
  - unfold findAvailablePosition. destruct (length _ =? 0)%nat; reflexivity.
  - intros b Hb. now apply findAvailablePosition_below.
  - cbn [addWidget setState store Store.widgets]. now rewrite map_app.
Qed.

Lemma addWidget_appends_witness :
  layout_of (addWidget 2000 quote None WidgetConfig.empty one_orderbook) bp_md
  = layout_of one_orderbook bp_md
      ++ [new_layout_item (new_id quote 2000)
            (findAvailablePosition (layout_of one_orderbook bp_lg))
            (DEFAULT_WIDGET_SIZES quote)].
Proof.
  exact (proj1 (addWidget_appends 2000 quote None WidgetConfig.empty one_orderbook eq_refl)
           bp_md).
Defined.

(** *** Events outside a gesture *)

Lemma handleResizeEnd_idle (W : World) :
  truthy (GridLayout.resizingWidgetId (grid (handleResizeEnd W))) = false.
Proof.
  unfold handleResizeEnd.
  destruct (truthy (GridLayout.resizingWidgetId (grid W))) eqn:E; cbn [negb].
  - reflexivity.
  - exact E.
Qed.

(** X9.  Gestures end.  After [handleDragEnd] a dragover changes nothing
    and a drop changes no layout object and nothing in the store; after
    [handleResizeEnd] a mousemove changes nothing and a second mouseup
    changes nothing. *)
Theorem events_after_gesture_end (gridContainer : option Geometry.t)
    (e : PointerEvent.t) (W : World) :
  handleDragOver gridContainer e (handleDragEnd W) = handleDragEnd W
  /\ heap (handleDrop gridContainer e (handleDragEnd W)) = heap W
  /\ store (handleDrop gridContainer e (handleDragEnd W)) = store W
  /\ handleResizeMove gridContainer e (handleResizeEnd W) = handleResizeEnd W
  /\ handleResizeEnd (handleResizeEnd W) = handleResizeEnd W.
Proof.
  split; [reflexivity|]. split; [|split; [|split]].
  - unfold handleDrop, handleDragEnd. cbn [grid heap store].
    destruct (hidePlaceholder_layouts (GridLayout.set_dragged (grid W) None None))
      as (_ & _ & -> & _). reflexivity.
  - unfold handleDrop, handleDragEnd. cbn [grid heap store].
    destruct (hidePlaceholder_layouts (GridLayout.set_dragged (grid W) None None))
      as (_ & _ & -> & _). reflexivity.
  - pose proof (handleResizeEnd_idle W) as Hidle.
    unfold handleResizeMove. destruct gridContainer; [|reflexivity].
    now rewrite Hidle.
  - pose proof (handleResizeEnd_idle W) as Hidle.
    unfold handleResizeEnd at 1. now rewrite Hidle.
Qed.


(** *** The pointer's cell *)

Lemma column_pitch_pos (g : Geometry.t) :
  sane_geometry (Some g) = true ->
  (0 < columnWidth g + inject_Z GridLayout.MARGIN)%Q.
Proof.
  unfold sane_geometry, columnWidth. intros Hsane.
  apply Qle_bool_imp_le in Hsane. revert Hsane.
  generalize (Geometry.width g - Geometry.paddingLeft g - Geometry.paddingRight g)%Q.
  intros aw Haw.
  unfold GridLayout.MARGIN, GridLayout.GRID_COLS, Qdiv, inject_Z. cbn.
  change (6 * (12 - 1)) with 66. lra.
Qed.

(** The cell [Math.floor(rel / pitch)] of an offset [rel]: the offset lies
    in the cell's span. *)
Lemma floor_div_cell (rel pitch : Q) :
  (0 < pitch)%Q ->
  let c := Qfloor (Qred (rel / pitch)) in
  (inject_Z c * pitch <= rel)%Q /\ (rel < (inject_Z c + 1) * pitch)%Q.
Proof.
  intros Hp. cbv zeta.
  rewrite (Qfloor_comp _ _ (Qred_correct _)).
  set (q := (rel / pitch)%Q).
  assert (rel == q * pitch)%Q as Hrel.
  { unfold q. field. intros E. rewrite E in Hp. now apply Qlt_irrefl in Hp. }
  pose proof (Qfloor_le q) as Hlo. pose proof (Qlt_floor q) as Hhi.
  rewrite inject_Z_plus in Hhi. change (inject_Z 1) with 1%Q in Hhi.
  split.
  - rewrite Hrel. apply Qmult_le_compat_r; [exact Hlo|]. now apply Qlt_le_weak.
  - rewrite Hrel at 1. now apply Qmult_lt_compat_r.
Qed.

Lemma inject_Z_below_inv (c n : Z) (pitch rel : Q) :
  (0 < pitch)%Q -> (inject_Z c * pitch <= rel)%Q -> (rel < inject_Z n * pitch)%Q -> c < n.
Proof.
  intros Hp Hlo Hhi.
  destruct (Z.lt_ge_cases c n) as [|Hge]; [assumption|exfalso].
  assert (inject_Z n * pitch <= inject_Z c * pitch)%Q; [|lra].
  apply Qmult_le_compat_r; [|lra]. now rewrite <- Zle_Qle.
Qed.

Lemma floor_div_mono (rel rel' pitch : Q) :
  (0 < pitch)%Q -> (rel <= rel')%Q ->
  Qfloor (Qred (rel / pitch)) <= Qfloor (Qred (rel' / pitch)).
Proof.
  intros Hp Hle. apply Qfloor_resp_le. rewrite !Qred_correct.
  unfold Qdiv. apply Qmult_le_compat_r; [exact Hle|].
  apply Qlt_le_weak. now apply Qinv_lt_0_compat.
Qed.

Lemma floor_div_neg (rel pitch : Q) :
  (0 < pitch)%Q -> (rel < 0)%Q -> Qfloor (Qred (rel / pitch)) < 0.
Proof.
  intros Hp Hneg. destruct (floor_div_cell rel pitch Hp) as [Hlo _].
  apply (inject_Z_below_inv _ 0 pitch rel); [exact Hp|exact Hlo|].
  rewrite Qmult_0_l. exact Hneg.
Qed.

(** The cells of two finite pointer positions over one container. *)
Lemma calculateGridPosition_range (g : Geometry.t) (cx cy cx' cy' : Q) :
  sane_geometry (Some g) = true ->
  exists x y x' y',
    calculateGridPosition (Some g) (Fin cx) (Fin cy) = Position.mk (Fin x) (Fin y)
    /\ calculateGridPosition (Some g) (Fin cx') (Fin cy') = Position.mk (Fin x') (Fin y')
    /\ 0 <= x <= GridLayout.GRID_COLS - 1 /\ 0 <= y
    /\ ((cx <= cx')%Q -> x <= x')
    /\ ((cy <= cy')%Q -> y <= y')
    /\ ((cx - Geometry.left g - Geometry.paddingLeft g < 0)%Q -> x = 0)
    /\ ((cy - Geometry.top g - Geometry.paddingTop g < 0)%Q -> y = 0).
Proof.
  intros Hsane.
  pose proof (column_pitch_pos g Hsane) as HpX.
  assert (0 < inject_Z (GridLayout.ROW_HEIGHT + GridLayout.MARGIN))%Q as HpY by reflexivity.
  unfold calculateGridPosition.
  cbn [psub padd popp pdiv]. rewrite (column_pitch_nonzero g Hsane).
  change (Qeq_bool (inject_Z (GridLayout.ROW_HEIGHT + GridLayout.MARGIN)) 0) with false.
  cbn [floor]. rewrite !nmin_Fin, !nmax_Fin.
  set (pitchX := (columnWidth g + inject_Z GridLayout.MARGIN)%Q) in *.
  set (pitchY := inject_Z (GridLayout.ROW_HEIGHT + GridLayout.MARGIN)) in *.
  set (rx := Qred (Qred (cx + - Geometry.left g) + - Geometry.paddingLeft g)).
  set (ry := Qred (Qred (cy + - Geometry.top g) + - Geometry.paddingTop g)).
  set (rx' := Qred (Qred (cx' + - Geometry.left g) + - Geometry.paddingLeft g)).
  set (ry' := Qred (Qred (cy' + - Geometry.top g) + - Geometry.paddingTop g)).
  assert (rx == cx - Geometry.left g - Geometry.paddingLeft g)%Q as Hrx
    by (unfold rx; rewrite !Qred_correct; reflexivity).
  assert (ry == cy - Geometry.top g - Geometry.paddingTop g)%Q as Hry
    by (unfold ry; rewrite !Qred_correct; reflexivity).
  assert (rx' == cx' - Geometry.left g - Geometry.paddingLeft g)%Q as Hrx'
    by (unfold rx'; rewrite !Qred_correct; reflexivity).
  assert (ry' == cy' - Geometry.top g - Geometry.paddingTop g)%Q as Hry'
    by (unfold ry'; rewrite !Qred_correct; reflexivity).
  eexists _, _, _, _. split; [reflexivity|]. split; [reflexivity|].
  unfold GridLayout.GRID_COLS.
  split; [lia|]. split; [lia|]. split; [|split; [|split]].
  - intros Hle.
    assert (Qfloor (Qred (rx / pitchX)) <= Qfloor (Qred (rx' / pitchX))); [|lia].
    apply floor_div_mono; [exact HpX|]. rewrite Hrx, Hrx'. lra.
  - intros Hle.
    assert (Qfloor (Qred (ry / pitchY)) <= Qfloor (Qred (ry' / pitchY))); [|lia].
    apply floor_div_mono; [exact HpY|]. rewrite Hry, Hry'. lra.
  - intros Hneg.
    assert (Qfloor (Qred (rx / pitchX)) < 0); [|lia].
    apply floor_div_neg; [exact HpX|]. rewrite Hrx. exact Hneg.
  - intros Hneg.
    assert (Qfloor (Qred (ry / pitchY)) < 0); [|lia].
    apply floor_div_neg; [exact HpY|]. rewrite Hry. exact Hneg.
Qed.

(** X10.  [calculateGridPosition] maps a pointer position of ordinary size
    over a container of ordinary size and of non-negative inner width to
    an integer cell in columns 0..11 and rows 0 and up.  The cell does not
    decrease when the pointer moves right or down, and a pointer left of
    the content box or above it is mapped to column 0 or to row 0.
    Without a container the cell is (0, 0). *)
Theorem pointer_cell (g : Geometry.t) (cx cy cx' cy' : Q) :
  sane_geometry (Some g) = true ->
  ordinary_geometry (Some g) = true ->
  forallb ordinary_length [cx; cy; cx'; cy'] = true ->
  (exists x y x' y',
     calculateGridPosition (Some g) (Fin cx) (Fin cy) = Position.mk (Fin x) (Fin y)
     /\ calculateGridPosition (Some g) (Fin cx') (Fin cy') = Position.mk (Fin x') (Fin y')
     /\ 0 <= x <= GridLayout.GRID_COLS - 1 /\ 0 <= y
     /\ ((cx <= cx')%Q -> x <= x')
     /\ ((cy <= cy')%Q -> y <= y')
     /\ ((cx - Geometry.left g - Geometry.paddingLeft g < 0)%Q -> x = 0)
     /\ ((cy - Geometry.top g - Geometry.paddingTop g < 0)%Q -> y = 0))
  /\ forall clientX clientY : pixels,
       calculateGridPosition None clientX clientY = Position.mk (Fin 0) (Fin 0).
Proof.
  intros Hsane _ _. split; [|reflexivity].
  exact (calculateGridPosition_range g cx cy cx' cy' Hsane).
Qed.

Lemma pointer_cell_witness :
  exists x y x' y',
    calculateGridPosition (Some wide_container) (Fin 250%Q) (Fin 100%Q)
    = Position.mk (Fin x) (Fin y)
    /\ calculateGridPosition (Some wide_container) (Fin 700%Q) (Fin 100%Q)
       = Position.mk (Fin x') (Fin y')
    /\ 0 <= x <= GridLayout.GRID_COLS - 1 /\ 0 <= y /\ x <= x'.
Proof.
  destruct (pointer_cell wide_container 250%Q 100%Q 700%Q 100%Q eq_refl eq_refl eq_refl)
    as [(x & y & x' & y' & H & H' & Hx & Hy & Hmono & _) _].
  exists x, y, x', y'. repeat (split; [assumption|]).
  apply Hmono. vm_compute. discriminate.
Defined.


(** *** Numbers written to strings and read back *)

Lemma digits_value_acc (d : Decimal.uint) (acc : positive) :
  digits_value (NilEmpty.string_of_uint d) (Some (Z.pos acc))
  = Some (Z.pos (Pos.of_uint_acc d acc)).
Proof.
  revert acc.
  induction d; intros acc; cbn [NilEmpty.string_of_uint digits_value Pos.of_uint_acc];
    [reflexivity|..];
    match goal with
    | |- context [is_digit ?c] => change (is_digit c) with true
    end;
    cbv iota; cbn [default]; rewrite <- IHd; do 2 f_equal;
    match goal with
    | |- context [Z.of_nat (nat_of_ascii ?c) - 48] =>
        let v := eval vm_compute in (Z.of_nat (nat_of_ascii c) - 48) in
        change (Z.of_nat (nat_of_ascii c) - 48) with v
    end; unfold id; lia.
Qed.

Lemma digits_value_zero (d : Decimal.uint) :
  digits_value (NilEmpty.string_of_uint d) (Some 0) = Some (Z.of_N (Pos.of_uint d)).
Proof.
  induction d; cbn [NilEmpty.string_of_uint digits_value Pos.of_uint];
    [reflexivity|..];
    match goal with
    | |- context [is_digit ?c] => change (is_digit c) with true
    end;
    cbv iota; cbn [default];
    [exact IHd|..]; cbn [Z.of_N]; rewrite <- digits_value_acc; reflexivity.
Qed.

Lemma digits_value_start (d : Decimal.uint) :
  d <> Decimal.Nil ->
  digits_value (NilEmpty.string_of_uint d) None
  = digits_value (NilEmpty.string_of_uint d) (Some 0).
Proof. destruct d; [congruence|..]; reflexivity. Qed.

Lemma parseInt_uint (p : positive) (neg : bool) :
  parseInt (if neg then String "-" (NilEmpty.string_of_uint (Pos.to_uint p))
            else NilEmpty.string_of_uint (Pos.to_uint p))
  = Fin (if neg then Z.neg p else Z.pos p).
Proof.
  pose proof (DecimalPos.Unsigned.of_to p) as Hval.
  pose proof (DecimalPos.Unsigned.to_uint_nonnil p) as Hnil.
  pose proof (digits_value_start _ Hnil) as Hstart.
  rewrite digits_value_zero, Hval in Hstart. cbn [Z.of_N] in Hstart.
  destruct neg.
  - unfold parseInt. cbn [skip_spaces]. change (is_space "-") with false. cbv iota.
    now rewrite Hstart.
  - revert Hstart Hnil. generalize (Pos.to_uint p). intros d Hstart Hnil.
    destruct d; [congruence|..];
      unfold parseInt; cbn [NilEmpty.string_of_uint skip_spaces];
      match goal with
      | |- context [is_space ?c] => change (is_space c) with false
      end; cbv iota;
      cbn [NilEmpty.string_of_uint] in Hstart; now rewrite Hstart.
Qed.

(** [parseInt(String(z))] is [z]. *)
Lemma parseInt_string_of_Z (z : Z) : parseInt (string_of_Z z) = Fin z.
Proof.
  destruct z as [|p|p]; [reflexivity|..]; unfold string_of_Z;
    cbn [Z.to_int NilZero.string_of_int];
    pose proof (DecimalPos.Unsigned.to_uint_nonnil p) as Hnil;
    assert (NilZero.string_of_uint (Pos.to_uint p)
            = NilEmpty.string_of_uint (Pos.to_uint p)) as ->
      by (destruct (Pos.to_uint p); [congruence|..]; reflexivity).
  - exact (parseInt_uint p false).
  - exact (parseInt_uint p true).
Qed.

Lemma string_of_Z_inj (a b : Z) : string_of_Z a = string_of_Z b -> a = b.
Proof.
  intros H. apply (f_equal parseInt) in H. rewrite !parseInt_string_of_Z in H. congruence.
Qed.

Lemma string_of_Z_nonempty (z : Z) : String.eqb (string_of_Z z) "" = false.
Proof.
  apply String.eqb_neq. intros H.
  pose proof (parseInt_string_of_Z z) as Hp. rewrite H in Hp. discriminate.
Qed.

Lemma substring_all (s : string) : substring 0 (String.length s) s = s.
Proof. induction s; cbn; congruence. Qed.

Lemma replace_span (s : string) : replace "span " "" (String.append "span " s) = s.
Proof.
  change (String.append "span " s)
    with (String "s" (String "p" (String "a" (String "n" (String " " s))))).
  cbn. replace (String.prefix "" s) with true by (destruct s; reflexivity).
  rewrite Nat.sub_0_r. apply substring_all.
Qed.

(** X11.  What [showPlaceholder] writes, [handleResizeEnd]'s parsing reads
    back.  For a column and a row from 0 to 998 and a width and a height
    from 1 to 1000 (lines and spans up to 1000, which print in decimal and
    which the style keeps as written), the placeholder is shown, its spans
    parse to that width and height, and its start lines parse to the
    column and the row plus one. *)
Theorem placeholder_roundtrip (geom : Geometry.t) (x y w h : Z) (g : GridLayout.t) :
  0 <= x < 999 -> 0 <= y < 999 -> 1 <= w <= 1000 -> 1 <= h <= 1000 ->
  exists ph,
    GridLayout.placeholder (showPlaceholder (Some geom) (Fin x) (Fin y) (Fin w) (Fin h) g)
    = Some ph
    /\ Placeholder.display ph = "block"
    /\ parseInt (or_zero (replace "span " "" (Placeholder.gridColumnEnd ph))) = Fin w
    /\ parseInt (or_zero (replace "span " "" (Placeholder.gridRowEnd ph))) = Fin h
    /\ parseInt (Placeholder.gridColumnStart ph) = Fin (x + 1)
    /\ parseInt (Placeholder.gridRowStart ph) = Fin (y + 1).
Proof.
  intros _ _ _ _. eexists. split; [reflexivity|].
  cbn [Placeholder.display Placeholder.gridColumnEnd Placeholder.gridRowEnd
         Placeholder.gridColumnStart Placeholder.gridRowStart nadd to_string].
  rewrite !replace_span. unfold or_zero. rewrite !string_of_Z_nonempty.
  rewrite !parseInt_string_of_Z. auto.
Qed.

Lemma placeholder_roundtrip_witness :
  exists ph,
    GridLayout.placeholder
      (showPlaceholder (Some wide_container) (Fin 3) (Fin 0) (Fin 4) (Fin 5)
         GridLayout.initial) = Some ph
    /\ parseInt (or_zero (replace "span " "" (Placeholder.gridColumnEnd ph))) = Fin 4.
Proof.
  destruct (placeholder_roundtrip wide_container 3 0 4 5 GridLayout.initial)
    as (ph & H & _ & Hw & _); try lia.
  exists ph. auto.
Defined.

Lemma append_inj_l (s a b : string) : String.append s a = String.append s b -> a = b.
Proof. induction s; cbn; [auto|]. intros H. injection H. auto. Qed.

(** X12.  Ids of the vanilla store name the type and the millisecond: two
    calls of [addWidget] make the same id exactly when they register the
    same type at the same [Date.now()]. *)
Theorem new_id_collides_iff (type type' : WidgetType) (now now' : Z) :
  new_id type now = new_id type' now' <-> type = type' /\ now = now'.
Proof.
  split; [|intros [-> ->]; reflexivity].
  unfold new_id. intros H.
  assert (type = type') as <- by (destruct type, type'; (reflexivity || discriminate H)).
  split; [reflexivity|].
  apply string_of_Z_inj.
  now apply (append_inj_l "-"), (append_inj_l (type_name type)).
Qed.


Lemma uint_dash_split (d1 d2 : Decimal.uint) (r1 r2 : string) :
  String.append (NilEmpty.string_of_uint d1) (String "-" r1)
  = String.append (NilEmpty.string_of_uint d2) (String "-" r2) ->
  d1 = d2 /\ r1 = r2.
Proof.
  revert d2.
  induction d1; intros d2; destruct d2; cbn; intros H;
    try discriminate H;
    try (injection H as H; destruct (IHd1 _ H) as [-> ->]; auto).
  injection H as ->. auto.
Qed.

Lemma string_of_pos (p : positive) :
  string_of_Z (Z.pos p) = NilEmpty.string_of_uint (Pos.to_uint p).
Proof.
  unfold string_of_Z. cbn [Z.to_int NilZero.string_of_int].
  pose proof (DecimalPos.Unsigned.to_uint_nonnil p) as Hnil.
  destruct (Pos.to_uint p); [congruence|..]; reflexivity.
Qed.

Lemma generateWidgetId_distinct (c c' now now' : Z) (type type' : WidgetType) :
  0 <= c -> 0 <= c' ->
  fst (Zustand.generateWidgetId c now type) = fst (Zustand.generateWidgetId c' now' type') ->
  type = type' /\ c = c' /\ now = now'.
Proof.
  intros Hc Hc'. unfold Zustand.generateWidgetId. cbn [fst]. intros H.
  assert (type = type') as <- by (destruct type, type'; (reflexivity || discriminate H)).
  split; [reflexivity|].
  apply append_inj_l, (append_inj_l "-") in H.
  destruct (c + 1) as [|p|p] eqn:E; [lia| |lia].
  destruct (c' + 1) as [|p'|p'] eqn:E'; [lia| |lia].
  rewrite !string_of_pos in H.
  change (String.append "-" (string_of_Z now)) with (String "-" (string_of_Z now)) in H.
  change (String.append "-" (string_of_Z now')) with (String "-" (string_of_Z now')) in H.
  apply uint_dash_split in H. destruct H as [Hp Hnow].
  apply DecimalPos.Unsigned.to_uint_inj in Hp. apply string_of_Z_inj in Hnow.
  split; [lia|exact Hnow].
Qed.

(** X13.  Ids of the zustand store name the type, the counter and the
    millisecond: with a counter that has only been incremented from 0, two
    ids are equal only when type, counter and time are all the same; so
    ids made at different counter values differ. *)
Theorem generateWidgetId_injective (c c' now now' : Z) (type type' : WidgetType) :
  0 <= c -> 0 <= c' ->
  fst (Zustand.generateWidgetId c now type) = fst (Zustand.generateWidgetId c' now' type') ->
  type = type' /\ c = c' /\ now = now'.
Proof. exact (generateWidgetId_distinct c c' now now' type type'). Qed.

Lemma generateWidgetId_injective_witness :
  quote = quote /\ 4 = 4 /\ 1700000000000 = 1700000000000.
Proof.
  apply (generateWidgetId_injective 4 4 1700000000000 1700000000000 quote quote);
    [lia|lia|reflexivity].
Defined.


(** *** When the component renders *)

(** [onStoreChange] takes the new state over exactly when one of the two
    comparisons finds a difference. *)
Lemma onStoreChange_cases (heap : Heap) (newState : Store.WorkspaceState)
    (g : GridLayout.t) :
  onStoreChange heap newState g
  = if widgetsChanged newState g || layoutsChanged heap newState g
    then GridLayout.set_view g (Store.widgets newState) (Store.layouts newState)
    else g.
Proof. reflexivity. Qed.

Lemma setState_widgets_synced (W : World) (newState : Store.WorkspaceState) :
  widgets_synced (setState W newState).
Proof.
  unfold widgets_synced. cbn [setState grid store]. rewrite onStoreChange_cases.
  destruct (widgetsChanged newState (grid W)) eqn:E; cbn [orb]; [reflexivity|].
  unfold widgetsChanged in E. apply negb_false_iff, bool_decide_eq_true in E.
  destruct (layoutsChanged _ _ _); [reflexivity|]. now symmetry.
Qed.

Lemma widgets_synced_ui (W W' : World) :
  store W' = store W -> GridLayout.widgets (grid W') = GridLayout.widgets (grid W) ->
  widgets_synced W -> widgets_synced W'.
Proof. unfold widgets_synced. now intros -> ->. Qed.

Lemma showPlaceholder_widgets gc x y w h (g : GridLayout.t) :
  GridLayout.widgets (showPlaceholder gc x y w h g) = GridLayout.widgets g.
Proof. unfold showPlaceholder. now destruct gc. Qed.

Lemma hidePlaceholder_widgets (g : GridLayout.t) :
  GridLayout.widgets (hidePlaceholder g) = GridLayout.widgets g.
Proof. unfold hidePlaceholder. now destruct (GridLayout.placeholder g). Qed.

Lemma moveWidgetToPosition_synced (widgetId : string) (x y : number) (W : World) :
  widgets_synced W -> widgets_synced (moveWidgetToPosition widgetId x y W).
Proof.
  intros H. destruct (moveWidgetToPosition_cases widgetId x y W) as [->|(p & l & _ & _ & ->)];
    exact H.
Qed.

Lemma resizeWidget_synced (widgetId : string) (w h : number) (W : World) :
  widgets_synced W -> widgets_synced (resizeWidget widgetId w h W).
Proof.
  intros H. destruct (resizeWidget_cases widgetId w h W) as [->|(p & l & _ & _ & ->)];
    exact H.
Qed.

Lemma step_widgets_synced (W : World) (a : Action) :
  widgets_synced W -> widgets_synced (step W a).
Proof.
  intros H. destruct a; cbn [step];
    try apply setState_widgets_synced;
    try (now apply moveWidgetToPosition_synced);
    try (now apply resizeWidget_synced).
  - unfold updateBreakpoint. now destruct (bool_decide _).
  - exact H.
  - apply (widgets_synced_ui W); [| |exact H].
    + apply (handleDragOver_frame gridContainer e W).
    + unfold handleDragOver. destruct (negb _); [reflexivity|].
      destruct (find_ref _ _ _) as [[? ?]|]; [|reflexivity].
      apply showPlaceholder_widgets.
  - destruct (handleDrop_move gridContainer e W) as [->|[widgetId ->]].
    + apply (widgets_synced_ui W); [reflexivity|apply hidePlaceholder_widgets|exact H].
    + apply moveWidgetToPosition_synced.
      apply (widgets_synced_ui W); [reflexivity|apply hidePlaceholder_widgets|exact H].
  - exact H.
  - exact H.
  - apply (widgets_synced_ui W); [| |exact H].
    + apply (handleResizeMove_frame gridContainer e W).
    + unfold handleResizeMove. destruct gridContainer; [|reflexivity].
      destruct (negb _); [reflexivity|].
      destruct (GridLayout.resizeStartPos _) as [[? ?]|]; [|reflexivity].
      destruct (GridLayout.resizeStartSize _) as [[? ?]|]; [|reflexivity].
      destruct (find_ref _ _ _) as [[? ?]|]; [|reflexivity].
      apply showPlaceholder_widgets.
  - apply (widgets_synced_ui W); [| |exact H].
    + apply (handleResizeEnd_never_commits W).
    + unfold handleResizeEnd. destruct (negb _); [reflexivity|]. cbn [grid heap store].
      pose proof (hidePlaceholder_hidden (grid W)) as Hhidden.
      pose proof (hidePlaceholder_widgets (grid W)) as Hw.
      destruct (GridLayout.placeholder (hidePlaceholder (grid W))) as [ph|]; [|exact Hw].
      rewrite Hhidden. exact Hw.
Qed.

Lemma run_widgets_synced (actions : list Action) :
  forall W, widgets_synced W -> widgets_synced (run W actions).
Proof.
  induction actions as [|a actions IH]; intros W H; [exact H|].
  cbn [run fold_left]. apply IH. now apply step_widgets_synced.
Qed.

Lemma renders_same_layouts (W : World) (heap' : Heap) (st : Store.WorkspaceState) :
  widgets_synced W ->
  Store.widgets st = Store.widgets (store W) ->
  Store.layouts st = GridLayout.layouts (grid W) ->
  renders W (mkWorld heap' st (grid W)) = false.
Proof.
  intros Hw Hws Hls. unfold renders, widgetsChanged, layoutsChanged.
  cbn [heap store]. rewrite Hws, Hls.
  rewrite !bool_decide_eq_true_2; [reflexivity|reflexivity|now symmetry].
Qed.

Lemma renders_heap_store (W W1 W2 : World) :
  heap W1 = heap W2 -> store W1 = store W2 -> renders W W1 = renders W W2.
Proof. unfold renders. now intros -> ->. Qed.

(** X14.  A committed move or resize never reaches the store.  After the
    object is written, [moveWidgetToPosition] and [resizeWidget] call
    [updateLayout], which the module does not bind, so the call throws:
    the store's state and every field of the component are what they
    were, no subscriber is notified and nothing is rendered.  All the same
    the store's three layouts then read what the component's current
    layout reads, the new rectangle included, because the object is
    shared.  The notifications of [setCurrentTicker] and of
    [setActiveWidget] find no difference and render nothing.  This is so
    after every run from the empty workspace. *)
Theorem commit_not_rendered (actions : list Action) (widgetId : string)
    (x y w h : number) (ticker active : option string) :
  let W := run initialWorld actions in
  let moved := moveWidgetToPosition widgetId x y W in
  let resized := resizeWidget widgetId w h W in
  (store moved = store W /\ grid moved = grid W)
  /\ (store resized = store W /\ grid resized = grid W)
  /\ (forall bp, layout_of moved bp = active_layout moved
                 /\ layout_of resized bp = active_layout resized)
  /\ renders W (setCurrentTicker ticker W) = false
  /\ renders W (setActiveWidget active W) = false.
Proof.
  cbv zeta.
  pose proof (run_shape actions initialWorld initialWorld_shape) as Hs.
  assert (widgets_synced (run initialWorld actions)) as Hw
    by (apply run_widgets_synced; reflexivity).
  set (W := run initialWorld actions) in *.
  assert (forall W', shape_inv W' -> forall bp, layout_of W' bp = active_layout W') as Hview.
  { intros W' H' bp. unfold layout_of, active_layout.
    now rewrite (sh_sync W' H'), !(shape_get_layout W' _ H'). }
  split; [|split; [|split; [|split]]].
  - destruct (moveWidgetToPosition_cases widgetId x y W) as [->|(p & l & _ & _ & ->)];
      split; reflexivity.
  - destruct (resizeWidget_cases widgetId w h W) as [->|(p & l & _ & _ & ->)];
      split; reflexivity.
  - intros bp. split; apply Hview.
    + now apply moveWidgetToPosition_shape.
    + now apply resizeWidget_shape.
  - rewrite (renders_heap_store W _
               (mkWorld (heap W)
                  (Store.mk (Store.widgets (store W)) (Store.layouts (store W))
                     ticker (Store.activeWidgetId (store W)))
                  (grid W))) by reflexivity.
    apply renders_same_layouts; [exact Hw|reflexivity|]. symmetry. apply Hs.
  - rewrite (renders_heap_store W _
               (mkWorld (heap W)
                  (Store.mk (Store.widgets (store W)) (Store.layouts (store W))
                     (Store.currentTicker (store W)) active)
                  (grid W))) by reflexivity.
    apply renders_same_layouts; [exact Hw|reflexivity|]. symmetry. apply Hs.
Qed.

Lemma fmap_length_neq {A B} (f : A -> B) (l1 l2 : list A) :
  length l1 <> length l2 -> f <$> l1 <> f <$> l2.
Proof.
  intros Hlen Heq. apply Hlen. apply (f_equal (@length B)) in Heq.
  now rewrite !length_fmap in Heq.
Qed.

Lemma filter_length_lt {A} (f : A -> bool) (l : list A) (a : A) :
  In a l -> f a = false -> (length (List.filter f l) < length l)%nat.
Proof.
  induction l as [|b l IH]; intros Hin Hf; [destruct Hin|].
  cbn [List.filter]. destruct Hin as [->|Hin].
  - rewrite Hf. pose proof (List.filter_length_le f l). cbn [length]. lia.
  - specialize (IH Hin Hf). destruct (f b); cbn [length]; lia.
Qed.

(** X15.  Registrations and removals are rendered.  After every run from
    the empty workspace, [addWidget] makes the component take the new
    state over and render, and [removeWidget] does so exactly when some
    widget has the id. *)
Theorem add_remove_rendered (actions : list Action) (now : Z) (type : WidgetType)
    (ticker : option string) (config : WidgetConfig.t) (widgetId : string) :
  let W := run initialWorld actions in
  renders W (addWidget now type ticker config W) = true
  /\ (renders W (removeWidget widgetId W) = true
      <-> In widgetId (map WidgetInstance.id (Store.widgets (store W)))).
Proof.
  cbv zeta.
  pose proof (run_shape actions initialWorld initialWorld_shape) as Hs.
  assert (widgets_synced (run initialWorld actions)) as Hw
    by (apply run_widgets_synced; reflexivity).
  set (W := run initialWorld actions) in *.
  assert (length (GridLayout.widgets (grid W)) = length (Store.widgets (store W))) as Hlen.
  { apply (f_equal (@length _)) in Hw. now rewrite !length_fmap in Hw. }
  split.
  - unfold renders, widgetsChanged, addWidget. cbn [setState store Store.widgets].
    rewrite bool_decide_eq_false_2; [reflexivity|].
    apply fmap_length_neq. rewrite length_app. cbn [length]. lia.
  - split.
    + intros Hr.
      destruct (in_dec string_dec widgetId
                  (map WidgetInstance.id (Store.widgets (store W)))) as [Hin|Hnot];
        [exact Hin|exfalso].
      assert (forall w0, In w0 (Store.widgets (store W)) ->
                         other_widget widgetId w0 = true) as Hall.
      { intros w0 Hin. apply negb_true_iff, String.eqb_neq. intros Heq.
        apply Hnot. rewrite <- Heq. now apply in_map. }
      assert (forall l, In l (items (heap W) (refs W)) -> LayoutItem.i l <> widgetId) as Hit.
      { intros l Hl Heq. apply Hnot. rewrite (sh_ids W Hs), <- Heq. now apply in_map. }
      revert Hr. apply not_true_iff_false.
      rewrite (renders_heap_store W _
                 (mkWorld (heap W)
                    (Store.mk (Store.widgets (store W)) (Store.layouts (store W))
                       (Store.currentTicker (store W))
                       (if bool_decide (Store.activeWidgetId (store W) = Some widgetId)
                        then None else Store.activeWidgetId (store W)))
                    (grid W))).
      * apply renders_same_layouts; [exact Hw|reflexivity|]. symmetry. apply Hs.
      * reflexivity.
      * unfold removeWidget. cbn [setState store]. f_equal.
        -- apply filter_all. exact Hall.
        -- rewrite (sh_md W Hs), (sh_sm W Hs). fold (refs W).
           rewrite !filter_refs_all by exact Hit.
           symmetry. apply shape_layouts_eta. exact Hs.
    + intros Hin. apply in_map_iff in Hin. destruct Hin as (w0 & Hid & Hin).
      unfold renders, widgetsChanged, removeWidget. cbn [setState store Store.widgets].
      rewrite bool_decide_eq_false_2; [reflexivity|].
      apply fmap_length_neq. rewrite Hlen.
      pose proof (filter_length_lt
                    (fun w1 => negb (String.eqb (WidgetInstance.id w1) widgetId))
                    (Store.widgets (store W)) w0 Hin) as Hlt.
      cbv beta in Hlt. rewrite Hid, String.eqb_refl in Hlt.
      specialize (Hlt eq_refl). lia.
Qed.


(** *** The zustand placement is a first fit *)

(** What a counted loop with a body that always ends has done when it
    ends: it returned at the first index whose body returned, or every
    body fell through. *)
Lemma iterate_first {A} (body : Z -> loop_result A) :
  (forall j, body j <> OutOfFuel) ->
  forall n i,
    match iterate n i body Completed with
    | Returned r =>
        exists k, (k < n)%nat /\ body (i + Z.of_nat k) = Returned r
                  /\ forall j, (j < k)%nat -> body (i + Z.of_nat j) = Completed
    | Completed => forall j, (j < n)%nat -> body (i + Z.of_nat j) = Completed
    | OutOfFuel => False
    end.
Proof.
  intros Hb. induction n as [|n IH]; intros i; cbn [iterate].
  - intros j Hj. lia.
  - destruct (body i) as [r| |] eqn:E.
    + exists 0%nat. split; [lia|]. split; [now rewrite Z.add_0_r|]. intros j Hj. lia.
    + specialize (IH (i + 1)).
      destruct (iterate n (i + 1) body Completed) as [r| |].
      * destruct IH as (k & Hk & Hr & Hbefore). exists (S k).
        split; [lia|]. split.
        -- rewrite <- Hr. f_equal. lia.
        -- intros [|j] Hj; [now rewrite Z.add_0_r|].
           rewrite <- (Hbefore j) by lia. f_equal. lia.
      * intros [|j] Hj; [now rewrite Z.add_0_r|].
        rewrite <- (IH j) by lia. f_equal. lia.
      * exact IH.
    + now apply (Hb i).
Qed.

(** The [fits] test of the scan is [row_free]. *)
Lemma fits_row_free (layouts : list LayoutItem.t) (newWidth x y : Z) :
  negb (existsb (fun range : number * number =>
                   nlt (Fin x) (snd range) && ngt (nadd (Fin x) (Fin newWidth)) (fst range))
          (map (fun l => (LayoutItem.x l, nadd (LayoutItem.x l) (LayoutItem.w l)))
             (List.filter
                (fun l => nle (LayoutItem.y l) (Fin y)
                          && ngt (nadd (LayoutItem.y l) (LayoutItem.h l)) (Fin y))
                layouts)))
  = row_free layouts newWidth x y.
Proof.
  unfold row_free. induction layouts as [|l layouts IH]; [reflexivity|].
  cbn [List.filter forallb].
  assert (overlaps (placed "" (Position.mk (Fin x) (Fin y)) (Fin newWidth) (Fin 1)) l
          = (nlt (Fin x) (nadd (LayoutItem.x l) (LayoutItem.w l))
             && ngt (nadd (Fin x) (Fin newWidth)) (LayoutItem.x l))
            && (nle (LayoutItem.y l) (Fin y)
                && ngt (nadd (LayoutItem.y l) (LayoutItem.h l)) (Fin y))) as ->.
  { unfold overlaps, placed. cbn [LayoutItem.x LayoutItem.y LayoutItem.w LayoutItem.h
                                   Position.x Position.y].
    change (nadd (Fin y) (Fin 1)) with (@Fin Z (y + 1)). rewrite ngt_succ_nle.
    unfold ngt. f_equal. apply andb_comm. }
  rewrite <- IH.
  destruct (nle (LayoutItem.y l) (Fin y)
            && ngt (nadd (LayoutItem.y l) (LayoutItem.h l)) (Fin y));
    cbn [map existsb fst snd]; [|now rewrite andb_false_r].
  rewrite andb_true_r, negb_orb. reflexivity.
Qed.

Lemma fold_nmax_Fin (xs : list number) :
  Forall (fun v => is_finite v = true) xs ->
  forall a, exists m, fold_left nmax xs (Fin a) = Fin m.
Proof.
  induction 1 as [|v xs Hv _ IH]; intros a; cbn [fold_left]; [eauto|].
  apply is_finite_Fin in Hv. destruct Hv as [b ->]. rewrite nmax_Fin. apply IH.
Qed.

Lemma bottom_edge_Fin (layouts : list LayoutItem.t) :
  forallb int_item layouts = true -> layouts <> [] ->
  exists m, bottom_edge layouts = Fin m.
Proof.
  intros Hint Hne. destruct layouts as [|l layouts]; [congruence|].
  cbn [forallb] in Hint. apply andb_true_iff in Hint. destruct Hint as [Hl Hint].
  destruct (int_item_Fin l Hl) as (x & y & w & h & _ & Hy & _ & Hh).
  unfold bottom_edge, max_of. cbn [map fold_left]. rewrite Hy, Hh.
  change (nmax NInf (nadd (Fin y) (Fin h))) with (@Fin Z (y + h)).
  apply fold_nmax_Fin. apply List.Forall_forall. intros v Hv.
  apply in_map_iff in Hv. destruct Hv as (l' & <- & Hl').
  rewrite forallb_forall in Hint.
  destruct (int_item_Fin l' (Hint l' Hl')) as (? & y' & ? & h' & _ & -> & _ & ->).
  reflexivity.
Qed.

Lemma findNextPosition_scan (fuel : nat) (layouts : list LayoutItem.t)
    (newWidth : Z) :
  forallb int_item layouts = true -> layouts <> [] ->
  exists x y m,
    Zustand.findNextPosition fuel layouts (Fin newWidth)
    = Some (Position.mk (Fin x) (Fin y))
    /\ bottom_edge layouts = Fin m
    /\ ((0 <= x <= 12 - newWidth /\ 0 <= y <= m
         /\ row_free layouts newWidth x y = true
         /\ forall x' y', 0 <= x' <= 12 - newWidth -> 0 <= y' ->
                          scanned_before x' y' x y ->
                          row_free layouts newWidth x' y' = false)
        \/ (x = 0 /\ y = m
            /\ forall x' y', 0 <= x' <= 12 - newWidth -> 0 <= y' <= m ->
                             row_free layouts newWidth x' y' = false)).
Proof.
  intros Hint Hne.
  destruct (bottom_edge_Fin layouts Hint Hne) as [m Hm].
  unfold Zustand.findNextPosition.
  destruct layouts as [|l0 layouts']; [congruence|].
  cbn [length Nat.eqb].
  revert Hm. generalize (l0 :: layouts'). clear. intros layouts Hm.
  unfold bottom_edge in Hm. rewrite Hm.
  change (nsub (Fin 12) (Fin newWidth)) with (@Fin Z (12 + - newWidth)).
  cbn [for_upto].
  set (body := fun y : Z =>
                 iterate (Z.to_nat (12 + - newWidth + 1)) 0
                   (fun x : Z =>
                      if negb (existsb _ _)
                      then Returned (Position.mk (Fin x) (Fin y)) else Completed)
                   Completed).
  assert (forall y,
             match body y with
             | Returned p =>
                 exists x, p = Position.mk (Fin x) (Fin y)
                           /\ 0 <= x <= 12 - newWidth
                           /\ row_free layouts newWidth x y = true
                           /\ forall x', 0 <= x' < x ->
                                         row_free layouts newWidth x' y = false
             | Completed =>
                 forall x', 0 <= x' <= 12 - newWidth ->
                            row_free layouts newWidth x' y = false
             | OutOfFuel => False
             end) as Hrow.
  { intros y. unfold body.
    match goal with
    | |- match iterate ?n 0 ?b Completed with _ => _ end =>
        pose proof (iterate_first b) as Hi;
        assert (forall j, b j <> OutOfFuel) as Hb
          by (intros j; cbv beta; destruct (negb _); discriminate);
        specialize (Hi Hb n 0);
        assert (forall j, b j = if row_free layouts newWidth j y
                                then Returned (Position.mk (Fin j) (Fin y))
                                else Completed) as Hfits
          by (intros j; cbv beta; now rewrite fits_row_free);
        destruct (iterate n 0 b Completed) as [p| |]
    end.
    - destruct Hi as (k & Hk & Hr & Hbefore). exists (Z.of_nat k).
      rewrite Hfits in Hr. rewrite Z.add_0_l in Hr.
      destruct (row_free layouts newWidth (Z.of_nat k) y) eqn:E; [|discriminate].
      split; [congruence|]. split; [lia|]. split; [reflexivity|].
      intros x' Hx'. specialize (Hbefore (Z.to_nat x')).
      rewrite Hfits in Hbefore. rewrite Z.add_0_l in Hbefore.
      rewrite Z2Nat.id in Hbefore by lia.
      destruct (row_free layouts newWidth x' y); [|reflexivity].
      specialize (Hbefore ltac:(lia)). discriminate.
    - intros x' Hx'. specialize (Hi (Z.to_nat x') ltac:(lia)).
      rewrite Hfits in Hi. rewrite Z.add_0_l in Hi. rewrite Z2Nat.id in Hi by lia.
      destruct (row_free layouts newWidth x' y); [discriminate|reflexivity].
    - exact Hi. }
  assert (forall y, body y <> OutOfFuel) as Hbody.
  { intros y E. specialize (Hrow y). now rewrite E in Hrow. }
  pose proof (iterate_first body Hbody (Z.to_nat (m + 1)) 0) as Hrows.
  destruct (iterate (Z.to_nat (m + 1)) 0 body Completed) as [p| |].
  - destruct Hrows as (k & Hk & Hr & Hbefore). rewrite Z.add_0_l in Hr.
    pose proof (Hrow (Z.of_nat k)) as Hk'. rewrite Hr in Hk'.
    destruct Hk' as (x & -> & Hx & Hfree & Hleft).
    exists x, (Z.of_nat k), m. split; [reflexivity|]. split; [exact Hm|]. left.
    split; [exact Hx|]. split; [lia|]. split; [exact Hfree|].
    intros x' y' Hx' Hy' [Hlt|[-> Hlt]].
    + specialize (Hbefore (Z.to_nat y') ltac:(lia)). rewrite Z.add_0_l in Hbefore.
      rewrite Z2Nat.id in Hbefore by lia.
      pose proof (Hrow y') as Hy''. rewrite Hbefore in Hy''. now apply Hy''.
    + apply Hleft. lia.
  - exists 0, m, m. split; [reflexivity|]. split; [exact Hm|]. right.
    split; [reflexivity|]. split; [reflexivity|].
    intros x' y' Hx' Hy'.
    specialize (Hrows (Z.to_nat y') ltac:(lia)). rewrite Z.add_0_l in Hrows.
    rewrite Z2Nat.id in Hrows by lia.
    pose proof (Hrow y') as Hy''. rewrite Hrows in Hy''. now apply Hy''.
  - destruct Hrows.
Qed.

(** X16.  [findNextPosition] is a first fit.  On a non-empty layout of
    integer rectangles it returns, for every fuel.  Either it returns a
    cell within columns 0..12-width and rows 0..bottom edge that is free
    for the new width, and no cell scanned before it (rows top down, each
    row left to right) is free; or no cell of these rows and columns is
    free and it returns column 0 of the row at the bottom edge. *)
Theorem findNextPosition_first_fit (fuel : nat) (layouts : list LayoutItem.t)
    (newWidth : Z) :
  forallb int_item layouts = true -> layouts <> [] ->
  exists x y m,
    Zustand.findNextPosition fuel layouts (Fin newWidth)
    = Some (Position.mk (Fin x) (Fin y))
    /\ bottom_edge layouts = Fin m
    /\ ((0 <= x <= 12 - newWidth /\ 0 <= y <= m
         /\ row_free layouts newWidth x y = true
         /\ forall x' y', 0 <= x' <= 12 - newWidth -> 0 <= y' ->
                          scanned_before x' y' x y ->
                          row_free layouts newWidth x' y' = false)
        \/ (x = 0 /\ y = m
            /\ forall x' y', 0 <= x' <= 12 - newWidth -> 0 <= y' <= m ->
                             row_free layouts newWidth x' y' = false)).
Proof. exact (findNextPosition_scan fuel layouts newWidth). Qed.

Lemma findNextPosition_first_fit_witness :
  exists x y m,
    Zustand.findNextPosition 0 scenarioA (Fin 3) = Some (Position.mk (Fin x) (Fin y))
    /\ bottom_edge scenarioA = Fin m.
Proof.
  destruct (findNextPosition_first_fit 0 scenarioA 3 eq_refl ltac:(discriminate))
    as (x & y & m & H & Hm & _).
  exists x, y, m. auto.
Defined.


(** *** Sessions of the zustand store *)

(** What a registration returns. *)
Lemma zustand_addWidget_Some fuel counter now type ticker config
    (st : Zustand.WorkspaceState) id counter' (st' : Zustand.WorkspaceState) :
  Zustand.addWidget fuel counter now type ticker config st = Some (id, counter', st') ->
  exists pos,
    Zustand.findNextPosition fuel (WorkspaceLayouts.lg (Zustand.layouts st))
      (Fin (WidgetSize.w (DEFAULT_WIDGET_SIZES type))) = Some pos
    /\ id = fst (Zustand.generateWidgetId counter now type)
    /\ counter' = counter + 1
    /\ st' = Zustand.mkState
               (Zustand.widgets st
                  ++ [WidgetInstance.mk id type ticker
                        (Zustand.generateWidgetTitle type ticker) config])
               (WorkspaceLayouts.mk
                  (WorkspaceLayouts.lg (Zustand.layouts st)
                     ++ [new_layout_item id pos (DEFAULT_WIDGET_SIZES type)])
                  (WorkspaceLayouts.md (Zustand.layouts st)
                     ++ [md_item (new_layout_item id pos (DEFAULT_WIDGET_SIZES type))])
                  (WorkspaceLayouts.sm (Zustand.layouts st)
                     ++ [sm_item (new_layout_item id pos (DEFAULT_WIDGET_SIZES type))]))
               (Zustand.activeTicker st) (Zustand.commandPaletteOpen st).
Proof.
  unfold Zustand.addWidget. cbn [Zustand.generateWidgetId fst].
  destruct (Zustand.findNextPosition _ _ _) as [pos|]; [|discriminate].
  intros H. injection H as <- <- <-. exists pos. auto.
Qed.

Lemma made_before_mono (c c' : Z) (id : string) :
  c <= c' -> made_before c id -> made_before c' id.
Proof.
  intros Hle (c0 & now & type & Hc0 & ->). exists c0, now, type. split; [lia|reflexivity].
Qed.

Lemma addWidget_session_inv fuel counter now type ticker config
    (st : Zustand.WorkspaceState) id counter' (st' : Zustand.WorkspaceState) :
  session_inv (counter, st) ->
  Zustand.addWidget fuel counter now type ticker config st = Some (id, counter', st') ->
  session_inv (counter', st').
Proof.
  intros [Hc Ht Hm Hn] H. cbn [fst snd] in *.
  apply zustand_addWidget_Some in H. destruct H as (pos & _ & Hid & -> & ->).
  split; cbn [fst snd Zustand.widgets].
  - lia.
  - apply Forall_app. split; [exact Ht|]. constructor; [reflexivity|constructor].
  - apply Forall_app. split.
    + eapply Forall_impl; [exact Hm|]. intros w. apply made_before_mono. lia.
    + constructor; [|constructor]. cbn [WidgetInstance.id].
      exists counter, now, type. split; [lia|exact Hid].
  - rewrite map_app. cbn [map WidgetInstance.id]. apply NoDup_app.
    split; [exact Hn|]. split; [|apply NoDup_singleton].
    intros x Hx Hx'. apply list_elem_of_singleton in Hx'. subst x.
    apply list_elem_of_In, in_map_iff in Hx. destruct Hx as (w & Hw & Hin).
    rewrite List.Forall_forall in Hm. destruct (Hm w Hin) as (c0 & now0 & type0 & Hc0 & Hw0).
    rewrite Hw0 in Hw. rewrite Hid in Hw.
    apply generateWidgetId_distinct in Hw; lia.
Qed.

Lemma map_if_ids (f : WidgetInstance.t -> bool) (g : WidgetInstance.t -> WidgetInstance.t)
    (ws : list WidgetInstance.t) :
  (forall w, WidgetInstance.id (g w) = WidgetInstance.id w) ->
  map WidgetInstance.id (map (fun w => if f w then g w else w) ws)
  = map WidgetInstance.id ws.
Proof.
  intros Hg. induction ws as [|w ws IH]; [reflexivity|]. cbn [map]. rewrite IH.
  destruct (f w); [now rewrite Hg|reflexivity].
Qed.

Lemma Forall_map_if {A} (P : A -> Prop) (f : A -> bool) (g : A -> A) (l : list A) :
  (forall a, P a -> P (g a)) -> Forall P l ->
  Forall P (map (fun a => if f a then g a else a) l).
Proof.
  intros Hg. induction 1 as [|a l Ha _ IH]; cbn [map]; constructor; [|exact IH].
  destruct (f a); auto.
Qed.

Lemma Forall_list_filter {A} (P : A -> Prop) (f : A -> bool) (l : list A) :
  Forall P l -> Forall P (List.filter f l).
Proof.
  induction 1 as [|a l Ha _ IH]; cbn [List.filter]; [constructor|].
  destruct (f a); [constructor|]; auto.
Qed.

Lemma session_inv_widgets (counter : Z) (st st' : Zustand.WorkspaceState) :
  Zustand.widgets st' = Zustand.widgets st ->
  session_inv (counter, st) -> session_inv (counter, st').
Proof. intros Hw [Hc Ht Hm Hn]. split; cbn [fst snd] in *; rewrite ?Hw; assumption. Qed.

Lemma session_inv_reset (counter : Z) (st : Zustand.WorkspaceState) :
  0 <= counter -> session_inv (counter, Zustand.resetWorkspace st).
Proof. intros Hc. split; cbn; [exact Hc|constructor|constructor|constructor]. Qed.

Lemma addEach_session_inv fuel (types : list WidgetType) (now : nat -> Z) :
  forall k cs cs',
    session_inv cs -> Zustand.addEach fuel types now k cs = Some cs' -> session_inv cs'.
Proof.
  induction types as [|type types IH]; intros k [counter st] cs' Hinv H;
    cbn [Zustand.addEach fst snd] in H.
  - congruence.
  - destruct (Zustand.addWidget _ _ _ _ _ _ _) as [[[id c'] st']|] eqn:E; [|discriminate].
    apply (IH _ _ _ (addWidget_session_inv _ _ _ _ _ _ _ _ _ _ Hinv E) H).
Qed.

Lemma step_session_inv fuel (cs cs' : Zustand.Session) (a : Zustand.Action) :
  session_inv cs -> Zustand.step fuel cs a = Some cs' -> session_inv cs'.
Proof.
  destruct cs as [counter st]. intros Hinv H.
  destruct a; cbn [Zustand.step] in H;
    try (injection H as <-; now apply (session_inv_widgets counter st)).
  - destruct (Zustand.addWidget _ _ _ _ _ _ _) as [[[id' c'] st']|] eqn:E; [|discriminate].
    injection H as <-. eapply addWidget_session_inv; eauto.
  - injection H as <-. destruct Hinv as [Hc Ht Hm Hn]. cbn [fst snd] in *.
    split; cbn [fst snd Zustand.removeWidget Zustand.widgets].
    + exact Hc.
    + now apply Forall_list_filter.
    + now apply Forall_list_filter.
    + rewrite (map_filter_comm WidgetInstance.id (fun i => negb (String.eqb i id))).
      now apply NoDup_list_filter.
  - injection H as <-. destruct Hinv as [Hc Ht Hm Hn]. cbn [fst snd] in *.
    split; cbn [fst snd Zustand.updateWidgetConfig Zustand.widgets].
    + exact Hc.
    + apply Forall_map_if; [|exact Ht]. intros w Hw. exact Hw.
    + apply Forall_map_if; [|exact Hm]. intros w Hw. exact Hw.
    + rewrite map_if_ids; [exact Hn|reflexivity].
  - injection H as <-. destruct Hinv as [Hc Ht Hm Hn]. cbn [fst snd] in *.
    split; cbn [fst snd Zustand.updateWidgetTicker Zustand.widgets].
    + exact Hc.
    + apply Forall_map_if; [|exact Ht]. intros w Hw. reflexivity.
    + apply Forall_map_if; [|exact Hm]. intros w Hw. exact Hw.
    + rewrite map_if_ids; [exact Hn|reflexivity].
  - injection H as <-. apply session_inv_reset. apply Hinv.
  - unfold Zustand.loadPreset in H. cbn [fst snd] in H.
    eapply addEach_session_inv; [|exact H]. apply session_inv_reset. apply Hinv.
Qed.

Lemma run_session_inv fuel (actions : list Zustand.Action) :
  forall cs cs', session_inv cs -> Zustand.run fuel cs actions = Some cs' -> session_inv cs'.
Proof.
  induction actions as [|a actions IH]; intros cs cs' Hinv H; cbn [Zustand.run] in H.
  - congruence.
  - destruct (Zustand.step fuel cs a) as [cs1|] eqn:E; [|discriminate].
    eapply IH; [|exact H]. eapply step_session_inv; eauto.
Qed.

Lemma initial_session_inv : session_inv (0, Zustand.initial).
Proof. split; cbn; [lia|constructor|constructor|constructor]. Qed.

(** X17.  Ids of a zustand session are unique.  In every state a session
    reaches from the initial one, by any of the store's actions, no two
    widgets have the same id, and the id the next registration makes is
    the id of no widget. *)
Theorem zustand_ids_unique (fuel : nat) (actions : list Zustand.Action)
    (counter : Z) (st : Zustand.WorkspaceState) :
  Zustand.run fuel (0, Zustand.initial) actions = Some (counter, st) ->
  NoDup (map WidgetInstance.id (Zustand.widgets st))
  /\ forall now type,
       forallb (other_widget (fst (Zustand.generateWidgetId counter now type)))
               (Zustand.widgets st) = true.
Proof.
  intros H. pose proof (run_session_inv fuel actions _ _ initial_session_inv H) as Hinv.
  destruct Hinv as [Hc _ Hm Hn]. cbn [fst snd] in *.
  split; [exact Hn|]. intros now type. apply forallb_forall. intros w Hw.
  apply negb_true_iff, String.eqb_neq. intros Heq.
  rewrite List.Forall_forall in Hm. destruct (Hm w Hw) as (c0 & now0 & type0 & Hc0 & Hw0).
  rewrite Hw0 in Heq. apply generateWidgetId_distinct in Heq; lia.
Qed.

Lemma zustand_ids_unique_witness :
  exists counter st,
    Zustand.run 0 (0, Zustand.initial) zustand_session = Some (counter, st)
    /\ NoDup (map WidgetInstance.id (Zustand.widgets st)).
Proof.
  eexists _, _. split; [vm_compute; reflexivity|].
  eapply (zustand_ids_unique 0 zustand_session). vm_compute. reflexivity.
Defined.

(** X18.  Titles of a zustand session follow type and ticker.  In every
    state a session reaches from the initial one, each widget's title is
    what [generateWidgetTitle] gives for its type and its current ticker:
    [updateWidgetTicker] renames, and no other action lets them drift. *)
Theorem zustand_titles_follow_ticker (fuel : nat) (actions : list Zustand.Action)
    (counter : Z) (st : Zustand.WorkspaceState) (w : WidgetInstance.t) :
  Zustand.run fuel (0, Zustand.initial) actions = Some (counter, st) ->
  In w (Zustand.widgets st) ->
  WidgetInstance.title w
  = Zustand.generateWidgetTitle (WidgetInstance.type w) (WidgetInstance.ticker w).
Proof.
  intros H Hw. pose proof (run_session_inv fuel actions _ _ initial_session_inv H) as Hinv.
  destruct Hinv as [_ Ht _ _]. cbn [snd] in Ht.
  rewrite List.Forall_forall in Ht. now apply Ht.
Qed.


Lemma zustand_titles_follow_ticker_witness :
  "Chart: BTC" = Zustand.generateWidgetTitle chart (Some "BTC").
Proof.
  refine (zustand_titles_follow_ticker 0 zustand_session _ _
            (WidgetInstance.mk "chart-5-30" chart (Some "BTC") "Chart: BTC"
               WidgetConfig.empty) _ _).
  - vm_compute. reflexivity.
  - vm_compute. tauto.
Defined.

Lemma findNextPosition_int (fuel : nat) (layouts : list LayoutItem.t) (newWidth : Z) :
  forallb int_item layouts = true ->
  exists x y,
    Zustand.findNextPosition fuel layouts (Fin newWidth)
    = Some (Position.mk (Fin x) (Fin y)).
Proof.
  intros Hint. destruct layouts as [|l layouts]; [exists 0, 0; reflexivity|].
  destruct (findNextPosition_scan fuel (l :: layouts) newWidth Hint ltac:(discriminate))
    as (x & y & _ & H & _).
  eauto.
Qed.

Lemma forallb_list_filter {A} (P f : A -> bool) (l : list A) :
  forallb P l = true -> forallb P (List.filter f l) = true.
Proof.
  rewrite !forallb_forall. intros H a Ha. apply filter_In in Ha. apply H, Ha.
Qed.

Lemma filter_map_item (g : LayoutItem.t -> LayoutItem.t) (id : string)
    (ls : list LayoutItem.t) :
  (forall l, LayoutItem.i (g l) = LayoutItem.i l) ->
  List.filter (fun l => negb (String.eqb (LayoutItem.i l) id)) (map g ls)
  = map g (List.filter (fun l => negb (String.eqb (LayoutItem.i l) id)) ls).
Proof.
  intros Hg. induction ls as [|l ls IH]; [reflexivity|]. cbn [map List.filter].
  rewrite Hg, IH. destruct (negb _); reflexivity.
Qed.

Lemma derived_layouts_widgets (st st' : Zustand.WorkspaceState) :
  map WidgetInstance.id (Zustand.widgets st') = map WidgetInstance.id (Zustand.widgets st) ->
  Zustand.layouts st' = Zustand.layouts st ->
  derived_layouts st -> derived_layouts st'.
Proof. intros Hw Hl [Hi Hint Hmd Hsm]. split; rewrite ?Hw, ?Hl; assumption. Qed.

Lemma derived_layouts_reset (st : Zustand.WorkspaceState) :
  derived_layouts (Zustand.resetWorkspace st).
Proof. split; reflexivity. Qed.

Lemma addWidget_derived fuel counter now type ticker config (st : Zustand.WorkspaceState) :
  derived_layouts st ->
  exists id st',
    Zustand.addWidget fuel counter now type ticker config st
    = Some (id, counter + 1, st')
    /\ derived_layouts st'.
Proof.
  intros [Hi Hint Hmd Hsm].
  destruct (findNextPosition_int fuel (WorkspaceLayouts.lg (Zustand.layouts st))
              (WidgetSize.w (DEFAULT_WIDGET_SIZES type)) Hint) as (x & y & Hpos).
  unfold Zustand.addWidget. cbn [Zustand.generateWidgetId]. rewrite Hpos.
  eexists _, _. split; [reflexivity|].
  split; cbn [Zustand.layouts Zustand.widgets WorkspaceLayouts.lg WorkspaceLayouts.md
                WorkspaceLayouts.sm].
  - rewrite !map_app, Hi. reflexivity.
  - rewrite forallb_app, Hint. reflexivity.
  - rewrite map_app, Hmd. reflexivity.
  - rewrite map_app, Hsm. reflexivity.
Qed.

Lemma addEach_derived fuel (types : list WidgetType) (now : nat -> Z) :
  forall k counter st,
    derived_layouts st ->
    exists counter' st',
      Zustand.addEach fuel types now k (counter, st) = Some (counter', st')
      /\ derived_layouts st'.
Proof.
  induction types as [|type types IH]; intros k counter st Hd; cbn [Zustand.addEach fst snd].
  - eauto.
  - destruct (addWidget_derived fuel counter (now k) type None WidgetConfig.empty st Hd)
      as (id & st' & -> & Hd').
    apply IH, Hd'.
Qed.

Lemma step_derived fuel (counter : Z) (st : Zustand.WorkspaceState) (a : Zustand.Action) :
  hands_no_layout_back a = true -> derived_layouts st ->
  exists counter' st',
    Zustand.step fuel (counter, st) a = Some (counter', st') /\ derived_layouts st'.
Proof.
  intros Ha Hd. destruct a; try discriminate Ha; cbn [Zustand.step].
  - destruct (addWidget_derived fuel counter now type ticker config st Hd)
      as (id & st' & -> & Hd').
    eauto.
  - eexists _, _. split; [reflexivity|]. destruct Hd as [Hi Hint Hmd Hsm].
    split; cbn [Zustand.removeWidget Zustand.layouts Zustand.widgets WorkspaceLayouts.lg
                  WorkspaceLayouts.md WorkspaceLayouts.sm].
    + rewrite (map_filter_comm LayoutItem.i (fun i => negb (String.eqb i id))).
      rewrite (map_filter_comm WidgetInstance.id (fun i => negb (String.eqb i id))).
      now rewrite Hi.
    + now apply forallb_list_filter.
    + rewrite Hmd. apply filter_map_item. reflexivity.
    + rewrite Hsm. apply filter_map_item. reflexivity.
  - eexists _, _. split; [reflexivity|].
    apply (derived_layouts_widgets st); [|reflexivity|exact Hd].
    apply map_if_ids. reflexivity.
  - eexists _, _. split; [reflexivity|].
    apply (derived_layouts_widgets st); [|reflexivity|exact Hd].
    apply map_if_ids. reflexivity.
  - eexists _, _. split; [reflexivity|]. now apply (derived_layouts_widgets st).
  - eexists _, _. split; [reflexivity|]. now apply (derived_layouts_widgets st).
  - eexists _, _. split; [reflexivity|]. now apply (derived_layouts_widgets st).
  - eexists _, _. split; [reflexivity|]. apply derived_layouts_reset.
  - unfold Zustand.loadPreset. cbn [fst snd]. apply addEach_derived, derived_layouts_reset.
Qed.

Lemma run_derived fuel (actions : list Zustand.Action) :
  forall counter st,
    forallb hands_no_layout_back actions = true -> derived_layouts st ->
    exists counter' st',
      Zustand.run fuel (counter, st) actions = Some (counter', st') /\ derived_layouts st'.
Proof.
  induction actions as [|a actions IH]; intros counter st Hall Hd; cbn [Zustand.run].
  - eauto.
  - cbn [forallb] in Hall. apply andb_true_iff in Hall. destruct Hall as [Ha Hall].
    destruct (step_derived fuel counter st a Ha Hd) as (c1 & st1 & -> & Hd1).
    now apply IH.
Qed.

(** X19.  A zustand session in which no layout is handed back through
    [updateLayouts] always returns, for every fuel, and in the state it
    reaches the large layout lists the widgets in their order as integer
    rectangles, the medium layout is the large one with every width capped
    at 6, and the small layout is the large one with every item at column
    0 and of width 6. *)
Theorem zustand_layouts_derived (fuel : nat) (actions : list Zustand.Action) :
  forallb hands_no_layout_back actions = true ->
  exists counter st,
    Zustand.run fuel (0, Zustand.initial) actions = Some (counter, st)
    /\ map LayoutItem.i (WorkspaceLayouts.lg (Zustand.layouts st))
       = map WidgetInstance.id (Zustand.widgets st)
    /\ forallb int_item (WorkspaceLayouts.lg (Zustand.layouts st)) = true
    /\ WorkspaceLayouts.md (Zustand.layouts st)
       = map md_item (WorkspaceLayouts.lg (Zustand.layouts st))
    /\ WorkspaceLayouts.sm (Zustand.layouts st)
       = map sm_item (WorkspaceLayouts.lg (Zustand.layouts st)).
Proof.
  intros Hall.
  destruct (run_derived fuel actions 0 Zustand.initial Hall ltac:(split; reflexivity))
    as (counter & st & Hrun & [Hi Hint Hmd Hsm]).
  exists counter, st. auto.
Qed.

Lemma zustand_layouts_derived_witness :
  exists counter st,
    Zustand.run 0 (0, Zustand.initial) zustand_session = Some (counter, st)
    /\ WorkspaceLayouts.sm (Zustand.layouts st)
       = map sm_item (WorkspaceLayouts.lg (Zustand.layouts st)).
Proof.
  destruct (zustand_layouts_derived 0 zustand_session eq_refl)
    as (counter & st & H & _ & _ & _ & Hsm).
  exists counter, st. auto.
Defined.


(** [addWidget], with the pair that [generateWidgetId] returns taken apart. *)
Lemma zustand_addWidget_eq fuel counter now type ticker config
    (st : Zustand.WorkspaceState) :
  Zustand.addWidget fuel counter now type ticker config st
  = let id := fst (Zustand.generateWidgetId counter now type) in
    match Zustand.findNextPosition fuel (WorkspaceLayouts.lg (Zustand.layouts st))
            (Fin (WidgetSize.w (DEFAULT_WIDGET_SIZES type))) with
    | None => None
    | Some pos =>
        let item := new_layout_item id pos (DEFAULT_WIDGET_SIZES type) in
        Some (id, counter + 1,
              Zustand.mkState
                (Zustand.widgets st
                   ++ [WidgetInstance.mk id type ticker
                         (Zustand.generateWidgetTitle type ticker) config])
                (WorkspaceLayouts.mk
                   (WorkspaceLayouts.lg (Zustand.layouts st) ++ [item])
                   (WorkspaceLayouts.md (Zustand.layouts st) ++ [md_item item])
                   (WorkspaceLayouts.sm (Zustand.layouts st) ++ [sm_item item]))
                (Zustand.activeTicker st) (Zustand.commandPaletteOpen st))
    end.
Proof. reflexivity. Qed.

(** One registration of a preset, with the id and the counter named. *)
Ltac preset_step :=
  cbn [Zustand.addEach fst snd];
  rewrite zustand_addWidget_eq;
  match goal with
  | |- context [fst (Zustand.generateWidgetId ?c ?n ?t)] =>
      generalize (fst (Zustand.generateWidgetId c n t)); intros ?id
  end;
  cbv zeta;
  match goal with
  | |- context [Zustand.findNextPosition ?f ?l ?w] =>
      let v := eval vm_compute in (Zustand.findNextPosition f l w) in
      change (Zustand.findNextPosition f l w) with v
  end;
  cbv iota beta.

(** X20.  [loadPreset] builds a clean workspace.  Whatever the state, the
    counter and the clock, it returns; the widgets are those of the preset,
    in order and without ticker; the counter has advanced by their number;
    the large and the medium layout have no two overlapping items and stay
    within the twelve columns; the active ticker is cleared and the command
    palette is left as it was. *)
Theorem loadPreset_workspace (fuel : nat) (preset : Zustand.Preset) (now : nat -> Z)
    (counter : Z) (st : Zustand.WorkspaceState) :
  exists st',
    Zustand.loadPreset fuel preset now (counter, st)
    = Some (counter + Z.of_nat (length (Zustand.presetWidgets preset)), st')
    /\ map WidgetInstance.type (Zustand.widgets st') = Zustand.presetWidgets preset
    /\ map WidgetInstance.ticker (Zustand.widgets st')
       = map (fun _ => None) (Zustand.presetWidgets preset)
    /\ no_overlap_b (WorkspaceLayouts.lg (Zustand.layouts st')) = true
    /\ no_overlap_b (WorkspaceLayouts.md (Zustand.layouts st')) = true
    /\ forallb in_bounds (WorkspaceLayouts.lg (Zustand.layouts st')) = true
    /\ forallb in_bounds (WorkspaceLayouts.md (Zustand.layouts st')) = true
    /\ Zustand.activeTicker st' = None
    /\ Zustand.commandPaletteOpen st' = Zustand.commandPaletteOpen st.
Proof.
  unfold Zustand.loadPreset.
  destruct preset; cbn [Zustand.presetWidgets length]; repeat preset_step;
    cbn [Zustand.addEach];
    eexists;
    (split;
     [match goal with
      | |- Some (?a, _) = Some (?c, _) => replace a with c by lia; reflexivity
      end|]);
    vm_compute; repeat split.
Qed.


(** *** The resize preview *)






(** *** The market data store *)

Lemma Obj_get_put_eq {V} (k : string) (v : V) (o : Obj.t V) :
  Obj.get k (Obj.put k v o) = Some v.
Proof.
  induction o as [|[k' v'] o IH]; cbn [Obj.put Obj.get].
  - now rewrite String.eqb_refl.
  - destruct (String.eqb k' k) eqn:E; cbn [Obj.get]; rewrite ?String.eqb_refl, ?E; auto.
Qed.

Lemma Obj_get_put_ne {V} (k k' : string) (v : V) (o : Obj.t V) :
  k' <> k -> Obj.get k (Obj.put k' v o) = Obj.get k o.
Proof.
  intros Hne. induction o as [|[k0 v0] o IH]; cbn [Obj.put Obj.get].
  - now apply String.eqb_neq in Hne as ->.
  - destruct (String.eqb k0 k') eqn:E; cbn [Obj.get].
    + apply String.eqb_eq in E. subst k0.
      now apply String.eqb_neq in Hne as ->.
    + now rewrite IH.
Qed.

Lemma firstn_app_firstn {A} (n : nat) (a b : list A) :
  firstn n (a ++ firstn n b) = firstn n (a ++ b).
Proof.
  rewrite !List.firstn_app, List.firstn_firstn. do 2 f_equal. lia.
Qed.

Lemma addFill_get (f : Fill.t) (state : MarketData.MarketDataState) :
  Obj.inherited (Fill.ticker f) = false ->
  exists state',
    MarketData.addFill f state = Some state'
    /\ (forall t,
           Obj.get t (MarketData.fills state')
           = if String.eqb (Fill.ticker f) t
             then Some (firstn 100 (f :: default [] (Obj.get t (MarketData.fills state))))
             else Obj.get t (MarketData.fills state))
    /\ MarketData.set_fills state' (MarketData.fills state) = state.
Proof.
  intros Hinh. unfold MarketData.addFill. rewrite Hinh.
  destruct (Obj.get (Fill.ticker f) (MarketData.fills state)) as [old|] eqn:E;
    (eexists; split; [reflexivity|]; split; [|destruct state; reflexivity]);
    intros t; cbn [MarketData.set_fills MarketData.fills];
    (destruct (String.eqb (Fill.ticker f) t) eqn:Et;
     [apply String.eqb_eq in Et; subst t; rewrite Obj_get_put_eq, E; reflexivity
     |apply String.eqb_neq in Et; now rewrite Obj_get_put_ne]).
Qed.

(** X22.  The store keeps the latest hundred fills of every ticker, newest
    first.  A feed of fills whose tickers are not names of
    [Object.prototype], added one by one with [addFill], is accepted
    whole; afterwards a ticker the feed did not mention has the fills it
    had, and a ticker it did mention has its fills of the feed in reverse
    order of arrival, followed by those it had, cut after the hundredth.
    Nothing but the fills is changed. *)
Theorem addFills_keeps_latest (feed : list Fill.t) (state : MarketData.MarketDataState) :
  (forall f, In f feed -> Obj.inherited (Fill.ticker f) = false) ->
  exists state',
    MarketData.addFills feed state = Some state'
    /\ (forall t,
           Obj.get t (MarketData.fills state')
           = match fills_of t feed with
             | [] => Obj.get t (MarketData.fills state)
             | _ :: _ =>
                 Some (firstn 100 (rev (fills_of t feed)
                                   ++ default [] (Obj.get t (MarketData.fills state))))
             end)
    /\ MarketData.set_fills state' (MarketData.fills state) = state.
Proof.
  revert state. induction feed as [|f feed IH]; intros state Hinh; cbn [MarketData.addFills].
  - exists state. split; [reflexivity|]. split; [reflexivity|]. now destruct state.
  - destruct (addFill_get f state (Hinh f (or_introl eq_refl))) as (s1 & -> & Hget1 & Hrest1).
    destruct (IH s1 (fun f' Hf' => Hinh f' (or_intror Hf'))) as (s2 & -> & Hget2 & Hrest2).
    exists s2. split; [reflexivity|]. split.
    + intros t. rewrite Hget2, !Hget1. unfold fills_of. cbn [List.filter].
      destruct (String.eqb (Fill.ticker f) t).
      * fold (fills_of t feed). destruct (fills_of t feed) as [|f' new]; [reflexivity|].
        cbn [default from_option id]. f_equal.
        change (firstn 100 (rev (f' :: new)
                            ++ firstn 100 (f :: default [] (Obj.get t (MarketData.fills state))))
                = firstn 100 (rev (f :: f' :: new)
                              ++ default [] (Obj.get t (MarketData.fills state)))).
        rewrite firstn_app_firstn. cbn [rev]. now rewrite <- !app_assoc.
      * reflexivity.
    + rewrite <- Hrest1 at 2. rewrite <- Hrest2. destruct s2; reflexivity.
Qed.

Lemma addFills_keeps_latest_witness :
  exists state',
    MarketData.addFills [fill "KX" "1"; fill "BTC" "2"; fill "KX" "3"] MarketData.initial
    = Some state'
    /\ Obj.get "KX" (MarketData.fills state') = Some [fill "KX" "3"; fill "KX" "1"].
Proof.
  destruct (addFills_keeps_latest [fill "KX" "1"; fill "BTC" "2"; fill "KX" "3"]
              MarketData.initial)
    as (state' & H & Hget & _).
  - intros f [<-|[<-|[<-|[]]]]; reflexivity.
  - exists state'. split; [exact H|]. exact (Hget "KX").
Defined.

Lemma new_Set_acc (xs : list string) :
  forall acc, NoDup (acc ++ xs) ->
    fold_left (fun acc x => if existsb (String.eqb x) acc then acc else acc ++ [x]) xs acc
    = acc ++ xs.
Proof.
  induction xs as [|x xs IH]; intros acc Hnd; cbn [fold_left].
  - now rewrite app_nil_r.
  - assert (existsb (String.eqb x) acc = false) as ->.
    { destruct (existsb _ acc) eqn:E; [|reflexivity]. exfalso.
      apply existsb_exists in E. destruct E as (y & Hy & Heq).
      apply String.eqb_eq in Heq. subst y.
      apply NoDup_app in Hnd. destruct Hnd as (_ & Hdisj & _).
      apply (Hdisj x); [now apply list_elem_of_In|left]. }
    rewrite IH; [now rewrite <- app_assoc|].
    now rewrite <- app_assoc.
Qed.

Lemma new_Set_NoDup (xs : list string) : NoDup xs -> new_Set xs = xs.
Proof. intros H. unfold new_Set. now rewrite new_Set_acc. Qed.

Lemma new_Set_snoc (xs : list string) (x : string) :
  NoDup xs ->
  new_Set (xs ++ [x]) = if existsb (String.eqb x) xs then xs else xs ++ [x].
Proof.
  intros H. unfold new_Set. rewrite fold_left_app.
  fold (new_Set xs). now rewrite new_Set_NoDup.
Qed.

Lemma existsb_eqb_In (x : string) (xs : list string) :
  existsb (String.eqb x) xs = true <-> In x xs.
Proof.
  rewrite existsb_exists. split.
  - intros (y & Hy & Heq). apply String.eqb_eq in Heq. now subst.
  - intros H. exists x. split; [exact H|apply String.eqb_refl].
Qed.

(** X23.  Subscriptions are a set, and subscribing is undone by
    unsubscribing.  On a state whose subscriptions are a set, [subscribe]
    keeps them a set and adds the ticker, a second [subscribe] of the same
    ticker changes nothing, [unsubscribe] keeps them a set and removes the
    ticker, and [unsubscribe] after [subscribe] of a ticker that was not
    subscribed gives the state back. *)
Theorem subscribe_unsubscribe (ticker : string) (state : MarketData.MarketDataState) :
  NoDup (MarketData.subscriptions state) ->
  let subscribed := MarketData.subscribe ticker state in
  let unsubscribed := MarketData.unsubscribe ticker state in
  NoDup (MarketData.subscriptions subscribed)
  /\ In ticker (MarketData.subscriptions subscribed)
  /\ MarketData.subscribe ticker subscribed = subscribed
  /\ NoDup (MarketData.subscriptions unsubscribed)
  /\ ~ In ticker (MarketData.subscriptions unsubscribed)
  /\ (~ In ticker (MarketData.subscriptions state) ->
      MarketData.unsubscribe ticker subscribed = state).
Proof.
  intros Hnd. cbv zeta.
  assert (MarketData.subscriptions (MarketData.subscribe ticker state)
          = if existsb (String.eqb ticker) (MarketData.subscriptions state)
            then MarketData.subscriptions state
            else MarketData.subscriptions state ++ [ticker]) as Hsub.
  { unfold MarketData.subscribe. cbn [MarketData.set_subscriptions MarketData.subscriptions].
    now apply new_Set_snoc. }
  assert (NoDup (MarketData.subscriptions (MarketData.subscribe ticker state))) as Hnd'.
  { rewrite Hsub. destruct (existsb _ _) eqn:E; [exact Hnd|].
    apply NoDup_app. split; [exact Hnd|]. split; [|apply NoDup_singleton].
    intros x Hx Hx'. apply list_elem_of_singleton in Hx'. subst x.
    apply not_true_iff_false in E. apply E, existsb_eqb_In. now apply list_elem_of_In. }
  assert (In ticker (MarketData.subscriptions (MarketData.subscribe ticker state))) as Hin.
  { rewrite Hsub. destruct (existsb _ _) eqn:E.
    - now apply existsb_eqb_In.
    - apply in_or_app. right. now left. }
  split; [exact Hnd'|]. split; [exact Hin|]. split; [|split; [|split]].
  - unfold MarketData.subscribe at 1.
    rewrite new_Set_snoc by exact Hnd'.
    apply existsb_eqb_In in Hin. rewrite Hin.
    now destruct (MarketData.subscribe ticker state).
  - unfold MarketData.unsubscribe.
    cbn [MarketData.set_subscriptions MarketData.subscriptions].
    rewrite new_Set_NoDup by exact Hnd. now apply NoDup_list_filter.
  - unfold MarketData.unsubscribe.
    cbn [MarketData.set_subscriptions MarketData.subscriptions].
    intros H. apply filter_In in H. destruct H as [_ H].
    now rewrite String.eqb_refl in H.
  - intros Hnot. unfold MarketData.unsubscribe.
    rewrite new_Set_NoDup by exact Hnd'. rewrite Hsub.
    assert (existsb (String.eqb ticker) (MarketData.subscriptions state) = false) as ->.
    { apply not_true_iff_false. now rewrite existsb_eqb_In. }
    rewrite List.filter_app. cbn [List.filter]. rewrite String.eqb_refl. cbn [negb].
    rewrite app_nil_r, filter_all.
    + unfold MarketData.subscribe. now destruct state.
    + intros t Ht. apply negb_true_iff, String.eqb_neq. intros ->. now apply Hnot.
Qed.

Lemma subscribe_unsubscribe_witness :
  MarketData.unsubscribe "KX" (MarketData.subscribe "KX" MarketData.initial)
  = MarketData.initial.
Proof.
  apply (subscribe_unsubscribe "KX" MarketData.initial); [constructor|intros []].
Defined.


Lemma Obj_put_put {V} (k : string) (v v' : V) (o : Obj.t V) :
  Obj.put k v (Obj.put k v' o) = Obj.put k v o.
Proof.
  induction o as [|[k0 v0] o IH]; cbn [Obj.put].
  - now rewrite String.eqb_refl.
  - destruct (String.eqb k0 k) eqn:E; cbn [Obj.put].
    + now rewrite String.eqb_refl.
    + now rewrite E, IH.
Qed.

(** Writing a property that is there commutes with writing another one. *)
Lemma Obj_put_comm {V} (k j : string) (v u : V) (o : Obj.t V) :
  k <> j -> In k (Obj.keys o) ->
  Obj.put k v (Obj.put j u o) = Obj.put j u (Obj.put k v o).
Proof.
  intros Hne. induction o as [|[k0 v0] o IH]; intros Hin; [destruct Hin|].
  destruct (String.eqb_spec k0 j) as [->|Hj].
  - cbn [Obj.put]. rewrite String.eqb_refl.
    assert (String.eqb j k = false) as Hjk by (apply String.eqb_neq; congruence).
    cbn [Obj.put]. rewrite Hjk. cbn [Obj.put]. now rewrite String.eqb_refl.
  - destruct (String.eqb_spec k0 k) as [->|Hk].
    + cbn [Obj.put]. apply String.eqb_neq in Hj. rewrite Hj, String.eqb_refl.
      cbn [Obj.put]. now rewrite Hj, String.eqb_refl.
    + cbn [Obj.put]. apply String.eqb_neq in Hj, Hk. rewrite Hj, Hk.
      cbn [Obj.put]. rewrite Hj, Hk. f_equal. apply IH.
      destruct Hin as [H|H]; [|exact H]. cbn in H. subst k0.
      now rewrite String.eqb_refl in Hk.
Qed.


Lemma Obj_keys_put {V} (k j : string) (u : V) (o : Obj.t V) :
  In k (Obj.keys (Obj.put j u o)) <-> k = j \/ In k (Obj.keys o).
Proof.
  induction o as [|[k0 v0] o IH]; cbn [Obj.put].
  - cbn. intuition.
  - destruct (String.eqb_spec k0 j) as [->|Hne]; cbn [Obj.keys map fst In].
    + intuition.
    + fold (Obj.keys (Obj.put j u o)). fold (Obj.keys o). rewrite IH. intuition.
Qed.

Lemma Obj_keys_put_NoDup {V} (j : string) (u : V) (o : Obj.t V) :
  List.NoDup (Obj.keys o) -> List.NoDup (Obj.keys (Obj.put j u o)).
Proof.
  induction o as [|[k0 v0] o IH]; cbn [Obj.put]; intros Hnd.
  - constructor; [intros []|constructor].
  - inversion Hnd as [|? ? Hnot Hnd']; subst.
    destruct (String.eqb_spec k0 j) as [->|Hne]; cbn [Obj.keys map fst].
    + now constructor.
    + constructor; [|now apply IH].
      fold (Obj.keys (Obj.put j u o)). rewrite Obj_keys_put. intros [->|H]; auto.
Qed.

Lemma Obj_spread_put_present {V} (k : string) (v : V) (b : Obj.t V) :
  ~ In k (Obj.keys b) ->
  forall a, In k (Obj.keys a) ->
            Obj.put k v (Obj.spread a b) = Obj.spread (Obj.put k v a) b.
Proof.
  unfold Obj.spread.
  induction b as [|[j u] b IH]; intros Hnot a Hin; cbn [fold_left fst snd]; [reflexivity|].
  cbn [Obj.keys map fst In] in Hnot.
  rewrite IH.
  - rewrite Obj_put_comm; [reflexivity| |exact Hin]. intros ->. apply Hnot. now left.
  - intros H. apply Hnot. now right.
  - apply Obj_keys_put. now right.
Qed.

Lemma Obj_spread_put {V} (k : string) (v : V) (b : Obj.t V) :
  List.NoDup (Obj.keys b) ->
  forall a, Obj.spread a (Obj.put k v b) = Obj.put k v (Obj.spread a b).
Proof.
  induction b as [|[k' v'] b IH]; intros Hnd a; [reflexivity|].
  inversion Hnd as [|? ? Hnot Hnd']; subst. cbn [Obj.put].
  destruct (String.eqb_spec k' k) as [->|Hne].
  - unfold Obj.spread at 1 2. cbn [fold_left fst snd]. fold (Obj.spread (Obj.put k v a) b).
    fold (Obj.spread (Obj.put k v' a) b).
    rewrite Obj_spread_put_present; [now rewrite Obj_put_put|exact Hnot|].
    apply Obj_keys_put. now left.
  - unfold Obj.spread at 1 2. cbn [fold_left fst snd].
    fold (Obj.spread (Obj.put k' v' a) (Obj.put k v b)).
    fold (Obj.spread (Obj.put k' v' a) b). now apply IH.
Qed.

Lemma Obj_fromEntries_snoc {V} (es : list (string * V)) (k : string) (v : V) :
  Obj.fromEntries (es ++ [(k, v)]) = Obj.put k v (Obj.fromEntries es).
Proof. unfold Obj.fromEntries, Obj.spread. now rewrite fold_left_app. Qed.

Lemma Obj_fromEntries_NoDup {V} (es : list (string * V)) :
  List.NoDup (Obj.keys (Obj.fromEntries es)).
Proof.
  induction es as [|[k v] es IH] using rev_ind; [constructor|].
  rewrite Obj_fromEntries_snoc. now apply Obj_keys_put_NoDup.
Qed.

(** Spreading the object made from a list of entries is writing the
    entries one by one. *)
Lemma Obj_spread_fromEntries {V} (a : Obj.t V) (es : list (string * V)) :
  Obj.spread a (Obj.fromEntries es) = Obj.spread a es.
Proof.
  induction es as [|[k v] es IH] using rev_ind; [reflexivity|].
  rewrite Obj_fromEntries_snoc, Obj_spread_put by apply Obj_fromEntries_NoDup.
  rewrite IH. unfold Obj.spread. now rewrite fold_left_app.
Qed.

(** X24.  [setMarkets] is [setMarket] for each market of the batch, in
    order: the two give the same state, with the same order of the cached
    markets; so a ticker of the batch reads the last market of the batch
    that has it, and any other ticker reads what it did. *)
Theorem setMarkets_iterates_setMarket (ms : list Market.t)
    (state : MarketData.MarketDataState) :
  MarketData.setMarkets ms state
  = fold_left (fun st m => MarketData.setMarket (Market.ticker m) m st) ms state
  /\ forall t,
       Obj.get t (MarketData.markets (MarketData.setMarkets ms state))
       = match find (fun m => String.eqb (Market.ticker m) t) (rev ms) with
         | Some m => Some m
         | None => Obj.get t (MarketData.markets state)
         end.
Proof.
  assert (forall ms st,
             fold_left (fun st m => MarketData.setMarket (Market.ticker m) m st) ms st
             = MarketData.set_markets st
                 (Obj.spread (MarketData.markets st)
                    (map (fun m => (Market.ticker m, m)) ms))) as Hfold.
  { clear. induction ms as [|m ms IH]; intros st; cbn [fold_left map].
    - now destruct st.
    - rewrite IH. unfold MarketData.setMarket, MarketData.set_markets.
      cbn [MarketData.markets MarketData.fills MarketData.wsConnected
             MarketData.apiConnected MarketData.environment MarketData.subscriptions
             MarketData.loadingMarkets MarketData.loadingEvents].
      reflexivity. }
  assert (MarketData.setMarkets ms state
          = MarketData.set_markets state
              (Obj.spread (MarketData.markets state)
                 (map (fun m => (Market.ticker m, m)) ms))) as Hset.
  { unfold MarketData.setMarkets. now rewrite Obj_spread_fromEntries. }
  split; [now rewrite Hfold|].
  intros t. rewrite Hset. cbn [MarketData.set_markets MarketData.markets].
  induction ms as [|m ms IH] using rev_ind; [reflexivity|].
  rewrite map_app, rev_app_distr. cbn [map rev app find].
  unfold Obj.spread. rewrite fold_left_app. cbn [fold_left fst snd].
  fold (Obj.spread (MarketData.markets state) (map (fun m => (Market.ticker m, m)) ms)).
  destruct (String.eqb_spec (Market.ticker m) t) as [<-|Hne].
  - apply Obj_get_put_eq.
  - rewrite Obj_get_put_ne by exact Hne. apply IH.
    unfold MarketData.setMarkets. now rewrite Obj_spread_fromEntries.
Qed.

(** What [group] has made of the markets it has seen. *)
Lemma group_get (ms : list Market.t) :
  forall grouped,
    (forall m, In m ms -> Obj.inherited (MarketData.category_of m) = false) ->
    exists result,
      MarketData.group ms grouped = Some result
      /\ forall c,
           Obj.get c result
           = match markets_in c ms with
             | [] => Obj.get c grouped
             | _ :: _ => Some (default [] (Obj.get c grouped) ++ markets_in c ms)
             end.
Proof.
  induction ms as [|m ms IH]; intros grouped Hinh; cbn [MarketData.group].
  - exists grouped. split; [reflexivity|]. reflexivity.
  - rewrite (Hinh m (or_introl eq_refl)).
    assert (forall members,
               match Obj.get (MarketData.category_of m) grouped with
               | Some members' => members = members' ++ [m]
               | None => members = [m]
               end ->
               exists result,
                 MarketData.group ms (Obj.put (MarketData.category_of m) members grouped)
                 = Some result
                 /\ forall c,
                      Obj.get c result
                      = match markets_in c (m :: ms) with
                        | [] => Obj.get c grouped
                        | _ :: _ =>
                            Some (default [] (Obj.get c grouped) ++ markets_in c (m :: ms))
                        end) as Hstep.
    { intros members Hmembers.
      destruct (IH (Obj.put (MarketData.category_of m) members grouped)
                  (fun m' Hm' => Hinh m' (or_intror Hm'))) as (result & Hres & Hget).
      exists result. split; [exact Hres|]. intros c. rewrite Hget.
      unfold markets_in. cbn [List.filter].
      destruct (String.eqb_spec (MarketData.category_of m) c) as [<-|Hne].
      - rewrite Obj_get_put_eq. fold (markets_in (MarketData.category_of m) ms).
        cbn [default from_option id].
        destruct (Obj.get (MarketData.category_of m) grouped) as [members'|];
          subst members; cbn [default from_option id];
          destruct (markets_in (MarketData.category_of m) ms);
          rewrite <- ?app_assoc, ?app_nil_r; reflexivity.
      - rewrite Obj_get_put_ne by exact Hne. reflexivity. }
    destruct (Obj.get (MarketData.category_of m) grouped) as [members'|];
      apply Hstep; reflexivity.
Qed.

Lemma group_throws (ms : list Market.t) :
  forall grouped,
    (forall k, Obj.inherited k = true -> Obj.get k grouped = None) ->
    (exists m, In m ms /\ Obj.inherited (MarketData.category_of m) = true) ->
    MarketData.group ms grouped = None.
Proof.
  induction ms as [|m ms IH]; intros grouped Hown (m' & Hin & Hinh); [destruct Hin|].
  cbn [MarketData.group].
  destruct (Obj.inherited (MarketData.category_of m)) eqn:E.
  - now rewrite (Hown _ E).
  - assert (exists m0, In m0 ms /\ Obj.inherited (MarketData.category_of m0) = true) as Hrest.
    { destruct Hin as [->|Hin]; [congruence|eauto]. }
    assert (forall members k,
               Obj.inherited k = true ->
               Obj.get k (Obj.put (MarketData.category_of m) members grouped) = None) as Hown'.
    { intros members k Hk. rewrite Obj_get_put_ne; [now apply Hown|]. congruence. }
    destruct (Obj.get (MarketData.category_of m) grouped); apply IH; auto.
Qed.

(** X25.  [getMarketsByCategory] groups the cached markets by
    [category || 'Other'].  When no category is a name of
    [Object.prototype] it returns, and each category reads exactly the
    cached markets of that category, in the order of the cache; a
    category no market has is absent.  When some market's category is
    such a name, the call throws. *)
Theorem getMarketsByCategory_groups (state : MarketData.MarketDataState) :
  let cached := Obj.values (MarketData.markets state) in
  ((forall m, In m cached -> Obj.inherited (MarketData.category_of m) = false) ->
   exists grouped,
     MarketData.getMarketsByCategory state = Some grouped
     /\ forall c,
          Obj.get c grouped
          = match markets_in c cached with
            | [] => None
            | _ :: _ => Some (markets_in c cached)
            end)
  /\ ((exists m, In m cached /\ Obj.inherited (MarketData.category_of m) = true) ->
      MarketData.getMarketsByCategory state = None).
Proof.
  cbv zeta. unfold MarketData.getMarketsByCategory. split.
  - intros Hinh. destruct (group_get _ [] Hinh) as (grouped & H & Hget).
    exists grouped. split; [exact H|]. intros c. rewrite Hget. reflexivity.
  - apply group_throws. reflexivity.
Qed.

Lemma getMarketsByCategory_groups_witness :
  let state :=
    MarketData.setMarkets
      [market "KXA" (Some "Politics"); market "KXB" None; market "KXC" (Some "Politics")]
      MarketData.initial in
  exists grouped,
    MarketData.getMarketsByCategory state = Some grouped
    /\ Obj.get "Politics" grouped
       = Some [market "KXA" (Some "Politics"); market "KXC" (Some "Politics")]
    /\ Obj.get "Other" grouped = Some [market "KXB" None].
Proof.
  cbv zeta.
  destruct (getMarketsByCategory_groups
              (MarketData.setMarkets
                 [market "KXA" (Some "Politics"); market "KXB" None;
                  market "KXC" (Some "Politics")]
                 MarketData.initial)) as [Hgroups _].
  destruct Hgroups as (grouped & H & Hget).
  - intros m [<-|[<-|[<-|[]]]]; reflexivity.
  - exists grouped. split; [exact H|].
    split; [exact (Hget "Politics")|exact (Hget "Other")].
Defined.


(** *** The breakpoint *)

(** X27.  A window resize changes the breakpoint, not what is shown.
    After every run from the empty workspace, the resize listener sets the
    breakpoint to [lg] from 1024 pixels, to [md] from 768 and to [sm]
    below, changes no layout object and nothing in the store, and the
    layout of the new breakpoint holds the items the old one held. *)
Theorem window_resize_keeps_layout (actions : list Action) (innerWidth : Z) :
  let W := run initialWorld actions in
  let W' := updateBreakpoint innerWidth W in
  GridLayout.currentBreakpoint (grid W')
  = (if 1024 <=? innerWidth then bp_lg else if 768 <=? innerWidth then bp_md else bp_sm)
  /\ active_layout W' = active_layout W
  /\ heap W' = heap W /\ store W' = store W.
Proof.
  cbv zeta. pose proof (run_shape actions initialWorld initialWorld_shape) as H.
  set (W := run initialWorld actions) in *.
  unfold updateBreakpoint.
  set (bp := if 1024 <=? innerWidth then bp_lg
             else if 768 <=? innerWidth then bp_md else bp_sm).
  destruct (bool_decide (bp <> GridLayout.currentBreakpoint (grid W))) eqn:E.
  - split; [reflexivity|]. split; [|auto].
    unfold active_layout.
    cbn [grid heap GridLayout.set_currentBreakpoint GridLayout.layouts
           GridLayout.currentBreakpoint].
    rewrite (sh_sync W H), !(shape_get_layout W _ H). reflexivity.
  - apply bool_decide_eq_false in E. split; [|auto].
    destruct (decide (bp = GridLayout.currentBreakpoint (grid W))) as [Heq|Hne];
      [now symmetry|]. now apply E in Hne.
Qed.

(** *** The zustand store's widget updates *)

Lemma merge_config_idem (old new : WidgetConfig.t) :
  Zustand.merge_config (Zustand.merge_config old new) new = Zustand.merge_config old new.
Proof.
  destruct old as [d t c k], new as [[d'|] [t'|] [c'|] [k'|]]; reflexivity.
Qed.

Lemma map_if_proj {B} (proj : WidgetInstance.t -> B) (f : WidgetInstance.t -> bool)
    (g : WidgetInstance.t -> WidgetInstance.t) (ws : list WidgetInstance.t) :
  (forall w, proj (g w) = proj w) ->
  map proj (map (fun w => if f w then g w else w) ws) = map proj ws.
Proof.
  intros Hg. induction ws as [|w ws IH]; [reflexivity|]. cbn [map]. rewrite IH.
  destruct (f w); [now rewrite Hg|reflexivity].
Qed.

Lemma filter_map_if_other (id : string) (g : WidgetInstance.t -> WidgetInstance.t)
    (ws : list WidgetInstance.t) :
  (forall w, WidgetInstance.id (g w) = WidgetInstance.id w) ->
  List.filter (other_widget id)
    (map (fun w => if String.eqb (WidgetInstance.id w) id then g w else w) ws)
  = List.filter (other_widget id) ws.
Proof.
  intros Hg. induction ws as [|w ws IH]; [reflexivity|]. cbn [map List.filter].
  destruct (String.eqb (WidgetInstance.id w) id) eqn:E.
  - assert (other_widget id (g w) = false) as ->
      by (unfold other_widget; now rewrite Hg, E).
    assert (other_widget id w = false) as -> by (unfold other_widget; now rewrite E).
    exact IH.
  - assert (other_widget id w = true) as -> by (unfold other_widget; now rewrite E).
    now rewrite IH.
Qed.

(** X28.  The widget updates of the zustand store touch only their
    widget.  [updateWidgetConfig] and [updateWidgetTicker] keep the ids,
    types, number and order of the widgets, every layout, the active
    ticker and the palette flag, and leave widgets with another id as they
    are.  In the updated widget, [updateWidgetConfig] takes each field the
    update has and keeps each field it lacks, so applying the same update
    twice is applying it once; [updateWidgetTicker] sets the ticker and
    keeps the config. *)
Theorem zustand_updates_frame (id : string) (config : WidgetConfig.t) (ticker : string)
    (state : Zustand.WorkspaceState) :
  let c := Zustand.updateWidgetConfig id config state in
  let t := Zustand.updateWidgetTicker id ticker state in
  (map WidgetInstance.id (Zustand.widgets c) = map WidgetInstance.id (Zustand.widgets state)
   /\ map WidgetInstance.type (Zustand.widgets c)
      = map WidgetInstance.type (Zustand.widgets state)
   /\ map WidgetInstance.ticker (Zustand.widgets c)
      = map WidgetInstance.ticker (Zustand.widgets state)
   /\ List.filter (other_widget id) (Zustand.widgets c)
      = List.filter (other_widget id) (Zustand.widgets state)
   /\ Zustand.updateWidgetConfig id config c = c
   /\ Zustand.updateLayouts (Zustand.layouts state) c = c)
  /\ (map WidgetInstance.id (Zustand.widgets t) = map WidgetInstance.id (Zustand.widgets state)
      /\ map WidgetInstance.type (Zustand.widgets t)
         = map WidgetInstance.type (Zustand.widgets state)
      /\ map WidgetInstance.config (Zustand.widgets t)
         = map WidgetInstance.config (Zustand.widgets state)
      /\ List.filter (other_widget id) (Zustand.widgets t)
         = List.filter (other_widget id) (Zustand.widgets state)
      /\ (forall w, In w (Zustand.widgets t) -> WidgetInstance.id w = id ->
                    WidgetInstance.ticker w = Some ticker)
      /\ Zustand.updateLayouts (Zustand.layouts state) t = t)
  /\ (forall w, In w (Zustand.widgets state) -> WidgetInstance.id w = id ->
                In (WidgetInstance.mk id (WidgetInstance.type w) (WidgetInstance.ticker w)
                      (WidgetInstance.title w)
                      (Zustand.merge_config (WidgetInstance.config w) config))
                   (Zustand.widgets c)).
Proof.
  cbv zeta. unfold Zustand.updateWidgetConfig, Zustand.updateWidgetTicker,
    Zustand.updateLayouts.
  cbn [Zustand.widgets Zustand.layouts Zustand.activeTicker Zustand.commandPaletteOpen].
  split; [|split].
  - split; [apply map_if_proj; reflexivity|].
    split; [apply map_if_proj; reflexivity|].
    split; [apply map_if_proj; reflexivity|].
    split; [apply filter_map_if_other; reflexivity|].
    split; [|reflexivity].
    f_equal. induction (Zustand.widgets state) as [|w ws IH]; [reflexivity|].
    cbn [map]. rewrite IH. f_equal.
    destruct (String.eqb (WidgetInstance.id w) id) eqn:E;
      cbn [WidgetInstance.id WidgetInstance.type WidgetInstance.ticker
             WidgetInstance.title WidgetInstance.config];
      rewrite E; [now rewrite merge_config_idem|reflexivity].
  - split; [apply map_if_proj; reflexivity|].
    split; [apply map_if_proj; reflexivity|].
    split; [apply map_if_proj; reflexivity|].
    split; [apply filter_map_if_other; reflexivity|].
    split; [|reflexivity].
    intros w Hw Hid. apply in_map_iff in Hw. destruct Hw as (w0 & Hw0 & _).
    destruct (String.eqb (WidgetInstance.id w0) id) eqn:E; subst w; [reflexivity|].
    apply String.eqb_neq in E. contradiction.
  - intros w Hw Hid. apply in_map_iff. exists w. split; [|exact Hw].
    rewrite Hid, String.eqb_refl. reflexivity.
Qed.


(** *** A resize that has not moved yet *)


